(** * Gemini-Image: the bulk runner and the watermark pipeline of [src/index.tsx]

    A shallow embedding of the parts of [src/index.tsx] that carry state and
    failure semantics: [compressImage], [applyWatermark], [saveToHistory],
    [runBulkGeneration], [downloadBulkZip] and the bulk branch of the
    generate button's click handler; then the generation functions and
    their reading of a response ([generateImage],
    [generateMultimodalImage], [editImage], [upscaleImage], [remixImage],
    [handleGenerationError]), [generateVideo] with its polling loop, and
    the click handler outside bulk mode (validation, choice of the
    request by mode, the nail art loop, the video branch).

    Conventions of the embedding.
    - A JavaScript string is its list of UTF-16 code units ([jsstring]).
    - A JavaScript number is an IEEE 754 binary64 value ([number], Rocq's
      primitive [float]); array indices and lengths are [nat].
    - An awaited promise is the value it settles to ([Settled]): [Fulfilled]
      is the value of the [await], [Rejected] is the exception it throws.
    - The browser (image decoding, the 2D canvas, text measuring, PNG/JPEG
      encoding) and the network are not code of the repository: they are
      fields of [Browser] and variables of the runner.
    - Of the presentation layer (CSS classes, inner texts, the progress bar)
      only what decides the control flow is kept. The runner builds each
      row by interpolating the prompt into [row.innerHTML], looks the row
      up again by its id, and writes to its [.status-text] element before
      the [try]: what the browser makes of the markup is a parameter
      ([Page]), a row that is not found is skipped, and a row without the
      element ends the run with an uncaught [TypeError] ([RunEnd]). In the
      click handler outside bulk mode the status line is followed through
      the [catch] and the [finally] block ([Shown]). *)

From Stdlib Require Import PrimFloat FloatOps FloatAxioms SpecFloat.
From Stdlib Require Import Strings.String Strings.Ascii.
From Stdlib Require Import DecimalN DecimalFacts.
From stdpp Require Import gmap list fin_maps.

#[local] Set Warnings "-inexact-float".
#[local] Open Scope list_scope.

(* ===================================================================== *)
(** ** JavaScript values *)
(* ===================================================================== *)

Module Js.

(** One UTF-16 code unit. *)
Definition code_unit := N.

Definition jsstring := list code_unit.

Definition number := float.

(** An ASCII literal of the source as a [jsstring]. *)
Definition lit (s : string) : jsstring :=
  map N_of_ascii (list_ascii_of_string s).

(** [!!s] for a string [s]: only the empty string is falsy. *)
Definition truthy (s : jsstring) : bool :=
  match s with [] => false | _ :: _ => true end.

(** [!!v] for [v : string | null | undefined]. *)
Definition truthy_opt (v : option jsstring) : bool :=
  match v with Some s => truthy s | None => false end.

(** What a [throw] or a [reject] carries: an [Error] with its message, or
    the DOM event handed to an [onerror] handler. *)
Inductive Thrown : Type :=
| Error (message : jsstring)
| ErrorEvent.

Inductive Settled (A : Type) : Type :=
| Fulfilled (v : A)
| Rejected (e : Thrown).
Arguments Fulfilled {A} v.
Arguments Rejected {A} e.

(** ECMAScript WhiteSpace and LineTerminator code points, the ones
    [String.prototype.trim] strips. *)
Definition isWhiteSpace (c : code_unit) : bool :=
  ((9 <=? c) && (c <=? 13) || (c =? 32) || (c =? 160) || (c =? 5760)
   || (8192 <=? c) && (c <=? 8202) || (c =? 8232) || (c =? 8233)
   || (c =? 8239) || (c =? 8287) || (c =? 12288) || (c =? 65279))%N.

Fixpoint trimStart (s : jsstring) : jsstring :=
  match s with
  | [] => []
  | c :: s' => if isWhiteSpace c then trimStart s' else s
  end.

Fixpoint trimEnd (s : jsstring) : jsstring :=
  match s with
  | [] => []
  | c :: s' =>
      match trimEnd s' with
      | [] => if isWhiteSpace c then [] else [c]
      | r => c :: r
      end
  end.

(** [s.trim()] *)
Definition trim (s : jsstring) : jsstring := trimEnd (trimStart s).

(** [s.split(sep)] for a separator of one code unit. *)
Fixpoint split (sep : code_unit) (s : jsstring) : list jsstring :=
  match s with
  | [] => [[]]
  | c :: s' =>
      if (c =? sep)%N then [] :: split sep s'
      else match split sep s' with
           | [] => [[c]]
           | l :: ls => (c :: l) :: ls
           end
  end.

(** [s.substring(0, n)] *)
Definition substring0 (n : nat) (s : jsstring) : jsstring := take n s.

Definition isDigit (c : code_unit) : bool := ((48 <=? c) && (c <=? 57))%N.
Definition isLower (c : code_unit) : bool := ((97 <=? c) && (c <=? 122))%N.
Definition isUpper (c : code_unit) : bool := ((65 <=? c) && (c <=? 90))%N.

(** The decimal digits of a [Decimal.uint], most significant first. *)
Fixpoint digits (d : Decimal.uint) : jsstring :=
  match d with
  | Decimal.Nil => []
  | Decimal.D0 d => 48%N :: digits d
  | Decimal.D1 d => 49%N :: digits d
  | Decimal.D2 d => 50%N :: digits d
  | Decimal.D3 d => 51%N :: digits d
  | Decimal.D4 d => 52%N :: digits d
  | Decimal.D5 d => 53%N :: digits d
  | Decimal.D6 d => 54%N :: digits d
  | Decimal.D7 d => 55%N :: digits d
  | Decimal.D8 d => 56%N :: digits d
  | Decimal.D9 d => 57%N :: digits d
  end.

(** [String(n)] for a non-negative integer [n], as a template literal
    prints it. *)
Definition ofNat (n : nat) : jsstring := digits (N.to_uint (N.of_nat n)).

(** [s.startsWith(p)], returning the rest of [s] behind [p]. *)
Fixpoint stripPrefix (p s : jsstring) : option jsstring :=
  match p, s with
  | [], _ => Some s
  | a :: p', b :: s' => if (a =? b)%N then stripPrefix p' s' else None
  | _ :: _, [] => None
  end.

(** The longest prefix of [s] whose code units satisfy [f], and the rest. *)
Fixpoint spanWhile (f : code_unit -> bool) (s : jsstring)
    : jsstring * jsstring :=
  match s with
  | [] => ([], [])
  | c :: s' =>
      if f c then let '(a, b) := spanWhile f s' in (c :: a, b)
      else ([], s)
  end.

End Js.
Import Js.

#[global] Arguments lit : simpl never.

(* ===================================================================== *)
(** ** The image post-processing pipeline *)
(* ===================================================================== *)

Module Pipeline.

#[local] Open Scope float_scope.

(** A decoded [HTMLImageElement]. *)
Record HTMLImage := {
  src : jsstring;
  width : number;
  height : number
}.

(** The drawing state of a [CanvasRenderingContext2D] that the source sets. *)
Record Context2D := {
  globalAlpha : number;
  font : jsstring;
  textBaseline : jsstring;
  shadowColor : jsstring;
  shadowBlur : number;
  fillStyle : jsstring
}.

(** The state of a fresh context. *)
Definition freshContext : Context2D := {|
  globalAlpha := 1;
  font := lit "10px sans-serif";
  textBaseline := lit "alphabetic";
  shadowColor := lit "rgba(0, 0, 0, 0)";
  shadowBlur := 0;
  fillStyle := lit "#000000"
|}.

Definition set_globalAlpha (v : number) (c : Context2D) : Context2D :=
  {| globalAlpha := v; font := font c; textBaseline := textBaseline c;
     shadowColor := shadowColor c; shadowBlur := shadowBlur c;
     fillStyle := fillStyle c |}.

(** [ctx.globalAlpha = v]: the canvas ignores a value outside [0, 1], so
    also [NaN]. *)
Definition assign_globalAlpha (v : number) (c : Context2D) : Context2D :=
  if (0 <=? v) && (v <=? 1) then set_globalAlpha v c else c.

Definition set_font (v : jsstring) (c : Context2D) : Context2D :=
  {| globalAlpha := globalAlpha c; font := v; textBaseline := textBaseline c;
     shadowColor := shadowColor c; shadowBlur := shadowBlur c;
     fillStyle := fillStyle c |}.

Definition set_textBaseline (v : jsstring) (c : Context2D) : Context2D :=
  {| globalAlpha := globalAlpha c; font := font c; textBaseline := v;
     shadowColor := shadowColor c; shadowBlur := shadowBlur c;
     fillStyle := fillStyle c |}.

Definition set_shadowColor (v : jsstring) (c : Context2D) : Context2D :=
  {| globalAlpha := globalAlpha c; font := font c;
     textBaseline := textBaseline c; shadowColor := v;
     shadowBlur := shadowBlur c; fillStyle := fillStyle c |}.

Definition set_shadowBlur (v : number) (c : Context2D) : Context2D :=
  {| globalAlpha := globalAlpha c; font := font c;
     textBaseline := textBaseline c; shadowColor := shadowColor c;
     shadowBlur := v; fillStyle := fillStyle c |}.

Definition set_fillStyle (v : jsstring) (c : Context2D) : Context2D :=
  {| globalAlpha := globalAlpha c; font := font c;
     textBaseline := textBaseline c; shadowColor := shadowColor c;
     shadowBlur := shadowBlur c; fillStyle := v |}.

(** One drawing call, with the context state it was issued under. *)
Inductive DrawOp : Type :=
| DrawImage (ctx : Context2D) (image : HTMLImage) (dx dy : number)
    (dsize : option (number * number))
| FillText (ctx : Context2D) (text : jsstring) (x y : number).

(** A canvas: its size and the calls drawn onto it, oldest first. *)
Record Canvas := {
  canvas_width : number;
  canvas_height : number;
  drawn : list DrawOp
}.

Definition createCanvas (w h : number) : Canvas :=
  {| canvas_width := w; canvas_height := h; drawn := [] |}.

Definition draw (op : DrawOp) (c : Canvas) : Canvas :=
  {| canvas_width := canvas_width c; canvas_height := canvas_height c;
     drawn := drawn c ++ [op] |}.

(** The browser capabilities the pipeline calls:
    - [loadImage s] is [img.src = s]: [Some img] when [onload] fires, [None]
      when [onerror] fires;
    - [getContext2d c] is whether [c.getContext('2d')] returns a context
      rather than [null];
    - [measureText font text] is [ctx.measureText(text).width] under
      [ctx.font = font];
    - [toDataURL c type quality] is [c.toDataURL(type, quality)];
    - [Number_toString x] is what a template literal prints for [x]. *)
Record Browser := {
  loadImage : jsstring -> option HTMLImage;
  getContext2d : Canvas -> bool;
  measureText : jsstring -> jsstring -> number;
  toDataURL : Canvas -> jsstring -> option number -> jsstring;
  Number_toString : number -> jsstring;
  Math_round : number -> number
}.

(** The watermark controls of the page, as [applyWatermark] reads them:
    - [wm_toggle]: [#watermark-toggle], [None] when the element is missing,
      else its [checked];
    - [wm_type_text]: [#wm-type-text] carries the class [bg-blue-500/20];
    - [wm_opacity]: [parseFloat(#wm-opacity.value)];
    - [wm_position]: [#wm-position.value];
    - [wm_text]: [#wm-text.value];
    - [watermarkLogoBase64]: the module variable of that name. *)
Record WatermarkControls := {
  wm_toggle : option bool;
  wm_type_text : bool;
  wm_opacity : number;
  wm_position : jsstring;
  wm_text : jsstring;
  watermarkLogoBase64 : option jsstring
}.

(** The [switch (position)] of the text branch: the draw origin and the
    context, whose baseline the [center] case changes. *)
Definition textOrigin (position : jsstring) (img : HTMLImage)
    (textWidth textHeight padding : number) (ctx : Context2D)
    : number * number * Context2D :=
  if bool_decide (position = lit "bottom-right") then
    (width img - textWidth - padding, height img - padding, ctx)
  else if bool_decide (position = lit "bottom-left") then
    (padding, height img - padding, ctx)
  else if bool_decide (position = lit "top-right") then
    (width img - textWidth - padding, padding + textHeight, ctx)
  else if bool_decide (position = lit "top-left") then
    (padding, padding + textHeight, ctx)
  else if bool_decide (position = lit "center") then
    ((width img - textWidth) / 2, (height img + textHeight) / 2,
     set_textBaseline (lit "middle") ctx)
  else (0, 0, ctx).

(** The [switch (position)] of the logo branch. *)
Definition logoOrigin (position : jsstring) (img : HTMLImage)
    (logoWidth logoHeight padding : number) : number * number :=
  if bool_decide (position = lit "bottom-right") then
    (width img - logoWidth - padding, height img - logoHeight - padding)
  else if bool_decide (position = lit "bottom-left") then
    (padding, height img - logoHeight - padding)
  else if bool_decide (position = lit "top-right") then
    (width img - logoWidth - padding, padding)
  else if bool_decide (position = lit "top-left") then
    (padding, padding)
  else if bool_decide (position = lit "center") then
    ((width img - logoWidth) / 2, (height img - logoHeight) / 2)
  else (0, 0).

Section WithBrowser.

Variable B : Browser.

(** [compressImage(base64Str, maxWidth, quality)] *)
Definition compressImage (base64Str : jsstring) (maxWidth quality : number)
    : Settled jsstring :=
  match loadImage B base64Str with
  | None => Rejected ErrorEvent
  | Some img =>
      let '(w, h) :=
        if maxWidth <? width img
        then (maxWidth, Math_round B ((height img * maxWidth) / width img))
        else (width img, height img) in
      let canvas := createCanvas w h in
      if negb (getContext2d B canvas) then
        Rejected (Error (lit "Could not get canvas context"))
      else
        let canvas :=
          draw (DrawImage freshContext img 0 0 (Some (w, h))) canvas in
        Fulfilled (toDataURL B canvas (lit "image/jpeg") (Some quality))
  end.

(** The text branch of [applyWatermark], from [const text = ...] to
    [ctx.fillText]. *)
Definition drawTextWatermark (dom : WatermarkControls) (img : HTMLImage)
    (padding : number) (ctx : Context2D) (canvas : Canvas) : Canvas :=
  let text :=
    if truthy (wm_text dom) then wm_text dom else lit "Watermark" in
  let fontSize := width img * 0.05 in
  let ctx :=
    set_font (lit "bold " ++ Number_toString B fontSize
                ++ lit "px sans-serif") ctx in
  let ctx := set_textBaseline (lit "bottom") ctx in
  let textWidth := measureText B (font ctx) text in
  let textHeight := fontSize in
  let '(x, y, ctx) :=
    textOrigin (wm_position dom) img textWidth textHeight padding ctx in
  let ctx := set_shadowColor (lit "rgba(0,0,0,0.5)") ctx in
  let ctx := set_shadowBlur 4 ctx in
  let ctx := set_fillStyle (lit "white") ctx in
  draw (FillText ctx text x y) canvas.

(** The body of [logo.onload]. *)
Definition drawLogoWatermark (dom : WatermarkControls)
    (img logo : HTMLImage) (padding : number) (ctx : Context2D)
    (canvas : Canvas) : Canvas :=
  let logoTargetWidth := width img * 0.15 in
  let scale := logoTargetWidth / width logo in
  let logoWidth := width logo * scale in
  let logoHeight := height logo * scale in
  let '(x, y) :=
    logoOrigin (wm_position dom) img logoWidth logoHeight padding in
  draw (DrawImage ctx logo x y (Some (logoWidth, logoHeight))) canvas.

(** [applyWatermark(base64Image)]. The promise it builds is given
    [resolve] only. *)
Definition applyWatermark (dom : WatermarkControls)
    (base64Image : jsstring) : Settled jsstring :=
  match wm_toggle dom with
  | None | Some false => Fulfilled base64Image
  | Some true =>
      match loadImage B base64Image with
      | None => Fulfilled base64Image
      | Some img =>
          let canvas := createCanvas (width img) (height img) in
          if negb (getContext2d B canvas) then Fulfilled base64Image
          else
            let ctx := freshContext in
            let canvas := draw (DrawImage ctx img 0 0 None) canvas in
            let padding := width img * 0.03 in
            let ctx := assign_globalAlpha (wm_opacity dom) ctx in
            if wm_type_text dom then
              let canvas := drawTextWatermark dom img padding ctx canvas in
              Fulfilled (toDataURL B canvas (lit "image/png") None)
            else if truthy_opt (watermarkLogoBase64 dom) then
              match loadImage B (default [] (watermarkLogoBase64 dom)) with
              | Some logo =>
                  let canvas :=
                    drawLogoWatermark dom img logo padding ctx canvas in
                  Fulfilled (toDataURL B canvas (lit "image/png") None)
              | None => Fulfilled base64Image
              end
            else Fulfilled (toDataURL B canvas (lit "image/png") None)
      end
  end.

End WithBrowser.

End Pipeline.

(* ===================================================================== *)
(** ** History, the persistence sink *)
(* ===================================================================== *)

Module History.

Import Pipeline.
#[local] Open Scope float_scope.

Record HistoryItem := {
  h_prompt : jsstring;
  h_imageUrl : jsstring
}.

Definition MAX_HISTORY_ITEMS : nat := 5.

(** What [localStorage.setItem(HISTORY_KEY, JSON.stringify(items))] does:
    it stores, or throws a quota error, or throws something else. *)
Inductive SetItemResult : Type :=
| Stored
| QuotaExceededError
| OtherStorageError.

Section WithStorage.

Variable B : Browser.
Variable setItem : list HistoryItem -> SetItemResult.

(** The [while (newHistory.length > 1)] loop of the quota handler; [n]
    bounds its iterations and [length newHistory] suffices, as every
    iteration pops one item. *)
Fixpoint evictOldest (n : nat) (newHistory stored : list HistoryItem)
    : list HistoryItem :=
  match n with
  | O => stored
  | S n' =>
      if (1 <? length newHistory)%nat then
        let newHistory := removelast newHistory in
        match setItem newHistory with
        | Stored => newHistory
        | _ => evictOldest n' newHistory stored
        end
      else stored
  end.

(** [saveToHistory(prompt, imageUrl)] on the stored history. Its whole
    body sits in a [try] whose [catch] only logs. *)
Definition saveToHistory (prompt imageUrl : jsstring)
    (stored : list HistoryItem) : Settled unit * list HistoryItem :=
  match compressImage B imageUrl 800 0.7 with
  | Rejected _ => (Fulfilled tt, stored)
  | Fulfilled compressedUrl =>
      let history := stored in
      let newItem := {| h_prompt := prompt; h_imageUrl := compressedUrl |} in
      let newHistory := take MAX_HISTORY_ITEMS (newItem :: history) in
      match setItem newHistory with
      | Stored => (Fulfilled tt, newHistory)
      | QuotaExceededError =>
          (Fulfilled tt, evictOldest (length newHistory) newHistory stored)
      | OtherStorageError => (Fulfilled tt, stored)
      end
  end.

End WithStorage.

End History.

(* ===================================================================== *)
(** ** The bulk runner *)
(* ===================================================================== *)

Module Bulk.

Import Pipeline History.

Inductive Status : Type := pending | generating | done | error.

#[export] Instance Status_eq_dec : EqDecision Status.
Proof. solve_decision. Defined.

Record BulkItem := {
  id : jsstring;
  prompt : jsstring;
  status : Status;
  imageUrl : option jsstring
}.

Definition set_status (s : Status) (it : BulkItem) : BulkItem :=
  {| id := id it; prompt := prompt it; status := s; imageUrl := imageUrl it |}.

Definition set_imageUrl (u : jsstring) (it : BulkItem) : BulkItem :=
  {| id := id it; prompt := prompt it; status := status it;
     imageUrl := Some u |}.

(** What the runner does that can be observed from outside: a write to the
    status of job [i], the calls of [generateImage], [applyWatermark] and
    [saveToHistory], and the rate limiting delay. *)
Inductive Event : Type :=
| EvStatus (i : nat) (s : Status)
| EvGenerate (i : nat) (finalPrompt : jsstring)
| EvWatermark (i : nat) (base64 : jsstring)
| EvSave (label base64 : jsstring)
| EvDelay (ms : nat).

(** The module state the runner works on, and the log of its events, oldest
    first. *)
Record World := {
  bulkQueue : list BulkItem;
  history : list HistoryItem;
  trace : list Event
}.

Definition emit (e : Event) (w : World) : World :=
  {| bulkQueue := bulkQueue w; history := history w;
     trace := trace w ++ [e] |}.

Definition withQueue (q : list BulkItem) (w : World) : World :=
  {| bulkQueue := q; history := history w; trace := trace w |}.

Definition withHistory (h : list HistoryItem) (w : World) : World :=
  {| bulkQueue := bulkQueue w; history := h; trace := trace w |}.

(** [bulkQueue[i].status = s] *)
Definition setStatus (i : nat) (s : Status) (w : World) : World :=
  emit (EvStatus i s) (withQueue (alter (set_status s) i (bulkQueue w)) w).

(** [bulkQueue[i].imageUrl = u] *)
Definition setImageUrl (i : nat) (u : jsstring) (w : World) : World :=
  withQueue (alter (set_imageUrl u) i (bulkQueue w)) w.

(** How a call of [runBulkGeneration] ends: it returns, or it throws a
    [TypeError] that nothing catches, so that its promise rejects: at the
    first [bulkList.appendChild(row)] when the page has no list, or at
    [statusText.innerText = 'Generating...'] for job [i] when the row of
    the job has no [.status-text]. *)
Inductive RunEnd : Type :=
| Returned
| ThrewRendering
| ThrewAtJob (i : nat).

(** What a click on the generate button ends in. *)
Inductive ClickResult : Type :=
| ApiKeyDialog
| StatusError (message : jsstring)
| BulkRun (e : RunEnd)
| OtherModes.

(** What the loop finds for a job on the page:
    [document.getElementById(item.id)], and in it
    [row.querySelector('.status-text')]. *)
Inductive Row : Type :=
| NoRow
| RowWithoutStatusText
| RowWithStatusText.

#[export] Instance Row_eq_dec : EqDecision Row.
Proof. solve_decision. Defined.

(** The page, as far as the runner depends on it: whether [#bulk-list] is
    there, and what the browser makes of the rows, given as [row.id] and
    [row.innerHTML], when the loop looks the row of an id up. Parsing the
    markup of a row is the browser's. *)
Record Page := {
  bulkList : bool;
  getRow : list (jsstring * jsstring) -> jsstring -> Row
}.

Definition dq : jsstring := [34%N].
Definition nl : jsstring := [10%N].

(** The template literal assigned to [row.innerHTML]: the prompt goes into
    it as it is. *)
Definition rowInnerHTML (item : BulkItem) : jsstring :=
  nl ++ lit "            <div class=" ++ dq
    ++ lit "w-16 h-16 bg-black/50 rounded flex-shrink-0 flex items-center justify-center border border-gray-600 overflow-hidden"
    ++ dq ++ lit ">" ++ nl
    ++ lit "                <span class=" ++ dq
    ++ lit "text-xs text-gray-500 status-icon" ++ dq ++ lit ">...</span>"
    ++ nl
    ++ lit "                <img class=" ++ dq
    ++ lit "hidden w-full h-full object-cover" ++ dq ++ lit " />" ++ nl
    ++ lit "            </div>" ++ nl
    ++ lit "            <div class=" ++ dq ++ lit "flex-1 min-w-0" ++ dq
    ++ lit ">" ++ nl
    ++ lit "                <p class=" ++ dq
    ++ lit "text-sm text-gray-300 truncate font-medium" ++ dq ++ lit ">"
    ++ prompt item ++ lit "</p>" ++ nl
    ++ lit "                <p class=" ++ dq
    ++ lit "text-xs text-gray-500 status-text" ++ dq ++ lit ">Pending</p>"
    ++ nl
    ++ lit "            </div>" ++ nl
    ++ lit "        ".

(** The rows of [bulkQueue.forEach(item => ...)], in the order they are
    appended. *)
Definition renderedRows (q : list BulkItem) : list (jsstring * jsstring) :=
  map (fun item => (id item, rowInnerHTML item)) q.

(** The lines of the bulk text area kept as prompts:
    [prompt.split('\n').map(p => p.trim()).filter(p => p.length > 0)]. *)
Definition bulkPrompts (promptValue : jsstring) : list jsstring :=
  filter (fun p => (0 < length p)%nat) (map trim (split 10%N promptValue)).

(** The statuses written to job [i], in the order of the writes. *)
Definition statusWrites (i : nat) (evs : list Event) : list Status :=
  omap (fun e =>
          match e with
          | EvStatus j s => if decide (i = j) then Some s else None
          | _ => None
          end) evs.

(** The calls of [generateImage], in the order they are made: the job and
    the prompt sent. *)
Definition generateCalls (evs : list Event) : list (nat * jsstring) :=
  omap (fun e =>
          match e with
          | EvGenerate j p => Some (j, p)
          | _ => None
          end) evs.

(** The edges of [Pending -> Generating -> {Done | Failed}]. *)
Definition forward (a b : Status) : bool :=
  match a, b with
  | pending, generating | generating, done | generating, error => true
  | _, _ => false
  end.

(** Starting from status [s], the writes [ws] only follow edges of
    [forward]. *)
Fixpoint forwardOnly (s : Status) (ws : list Status) : bool :=
  match ws with
  | [] => true
  | s' :: ws' => forward s s' && forwardOnly s' ws'
  end.

Definition terminal (s : Status) : bool :=
  match s with
  | done | error => true
  | pending | generating => false
  end.

Section Runner.

Variable B : Browser.
Variable setItem : list HistoryItem -> SetItemResult.

(** The page the runner writes to. *)
Variable P : Page.

(** [Date.now()] when the callback of [prompts.map] runs for the prompt of
    index [i]. *)
Variable now : nat -> nat.

(** [generateImage(prompt, apiKey, imageSize, aspectRatio)]: the outcome of
    the network call issued for job [i]. *)
Variable generateImage :
  nat -> jsstring -> jsstring -> jsstring -> jsstring -> Settled jsstring.

(** [applyWatermark(base64)] as it runs for job [i], under the watermark
    controls of the page at that moment. *)
Variable applyWatermark : nat -> jsstring -> Settled jsstring.

Section Loop.

Variables apiKey aspectRatio imageSize negativePrompt : jsstring.

Definition finalPromptOf (p : jsstring) : jsstring :=
  if truthy negativePrompt then
    p ++ lit " . Ensure the image does not contain: "
      ++ negativePrompt ++ lit "."
  else p.

(** The [catch (error)] block. *)
Definition onError (i : nat) (e : Thrown) (w : World) : World :=
  setStatus i error w.

(** The [try] block for [item = bulkQueue[i]]. *)
Definition tryItem (i : nat) (item : BulkItem) (w : World) : World :=
  let finalPrompt := finalPromptOf (prompt item) in
  let w := emit (EvGenerate i finalPrompt) w in
  match generateImage i finalPrompt apiKey imageSize aspectRatio with
  | Rejected e => onError i e w
  | Fulfilled base64 =>
      let w := emit (EvWatermark i base64) w in
      match applyWatermark i base64 with
      | Rejected e => onError i e w
      | Fulfilled base64 =>
          let w := setStatus i done w in
          let w := setImageUrl i base64 w in
          let label := lit "Bulk: " ++ prompt item in
          let w := emit (EvSave label base64) w in
          let '(r, h) := saveToHistory B setItem label base64 (history w) in
          let w := withHistory h w in
          match r with
          | Rejected e => onError i e w
          | Fulfilled _ => w
          end
      end
  end.

(** One iteration of the [for] loop, on the page that holds [rows]. A row
    that is not found is skipped, delay included ([continue]). On a row
    without its [.status-text] the write [statusText.innerText = ...]
    throws, after [item.status = 'generating'] and before the [try]:
    nothing catches it. *)
Definition processItem (rows : list (jsstring * jsstring)) (i : nat)
    (w : World) : RunEnd * World :=
  match bulkQueue w !! i with
  | None => (Returned, w)
  | Some item =>
      match getRow P rows (id item) with
      | NoRow => (Returned, w)
      | RowWithoutStatusText => (ThrewAtJob i, setStatus i generating w)
      | RowWithStatusText =>
          let w := setStatus i generating w in
          let w := tryItem i item w in
          (Returned,
           if (S i <? length (bulkQueue w))%nat then emit (EvDelay 2000) w
           else w)
      end
  end.

(** [for (let i = ...; i < bulkQueue.length; i++)], with a bound on the
    number of iterations. *)
Fixpoint processLoop (fuel : nat) (rows : list (jsstring * jsstring))
    (i : nat) (w : World) : RunEnd * World :=
  match fuel with
  | O => (Returned, w)
  | S fuel' =>
      if (i <? length (bulkQueue w))%nat then
        match processItem rows i w with
        | (Returned, w) => processLoop fuel' rows (S i) w
        | thrown => thrown
        end
      else (Returned, w)
  end.

(** [prompts.map((p, i) => ({id, prompt: p.trim(), status: 'pending'}))] *)
Definition newQueue (prompts : list jsstring) : list BulkItem :=
  imap (fun i p =>
          {| id := lit "bulk-" ++ ofNat (now i) ++ lit "-" ++ ofNat i;
             prompt := trim p;
             status := pending;
             imageUrl := None |}) prompts.

(** [runBulkGeneration(prompts, apiKey, aspectRatio, imageSize,
    negativePrompt)]: how the call ends, and the state it leaves. The rows
    are appended to [bulkList] unguarded: without the list on the page, the
    first [appendChild] throws. *)
Definition runBulkGeneration (prompts : list jsstring) (w : World)
    : RunEnd * World :=
  let w := withQueue (newQueue prompts) w in
  let rows := renderedRows (bulkQueue w) in
  if negb (bulkList P) && (0 <? length (bulkQueue w))%nat then
    (ThrewRendering, w)
  else processLoop (length (bulkQueue w)) rows 0 w.

(** What the [try] block of job [i] comes to for the prompt [p]: the
    watermarked image, or what [generateImage] or [applyWatermark] threw. *)
Definition jobOutcome (i : nat) (p : jsstring) : Settled jsstring :=
  match generateImage i (finalPromptOf p) apiKey imageSize aspectRatio with
  | Rejected e => Rejected e
  | Fulfilled base64 => applyWatermark i base64
  end.

(** The item of job [i] once its iteration is over, on a row with its
    status text. *)
Definition finishedItem (i : nat) (item : BulkItem) : BulkItem :=
  match jobOutcome i (prompt item) with
  | Fulfilled base64 =>
      {| id := id item; prompt := prompt item; status := done;
         imageUrl := Some base64 |}
  | Rejected _ =>
      {| id := id item; prompt := prompt item; status := error;
         imageUrl := imageUrl item |}
  end.

(** The events of job [i], whose prompt is [p], on a row with its status
    text, up to the end of its [try] or [catch] block. *)
Definition jobWork (i : nat) (p : jsstring) : list Event :=
  [EvStatus i generating; EvGenerate i (finalPromptOf p)]
  ++ match generateImage i (finalPromptOf p) apiKey imageSize aspectRatio with
     | Rejected _ => [EvStatus i error]
     | Fulfilled base64 =>
         EvWatermark i base64
         :: match applyWatermark i base64 with
            | Rejected _ => [EvStatus i error]
            | Fulfilled out =>
                [EvStatus i done; EvSave (lit "Bulk: " ++ p) out]
            end
     end.

(** The events of the whole iteration for job [i] of [n]: the delay
    follows every job but the last. *)
Definition jobEvents (n i : nat) (p : jsstring) : list Event :=
  jobWork i p ++ (if (S i <? n)%nat then [EvDelay 2000] else []).

(** What the loop comes to from job [i] on, over the items [rest] still to
    run, of a queue of [n] jobs rendered as [rows]: how it ends, the items
    it leaves and the events it adds. *)
Fixpoint loopFrom (rows : list (jsstring * jsstring)) (n i : nat)
    (rest : list BulkItem) : RunEnd * list BulkItem * list Event :=
  match rest with
  | [] => (Returned, [], [])
  | item :: rest' =>
      match getRow P rows (id item) with
      | NoRow =>
          let r := loopFrom rows n (S i) rest' in
          (r.1.1, item :: r.1.2, r.2)
      | RowWithoutStatusText =>
          (ThrewAtJob i, set_status generating item :: rest',
           [EvStatus i generating])
      | RowWithStatusText =>
          let r := loopFrom rows n (S i) rest' in
          (r.1.1, finishedItem i item :: r.1.2,
           jobEvents n i (prompt item) ++ r.2)
      end
  end.

End Loop.

(** Every row of the queue [q] is on the page, with its status text. *)
Definition rowsReady (q : list BulkItem) : bool :=
  bulkList P
  && forallb (fun item =>
                bool_decide
                  (getRow P (renderedRows q) (id item) = RowWithStatusText))
       q.

(** The click handler of the generate button up to the end of its bulk
    branch; the flow of the other modes is not followed. *)
Definition generateButton_click (promptValue negativeValue
    currentMode : jsstring) (apiKey : option jsstring)
    (imageSize aspectRatio : jsstring) (w : World) : ClickResult * World :=
  let negativePrompt := trim negativeValue in
  if negb (truthy_opt apiKey) then (ApiKeyDialog, w)
  else if bool_decide (currentMode = lit "bulk") then
    let prompts := bulkPrompts promptValue in
    if (length prompts =? 0)%nat then
      (StatusError
         (lit "Please enter at least one prompt for bulk generation."), w)
    else
      let r :=
        runBulkGeneration (default [] apiKey) aspectRatio imageSize
          negativePrompt prompts w in
      (BulkRun r.1, r.2)
  else (OtherModes, w).

End Runner.

End Bulk.

(* ===================================================================== *)
(** ** The archive of the successful jobs *)
(* ===================================================================== *)

Module Archive.

Import Bulk.

(** The code points [.] does not match in a regular expression. *)
Definition isLineTerminator (c : code_unit) : bool :=
  ((c =? 10) || (c =? 13) || (c =? 8232) || (c =? 8233))%N.

(** [s.match(/^data:(image\/[a-z]+);base64,(.+)$/)]: the two groups of the
    match. The run [[a-z]+] is the longest one: what follows it has to be
    [;]. *)
Definition matchDataUrl (s : jsstring) : option (jsstring * jsstring) :=
  match stripPrefix (lit "data:image/") s with
  | None => None
  | Some r =>
      let '(sub, r) := spanWhile isLower r in
      if truthy sub then
        match stripPrefix (lit ";base64,") r with
        | None => None
        | Some payload =>
            if truthy payload
               && forallb (fun c => negb (isLineTerminator c)) payload
            then Some (lit "image/" ++ sub, payload)
            else None
        end
      else None
  end.

(** [[a-z0-9]] under the flag [i]: no code unit from 128 on folds into
    ASCII, so these are the ASCII letters and digits. *)
Definition isAlnum (c : code_unit) : bool :=
  isLower c || isUpper c || isDigit c.

(** [.replace(/[^a-z0-9]/gi, '_')] *)
Definition replaceNonAlnum (s : jsstring) : jsstring :=
  map (fun c => if isAlnum c then c else 95%N) s.

(** [match[1].split('/')[1]] *)
Definition extOf (mime : jsstring) : jsstring :=
  match split 47%N mime !! 1%nat with
  | Some e => e
  | None => lit "undefined"
  end.

(** [`image_${index + 1}_${...}.${ext}`] *)
Definition filenameOf (index : nat) (item : BulkItem) (ext : jsstring)
    : jsstring :=
  lit "image_" ++ ofNat (index + 1) ++ lit "_"
    ++ replaceNonAlnum (substring0 15 (prompt item)) ++ lit "." ++ ext.

(** The file the callback of [bulkQueue.forEach] adds for [item], if any:
    its name and its base64 payload. *)
Definition entryOf (index : nat) (item : BulkItem)
    : option (jsstring * jsstring) :=
  if bool_decide (status item = done) && truthy_opt (imageUrl item) then
    match matchDataUrl (default [] (imageUrl item)) with
    | Some (mime, payload) =>
        Some (filenameOf index item (extOf mime), payload)
    | None => None
    end
  else None.

(** [bulkQueue.forEach((item, index) => ...)] from [index] on, on the files
    of the folder and [count]. [folder.file(name, data)] replaces a file of
    the same name. *)
Fixpoint forEachItem (index : nat) (items : list BulkItem)
    (acc : gmap jsstring jsstring * nat) : gmap jsstring jsstring * nat :=
  match items with
  | [] => acc
  | item :: rest =>
      forEachItem (S index) rest
        match entryOf index item with
        | Some (filename, payload) =>
            (<[filename := payload]> (fst acc), S (snd acc))
        | None => acc
        end
  end.

(** The files the callback adds over [items], in the order of the jobs. *)
Fixpoint entriesFrom (index : nat) (items : list BulkItem)
    : list (jsstring * jsstring) :=
  match items with
  | [] => []
  | item :: rest =>
      match entryOf index item with
      | Some e => e :: entriesFrom (S index) rest
      | None => entriesFrom (S index) rest
      end
  end.

(** The jobs the callback adds a file for: the [done] ones whose image is a
    base64 data URL of an image. *)
Definition exportable (item : BulkItem) : bool :=
  bool_decide (status item = done) && truthy_opt (imageUrl item)
  && bool_decide (is_Some (matchDataUrl (default [] (imageUrl item)))).

(** [[A-Za-z0-9_]] *)
Definition isWordChar (c : code_unit) : bool := isAlnum c || (c =? 95)%N.

(** What a call of [downloadBulkZip] ends in: an alert, the download of
    the archive, or a rejection of its promise, when
    [await zip.generateAsync(...)] throws; nothing catches that, and the
    user gets neither a file nor an alert. *)
Inductive ZipResult : Type :=
| Alert (message : jsstring)
| Download (name : jsstring) (files : gmap jsstring jsstring)
| ZipRejected.

(** [downloadBulkZip()], with whether [window.JSZip] is there, whether
    [zip.generateAsync({type: "blob"})] is fulfilled for the files of the
    folder (JSZip decodes the base64 payloads then, and rejects one that is
    not well formed) and the [Date.now()] of the download; [files] are the
    files put into the folder [gemini-bulk-images] of the archive. *)
Definition downloadBulkZip (jszip : bool)
    (generateAsync : gmap jsstring jsstring -> bool) (now : nat)
    (bulkQueue : list BulkItem) : ZipResult :=
  if negb jszip then Alert (lit "JSZip library not loaded.")
  else
    let '(folder, count) := forEachItem 0 bulkQueue (∅, 0%nat) in
    if (0 <? count)%nat then
      if generateAsync folder then
        Download (lit "gemini-bulk-" ++ ofNat now ++ lit ".zip") folder
      else ZipRejected
    else Alert (lit "No successful images to download.").

End Archive.

Import Pipeline History Bulk Archive.

#[local] Open Scope float_scope.

(* ===================================================================== *)
(** ** Readings of the event log *)
(* ===================================================================== *)

(** The rate limiting delays waited, in order. *)
Definition delaysOf (evs : list Event) : list nat :=
  omap (fun e => match e with EvDelay ms => Some ms | _ => None end) evs.

(** The calls of [saveToHistory], in order: the label and the image. *)
Definition savesOf (evs : list Event) : list (jsstring * jsstring) :=
  omap (fun e => match e with EvSave l b => Some (l, b) | _ => None end) evs.

(** The images handed to [applyWatermark], in order, with their job. *)
Definition watermarkCalls (evs : list Event) : list (nat * jsstring) :=
  omap (fun e => match e with EvWatermark i b => Some (i, b) | _ => None end)
    evs.

(** What the history is to receive for a finished job: nothing unless it is
    [done] with an image. *)
Definition saveOfItem (item : BulkItem) : option (jsstring * jsstring) :=
  match status item, imageUrl item with
  | done, Some u => Some (lit "Bulk: " ++ prompt item, u)
  | _, _ => None
  end.


(** The context state a drawing call was issued under. *)
Definition contextOf (op : DrawOp) : Context2D :=
  match op with
  | DrawImage ctx _ _ _ _ => ctx
  | FillText ctx _ _ _ => ctx
  end.


(* ===================================================================== *)
(** ** The calls of the generation API *)
(* ===================================================================== *)

Module Api.

Import Archive.

(** A part of a response: [inlineData] with its [data] and [mimeType], and
    [text]; each may be missing. *)
Record InlineData := {
  data : option jsstring;
  mimeType : option jsstring
}.

Record Part := {
  inlineData : option InlineData;
  text : option jsstring
}.

(** A candidate: [parts] is [candidate.content?.parts], missing when the
    content or its parts are. *)
Record Candidate := {
  parts : option (list Part);
  finishReason : option jsstring
}.

Record Response := {
  candidates : option (list Candidate)
}.

(** A part of a request. *)
Inductive RequestPart : Type :=
| ReqInline (data mimeType : option jsstring)
| ReqText (text : jsstring).

(** The [imageConfig] of a request. *)
Record ImageConfig := {
  cfg_imageSize : option jsstring;
  cfg_aspectRatio : option jsstring
}.

Record Request := {
  model : jsstring;
  contents : list RequestPart;
  safetySettings : list (jsstring * jsstring);
  imageConfig : option ImageConfig
}.

Definition permissiveSafetySettings : list (jsstring * jsstring) :=
  [ (lit "HARM_CATEGORY_HARASSMENT", lit "BLOCK_NONE");
    (lit "HARM_CATEGORY_HATE_SPEECH", lit "BLOCK_NONE");
    (lit "HARM_CATEGORY_SEXUALLY_EXPLICIT", lit "BLOCK_NONE");
    (lit "HARM_CATEGORY_DANGEROUS_CONTENT", lit "BLOCK_NONE");
    (lit "HARM_CATEGORY_CIVIC_INTEGRITY", lit "BLOCK_NONE") ].

(** [handleGenerationError(candidate)]: what it throws, if it throws. *)
Definition handleGenerationError (candidate : Candidate) : option Thrown :=
  let reason := default [] (finishReason candidate) in
  if truthy_opt (finishReason candidate)
     && negb (bool_decide (reason = lit "STOP"))
  then
    Some (Error
            (if bool_decide (reason = lit "IMAGE_OTHER") then
               lit "The model blocked the generation (IMAGE_OTHER). This usually happens with complex image combinations or 'Virtual Try-On' prompts. Try a simpler prompt or use a different photo."
             else if bool_decide (reason = lit "SAFETY") then
               lit "Generation blocked due to safety settings. Try modifying the prompt to be less specific about real people."
             else lit "Generation stopped: " ++ reason))
  else None.

(** [`data:${mime};base64,${part.inlineData.data}`] with
    [mime = part.inlineData.mimeType || 'image/png']. *)
Definition dataUrlOf (d : InlineData) : jsstring :=
  let mime :=
    if truthy_opt (mimeType d) then default [] (mimeType d)
    else lit "image/png" in
  lit "data:" ++ mime ++ lit ";base64," ++ default [] (data d).

(** The [for (const part of candidate.content.parts)] loop: the data URL of
    the first part with inline data. *)
Fixpoint firstImage (ps : list Part) : option jsstring :=
  match ps with
  | [] => None
  | part :: rest =>
      match inlineData part with
      | Some d =>
          if truthy_opt (data d) then Some (dataUrlOf d) else firstImage rest
      | None => firstImage rest
      end
  end.

(** [candidate.content.parts.find(p => p.text)?.text] *)
Fixpoint firstText (ps : list Part) : option jsstring :=
  match ps with
  | [] => None
  | part :: rest =>
      if truthy_opt (text part) then text part else firstText rest
  end.

(** [response.candidates?.[0]] *)
Definition firstCandidate (response : Response) : option Candidate :=
  match candidates response with
  | Some (candidate :: _) => Some candidate
  | _ => None
  end.

(** What every generation function does with the response, from
    [const candidate = response.candidates?.[0]] to its last [throw], whose
    message is [noImage]. *)
Definition imageFromResponse (noImage : jsstring) (response : Response)
    : Settled jsstring :=
  match firstCandidate response with
  | Some candidate =>
      let afterParts :=
        match handleGenerationError candidate with
        | Some e => Rejected e
        | None => Rejected (Error noImage)
        end in
      match parts candidate with
      | Some ps =>
          match firstImage ps with
          | Some url => Fulfilled url
          | None =>
              match firstText ps with
              | Some t => Rejected (Error t)
              | None => afterParts
              end
          end
      | None => afterParts
      end
  | None => Rejected (Error noImage)
  end.

Section WithNetwork.

(** [new GoogleGenAI({apiKey}).models.generateContent(request)] *)
Variable generateContent : jsstring -> Request -> Settled Response.

(** The [await ai.models.generateContent(req)] of a generation function,
    followed by its reading of the response. *)
Definition request (noImage : jsstring) (apiKey : jsstring) (req : Request)
    : Settled jsstring :=
  match generateContent apiKey req with
  | Rejected e => Rejected e
  | Fulfilled response => imageFromResponse noImage response
  end.

(** [generateImage(prompt, apiKey, imageSize, aspectRatio)] *)
Definition generateImage (prompt apiKey imageSize aspectRatio : jsstring)
    : Settled jsstring :=
  request (lit "The model failed to generate an image.") apiKey
    {| model := lit "gemini-3-pro-image-preview";
       contents := [ReqText prompt];
       safetySettings := permissiveSafetySettings;
       imageConfig :=
         Some {| cfg_imageSize := Some imageSize;
                 cfg_aspectRatio := Some aspectRatio |} |}.

(** [generateMultimodalImage(prompt, imageParts, apiKey, aspectRatio)]; an
    image part is its [data] and its [mimeType]. *)
Definition generateMultimodalImage (prompt : jsstring)
    (imageParts : list (option jsstring * option jsstring))
    (apiKey aspectRatio : jsstring) : Settled jsstring :=
  request (lit "The model did not return an image.") apiKey
    {| model := lit "gemini-2.5-flash-image";
       contents :=
         map (fun img => ReqInline (fst img) (snd img)) imageParts
           ++ [ReqText prompt];
       safetySettings := permissiveSafetySettings;
       imageConfig :=
         Some {| cfg_imageSize := None;
                 cfg_aspectRatio := Some aspectRatio |} |}.

(** [editImage(base64Image, prompt, apiKey)] *)
Definition editImage (base64Image prompt apiKey : jsstring)
    : Settled jsstring :=
  match matchDataUrl base64Image with
  | None => Rejected (Error (lit "Invalid image data found in source."))
  | Some (mimeType, base64Data) =>
      request (lit "The model did not return an image.") apiKey
        {| model := lit "gemini-2.5-flash-image";
           contents :=
             [ReqInline (Some base64Data) (Some mimeType); ReqText prompt];
           safetySettings := permissiveSafetySettings;
           imageConfig := None |}
  end.

(** [upscaleImage(base64Image, apiKey, aspectRatio)] *)
Definition upscaleImage (base64Image apiKey aspectRatio : jsstring)
    : Settled jsstring :=
  match matchDataUrl base64Image with
  | None => Rejected (Error (lit "Invalid image data found in source."))
  | Some (mimeType, base64Data) =>
      request (lit "The model did not return an image.") apiKey
        {| model := lit "gemini-3-pro-image-preview";
           contents :=
             [ReqInline (Some base64Data) (Some mimeType);
              ReqText
                (lit "Upscale this image to 4K resolution. Maintain high fidelity, enhance details, and keep the original composition.")];
           safetySettings := permissiveSafetySettings;
           imageConfig :=
             Some {| cfg_imageSize := Some (lit "4K");
                     cfg_aspectRatio := Some aspectRatio |} |}
  end.

(** [remixImage(base64Image, remixPrompt, apiKey, aspectRatio,
    imageSize)] *)
Definition remixImage (base64Image remixPrompt apiKey aspectRatio
    imageSize : jsstring) : Settled jsstring :=
  match matchDataUrl base64Image with
  | None => Rejected (Error (lit "Invalid image data found in source."))
  | Some (mimeType, base64Data) =>
      request (lit "The model did not return an image.") apiKey
        {| model := lit "gemini-3-pro-image-preview";
           contents :=
             [ReqInline (Some base64Data) (Some mimeType);
              ReqText
                (lit "Create a variation of this image based on this description: "
                   ++ remixPrompt)];
           safetySettings := permissiveSafetySettings;
           imageConfig :=
             Some {| cfg_imageSize := Some imageSize;
                     cfg_aspectRatio := Some aspectRatio |} |}
  end.

End WithNetwork.

End Api.


(* ===================================================================== *)
(** ** Video generation *)
(* ===================================================================== *)

Module Video.

Import Archive.

(** A long-running operation of the video API: whether it is [done], and
    [operation.response?.generatedVideos?.[0]?.video?.uri]. *)
Record Operation := {
  op_name : jsstring;
  op_done : bool;
  op_uri : option jsstring
}.

(** The argument of [ai.models.generateVideos]. *)
Record VideoRequest := {
  v_model : jsstring;
  v_prompt : jsstring;
  v_image : option (jsstring * jsstring);
  v_numberOfVideos : nat;
  v_resolution : jsstring;
  v_aspectRatio : jsstring
}.

(** What [fetch] resolves with: [ok], [statusText], and the object URL made
    of its blob. *)
Record Download := {
  dl_ok : bool;
  dl_statusText : jsstring;
  dl_objectUrl : jsstring
}.

(** What happens during a call, in order: the status message, and the waits
    of the polling loop. *)
Inductive VideoEvent : Type :=
| VStatus (message : jsstring)
| VWait (ms : nat)
| VPoll (operation : Operation).

Section WithVideoApi.

Variable generateVideos : jsstring -> VideoRequest -> Settled Operation.
Variable getVideosOperation : jsstring -> Operation -> Settled Operation.
Variable fetch : jsstring -> Settled Download.

(** [while (!operation.done) { wait 5 s; operation = await
    getVideosOperation(operation) }], with a bound on the number of
    rounds: [None] when the bound is reached with the operation still
    running. *)
Fixpoint pollLoop (fuel : nat) (apiKey : jsstring) (operation : Operation)
    (log : list VideoEvent) : option (Settled Operation * list VideoEvent) :=
  if op_done operation then Some (Fulfilled operation, log)
  else
    match fuel with
    | O => None
    | S fuel' =>
        let log := log ++ [VWait 5000; VPoll operation] in
        match getVideosOperation apiKey operation with
        | Rejected e => Some (Rejected e, log)
        | Fulfilled operation' => pollLoop fuel' apiKey operation' log
        end
    end.

(** [generateVideo(prompt, imageBase64, apiKey, aspectRatio, resolution)],
    with the bound of the polling loop. *)
Definition generateVideo (fuel : nat) (prompt : jsstring)
    (imageBase64 : option jsstring) (apiKey aspectRatio resolution : jsstring)
    : option (Settled jsstring * list VideoEvent) :=
  let model :=
    if truthy_opt imageBase64 then lit "veo-3.1-generate-preview"
    else lit "veo-3.1-fast-generate-preview" in
  let safeAspectRatio :=
    if bool_decide (aspectRatio = lit "9:16") then lit "9:16"
    else lit "16:9" in
  let started :=
    if truthy_opt imageBase64 then
      match matchDataUrl (default [] imageBase64) with
      | None => Rejected (Error (lit "Invalid image data."))
      | Some (mimeType, imageBytes) =>
          generateVideos apiKey
            {| v_model := model; v_prompt := prompt;
               v_image := Some (imageBytes, mimeType);
               v_numberOfVideos := 1; v_resolution := resolution;
               v_aspectRatio := safeAspectRatio |}
      end
    else
      generateVideos apiKey
        {| v_model := model; v_prompt := prompt; v_image := None;
           v_numberOfVideos := 1; v_resolution := resolution;
           v_aspectRatio := safeAspectRatio |} in
  match started with
  | Rejected e => Some (Rejected e, [])
  | Fulfilled operation =>
      let log :=
        [VStatus
           (lit "Rendering video frames... (this may take a minute)")] in
      match pollLoop fuel apiKey operation log with
      | None => None
      | Some (Rejected e, log) => Some (Rejected e, log)
      | Some (Fulfilled operation, log) =>
          if truthy_opt (op_uri operation) then
            match fetch (default [] (op_uri operation) ++ lit "&key="
                           ++ apiKey) with
            | Rejected e => Some (Rejected e, log)
            | Fulfilled downloadResponse =>
                if dl_ok downloadResponse then
                  Some (Fulfilled (dl_objectUrl downloadResponse), log)
                else
                  Some (Rejected
                          (Error (lit "Failed to download generated video: "
                                    ++ dl_statusText downloadResponse)),
                        log)
            end
          else
            Some (Rejected
                    (Error
                       (lit "Video generation completed but no URI returned.")),
                  log)
      end
  end.

(** The operation after [n] polls that all succeed, if they do. *)
Fixpoint polled (n : nat) (apiKey : jsstring) (operation : Operation)
    : option Operation :=
  match n with
  | O => Some operation
  | S n' =>
      match getVideosOperation apiKey operation with
      | Rejected _ => None
      | Fulfilled operation' => polled n' apiKey operation'
      end
  end.

End WithVideoApi.

(** The waits of a log, in order. *)
Definition waitsOf (log : list VideoEvent) : list nat :=
  omap (fun e => match e with VWait ms => Some ms | _ => None end) log.

End Video.


(* ===================================================================== *)
(** ** The generate button outside bulk mode *)
(* ===================================================================== *)

Module Handler.

Import Pipeline History Archive Api.

(** The module variables that hold the uploads. *)
Record Uploads := {
  referenceImageBase64 : option jsstring;
  garmentImageBase64 : option jsstring;
  productImageBase64 : option jsstring;
  nailImageBase64s : list jsstring
}.

(** What the page shows once the click is over: the image or the video;
    the status error of a failed validation, which returns before the
    [try]; or, after the [catch] block, no message at all. The [catch]
    hands [error.message] (which an event does not have) to
    [showStatusError], and the [finally] block that follows runs
    [stopLoadingAnimation], whose last statement blanks the status
    element: [BlankedError] keeps the message that was written and
    blanked. *)
Inductive Shown : Type :=
| ShownImage (src : jsstring)
| ShownVideo (src : jsstring)
| ShownError (message : option jsstring)
| BlankedError (message : option jsstring).

Definition messageOf (e : Thrown) : option jsstring :=
  match e with
  | Error m => Some m
  | ErrorEvent => None
  end.

(** [{ data: x.split(',')[1], mimeType: x.split(';')[0].split(':')[1] }] *)
Definition imagePartOf (x : jsstring) : option jsstring * option jsstring :=
  (split 44%N x !! 1%nat,
   match split 59%N x !! 0%nat with
   | Some h => split 58%N h !! 1%nat
   | None => None
   end).

(** The four checks under [// Validation for other modes]: the message of
    the first one that fails. *)
Definition validationError (prompt : jsstring) (u : Uploads)
    (currentMode : jsstring) : option jsstring :=
  if negb (truthy prompt) && negb (truthy_opt (referenceImageBase64 u))
     && negb (truthy_opt (garmentImageBase64 u))
     && negb (truthy_opt (productImageBase64 u))
     && (length (nailImageBase64s u) =? 0)%nat
  then Some (lit "Please enter a prompt or upload an image.")
  else if bool_decide (currentMode = lit "clothing")
          && negb (truthy_opt (garmentImageBase64 u))
  then Some (lit "Please upload a garment image for Clothing Shop Mode.")
  else if (bool_decide (currentMode = lit "product")
           || bool_decide (currentMode = lit "video-shop"))
          && negb (truthy_opt (productImageBase64 u))
  then Some (lit "Please upload a product image for Product Shop Mode.")
  else if bool_decide (currentMode = lit "nail")
          && (length (nailImageBase64s u) =? 0)%nat
  then
    Some (lit "Please upload a hand reference image for Nail Art Mode.")
  else None.

Section Click.

Variable B : Browser.
Variable setItem : list HistoryItem -> SetItemResult.

(** The network at the [k]-th request of the click. *)
Variable net : nat -> jsstring -> Request -> Settled Response.

(** The watermark controls of the page at the [k]-th call of
    [applyWatermark] of the click. *)
Variable controls : nat -> WatermarkControls.

(** [generateVideo(prompt, imageBase64, apiKey, aspectRatio, resolution)] *)
Variable generateVideo :
  jsstring -> option jsstring -> jsstring -> jsstring -> jsstring ->
  Settled jsstring.

Section OneClick.

Variables prompt negativePrompt currentMode : jsstring.
Variable u : Uploads.
Variables apiKey imageSize aspectRatio videoRes : jsstring.

(** [finalPrompt] of the image branch. *)
Definition finalPrompt : jsstring :=
  if truthy negativePrompt then
    prompt ++ lit " . Ensure the image does not contain: " ++ negativePrompt
      ++ lit "."
  else prompt.

(** [finalVideoPrompt] of the video branch. *)
Definition finalVideoPrompt : jsstring :=
  if truthy negativePrompt then
    prompt ++ lit " . Ensure the video does not contain: " ++ negativePrompt
      ++ lit "."
  else prompt.

Definition nailPrompt : jsstring :=
  lit "Professional nail art photography. Apply the design described to the fingernails in the image. Keep the hand pose, skin tone, and fingers natural."
    ++ (if truthy finalPrompt then lit " Design: " ++ finalPrompt
        else lit " Design: Artistic and trendy nail polish pattern.").

(** The [for] loop of the nail art mode from image [i] on, over the images
    still to process, on the stored history: the last generated image, or
    what was thrown. *)
Fixpoint nailLoop (i : nat) (images : list jsstring)
    (lastGeneratedImage : jsstring) (stored : list HistoryItem)
    : Settled jsstring * list HistoryItem :=
  match images with
  | [] => (Fulfilled lastGeneratedImage, stored)
  | currentBase64 :: rest =>
      match generateMultimodalImage (net i) nailPrompt
              [imagePartOf currentBase64] apiKey aspectRatio with
      | Rejected e => (Rejected e, stored)
      | Fulfilled result =>
          match Pipeline.applyWatermark B (controls i) result with
          | Rejected e => (Rejected e, stored)
          | Fulfilled result =>
              if (S i <? length (nailImageBase64s u))%nat then
                let '(r, stored) :=
                  saveToHistory B setItem
                    (lit "Nail Art Bulk " ++ ofNat (i + 1) ++ lit "/"
                       ++ ofNat (length (nailImageBase64s u)))
                    result stored in
                match r with
                | Rejected e => (Rejected e, stored)
                | Fulfilled _ => nailLoop (S i) rest result stored
                end
              else nailLoop (S i) rest result stored
          end
      end
  end.

(** [// Determine Generation Strategy]: the generated image, or what was
    thrown, with the stored history. *)
Definition generateForMode (stored : list HistoryItem)
    : Settled jsstring * list HistoryItem :=
  if bool_decide (currentMode = lit "clothing")
     && truthy_opt (garmentImageBase64 u)
     && truthy_opt (referenceImageBase64 u)
  then
    let inputs :=
      [imagePartOf (default [] (referenceImageBase64 u));
       imagePartOf (default [] (garmentImageBase64 u))] in
    let tryOnPrompt :=
      lit "Fashion photography: model wearing the garment."
        ++ (if truthy finalPrompt then lit " Context: " ++ finalPrompt
            else []) in
    (generateMultimodalImage (net 0) tryOnPrompt inputs apiKey aspectRatio,
     stored)
  else if bool_decide (currentMode = lit "product")
          && truthy_opt (productImageBase64 u)
  then
    if truthy_opt (referenceImageBase64 u) then
      let inputs :=
        [imagePartOf (default [] (productImageBase64 u));
         imagePartOf (default [] (referenceImageBase64 u))] in
      let prodPrompt :=
        lit "Professional product photography. Place the product [Image 1] into the scene [Image 2] naturally."
          ++ (if truthy finalPrompt then lit " " ++ finalPrompt else []) in
      (generateMultimodalImage (net 0) prodPrompt inputs apiKey aspectRatio,
       stored)
    else
      let inputs := [imagePartOf (default [] (productImageBase64 u))] in
      let prodPrompt :=
        lit "Professional product photography of this item."
          ++ (if truthy finalPrompt then lit " Context: " ++ finalPrompt
              else []) in
      (generateMultimodalImage (net 0) prodPrompt inputs apiKey aspectRatio,
       stored)
  else if bool_decide (currentMode = lit "nail")
          && (0 <? length (nailImageBase64s u))%nat
  then nailLoop 0 (nailImageBase64s u) [] stored
  else if truthy_opt (referenceImageBase64 u) then
    let inputs := [imagePartOf (default [] (referenceImageBase64 u))] in
    let refPrompt :=
      if truthy finalPrompt then finalPrompt
      else lit "High quality image variation." in
    (generateMultimodalImage (net 0) refPrompt inputs apiKey aspectRatio,
     stored)
  else (Api.generateImage (net 0) finalPrompt apiKey imageSize aspectRatio,
        stored).

(** [historyPrompt] *)
Definition historyPrompt : jsstring :=
  if bool_decide (currentMode = lit "nail") then lit "Nail Art"
  else if bool_decide (currentMode = lit "product") then lit "Product Shot"
  else if bool_decide (currentMode = lit "clothing") then
    lit "Virtual Try-On"
  else if truthy prompt then prompt
  else lit "Image Generation".

(** The index of the call of [applyWatermark] of the standard flow: the
    nail art loop has made one call per image before it. *)
Definition standardWatermarkCall : nat :=
  if bool_decide (currentMode = lit "nail")
     && (0 <? length (nailImageBase64s u))%nat
  then length (nailImageBase64s u)
  else 0%nat.

(** The image branch of the [try] block, with the [catch] and the
    [finally] block of the handler. The image is put on the page before
    [saveToHistory] is awaited. *)
Definition imageBranch (stored : list HistoryItem)
    : Shown * list HistoryItem :=
  match generateForMode stored with
  | (Rejected e, stored) => (BlankedError (messageOf e), stored)
  | (Fulfilled base64Image, stored) =>
      match Pipeline.applyWatermark B (controls standardWatermarkCall)
              base64Image with
      | Rejected e => (BlankedError (messageOf e), stored)
      | Fulfilled base64Image =>
          let '(r, stored) :=
            saveToHistory B setItem historyPrompt base64Image stored in
          match r with
          | Rejected e => (BlankedError (messageOf e), stored)
          | Fulfilled _ => (ShownImage base64Image, stored)
          end
      end
  end.

(** The video branch of the [try] block, with the [catch] and the
    [finally] block of the handler. *)
Definition videoBranch (stored : list HistoryItem)
    : Shown * list HistoryItem :=
  let generated :=
    if bool_decide (currentMode = lit "video-shop") then
      if negb (truthy_opt (productImageBase64 u)) then
        Rejected (Error (lit "Product image required."))
      else
        generateVideo
          (lit "Cinematic product showcase video. " ++ finalVideoPrompt
             ++ lit ". High production value, professional lighting.")
          (productImageBase64 u) apiKey aspectRatio videoRes
    else generateVideo finalVideoPrompt None apiKey aspectRatio videoRes in
  match generated with
  | Rejected e => (BlankedError (messageOf e), stored)
  | Fulfilled videoUrl => (ShownVideo videoUrl, stored)
  end.

(** The click handler of the generate button from
    [// Validation for other modes] on. *)
Definition otherModes_click (mediaType : jsstring)
    (stored : list HistoryItem) : Shown * list HistoryItem :=
  match validationError prompt u currentMode with
  | Some message => (ShownError (Some message), stored)
  | None =>
      if bool_decide (mediaType = lit "video") then videoBranch stored
      else imageBranch stored
  end.

End OneClick.

(** The history after the saves of the nail art loop for the watermarked
    images [results], the first of which is image [i] of [total]. *)
Fixpoint nailSaves (total i : nat) (results : list jsstring)
    (stored : list HistoryItem) : list HistoryItem :=
  match results with
  | [] => stored
  | result :: rest =>
      nailSaves total (S i) rest
        (snd (saveToHistory B setItem
                (lit "Nail Art Bulk " ++ ofNat (i + 1) ++ lit "/"
                   ++ ofNat total)
                result stored))
  end.

End Click.

End Handler.


(* ===================================================================== *)
(** ** Concrete browsers, pages and batches *)
(* ===================================================================== *)

(** A browser that decodes every data URL of a PNG as a 1000x1000 image and
    nothing else, measures every text as 100 pixels wide, and always hands
    out a 2D context. *)
Definition pngBrowser : Browser := {|
  loadImage := fun s =>
    match stripPrefix (lit "data:image/png;base64,") s with
    | Some _ => Some {| src := s; width := 1000; height := 1000 |}
    | None => None
    end;
  getContext2d := fun _ => true;
  measureText := fun _ _ => 100;
  toDataURL := fun c type _ =>
    lit "data:" ++ type ++ lit ";base64,"
      ++ concat (replicate (length (drawn c)) (lit "AAAA"));
  Number_toString := fun _ => lit "50";
  Math_round := fun x => x
|}.

Definition pngUrl : jsstring := lit "data:image/png;base64,iVBORw0KGgo=".

(** The watermark controls: switched off. *)
Definition wmOff : WatermarkControls := {|
  wm_toggle := Some false;
  wm_type_text := true;
  wm_opacity := 0.5;
  wm_position := lit "bottom-right";
  wm_text := lit "ACME";
  watermarkLogoBase64 := None
|}.

(** Text kind, bottom right, with an empty text field. *)
Definition wmText : WatermarkControls := {|
  wm_toggle := Some true;
  wm_type_text := true;
  wm_opacity := 0.5;
  wm_position := lit "bottom-right";
  wm_text := [];
  watermarkLogoBase64 := None
|}.

(** Logo kind, with an uploaded logo that is not a PNG. *)
Definition wmLogo : WatermarkControls := {|
  wm_toggle := Some true;
  wm_type_text := false;
  wm_opacity := 0.5;
  wm_position := lit "top-left";
  wm_text := [];
  watermarkLogoBase64 := Some (lit "data:text/plain;base64,bm90IGFuIGltYWdl")
|}.

(** A finished job with a PNG, and one whose image is an SVG. *)
Definition catJob : BulkItem := {|
  id := lit "bulk-0-0";
  prompt := lit "a cat!";
  status := done;
  imageUrl := Some (lit "data:image/png;base64,AAAA")
|}.

Definition svgJob : BulkItem := {|
  id := lit "bulk-0-0";
  prompt := lit "a logo";
  status := done;
  imageUrl := Some (lit "data:image/svg+xml;base64,AAAA")
|}.

(** A finished job whose payload is not base64 of a whole number of bytes
    groups. *)
Definition shortJob : BulkItem := {|
  id := lit "bulk-0-0";
  prompt := lit "q";
  status := done;
  imageUrl := Some (lit "data:image/png;base64,QQ")
|}.

(** A JSZip that builds the archive when the length of every payload is a
    multiple of four. *)
Definition strictZip (files : gmap jsstring jsstring) : bool :=
  forallb (fun e => (length e.2 mod 4 =? 0)%nat) (map_to_list files).

(** A browser that decodes nothing. *)
Definition blindBrowser : Browser := {|
  loadImage := fun _ => None;
  getContext2d := fun _ => true;
  measureText := fun _ _ => 0;
  toDataURL := fun _ type _ => lit "data:" ++ type ++ lit ";base64,AAAA";
  Number_toString := fun _ => lit "0";
  Math_round := fun x => x
|}.

(** A storage that takes everything. *)
Definition roomyStorage : list HistoryItem -> SetItemResult := fun _ => Stored.

(** The network of the example of the specification: the call for the
    prompt [b] fails, every other call returns a PNG. *)
Definition failsOnB (i : nat) (prompt apiKey imageSize aspectRatio : jsstring)
    : Settled jsstring :=
  if bool_decide (prompt = lit "b") then
    Rejected (Error (lit "The model failed to generate an image."))
  else Fulfilled pngUrl.

(** A network whose every call returns the same data URL. *)
Definition alwaysReturns (url : jsstring) (i : nat)
    (prompt apiKey imageSize aspectRatio : jsstring) : Settled jsstring :=
  Fulfilled url.

Definition emptyWorld : World :=
  {| bulkQueue := []; history := []; trace := [] |}.

(** The rest of [s] after the first occurrence of [p] in it. *)
Fixpoint afterInfix (p s : jsstring) : option jsstring :=
  match stripPrefix p s with
  | Some r => Some r
  | None =>
      match s with
      | [] => None
      | _ :: s' => afterInfix p s'
      end
  end.

(** Markup that opens a comment and does not close it: what follows it in
    the row is no element. *)
Definition unclosedComment (html : jsstring) : bool :=
  match afterInfix (lit "<!--") html with
  | Some r =>
      match afterInfix (lit "-->") r with
      | Some _ => false
      | None => true
      end
  | None => false
  end.

(** A page with its list, on which the row of every id is found, with its
    status text unless the markup of the row, the prompt included, leaves a
    comment open before it. *)
Definition htmlPage : Page := {|
  bulkList := true;
  getRow := fun rows id =>
    match List.find (fun r => bool_decide (r.1 = id)) rows with
    | None => NoRow
    | Some r =>
        if unclosedComment r.2 then RowWithoutStatusText
        else RowWithStatusText
    end
|}.

(** A clock that does not move during the run. *)
Definition atZero : nat -> nat := fun _ => 0%nat.

(** The run of the example: the prompts [a], [b], [c], no negative prompt,
    the watermark switched off. *)
Definition abcRun : World :=
  (runBulkGeneration pngBrowser roomyStorage htmlPage atZero failsOnB
     (fun _ => Pipeline.applyWatermark pngBrowser wmOff)
     (lit "key") (lit "1:1") (lit "1K") []
     [lit "a"; lit "b"; lit "c"] emptyWorld).2.

(** The same batch with a second prompt that opens a comment. *)
Definition markupRun : RunEnd * World :=
  runBulkGeneration pngBrowser roomyStorage htmlPage atZero failsOnB
    (fun _ => Pipeline.applyWatermark pngBrowser wmOff)
    (lit "key") (lit "1:1") (lit "1K") []
    [lit "b"; lit "<!--"; lit "c"] emptyWorld.

(** Logo kind, with no logo uploaded. *)
Definition wmLogoMissing : WatermarkControls := {|
  wm_toggle := Some true;
  wm_type_text := false;
  wm_opacity := 0.5;
  wm_position := lit "center";
  wm_text := lit "ACME";
  watermarkLogoBase64 := None
|}.


(** A part with a PNG payload and no MIME type, a part with a refusal, and a
    response that holds both, the refusal first, and was stopped for
    safety. *)
Definition pngPart : Api.Part := {|
  Api.inlineData :=
    Some {| Api.data := Some (lit "iVBORw0KGgo="); Api.mimeType := None |};
  Api.text := None
|}.

Definition refusalPart : Api.Part := {|
  Api.inlineData := None;
  Api.text := Some (lit "I cannot draw that.")
|}.

Definition mixedResponse : Api.Response := {|
  Api.candidates :=
    Some [ {| Api.parts := Some [refusalPart; pngPart];
              Api.finishReason := Some (lit "SAFETY") |} ]
|}.

(** A response stopped for safety, with no part. *)
Definition blockedResponse : Api.Response := {|
  Api.candidates :=
    Some [ {| Api.parts := None; Api.finishReason := Some (lit "SAFETY") |} ]
|}.

(** A storage with room for two items. *)
Definition tightStorage (items : list HistoryItem) : SetItemResult :=
  if (length items <=? 2)%nat then Stored else QuotaExceededError.

Definition fiveItems : list HistoryItem :=
  map (fun n => {| h_prompt := ofNat n; h_imageUrl := pngUrl |})
    [1%nat; 2%nat; 3%nat; 4%nat; 5%nat].


(** A video API whose operation [render-<n>] is done after [n] more polls,
    with the video at [https://v/1], and a download that succeeds. *)
Definition countdown (n : nat) : Video.Operation := {|
  Video.op_name := lit "render-" ++ ofNat n;
  Video.op_done := (n =? 0)%nat;
  Video.op_uri := if (n =? 0)%nat then Some (lit "https://v/1") else None
|}.

Definition slowVideos (apiKey : jsstring) (r : Video.VideoRequest)
    : Settled Video.Operation :=
  Fulfilled (countdown 2).

Definition slowPoll (apiKey : jsstring) (o : Video.Operation)
    : Settled Video.Operation :=
  if bool_decide (Video.op_name o = lit "render-2") then Fulfilled (countdown 1)
  else Fulfilled (countdown 0).

Definition goodFetch (url : jsstring) : Settled Video.Download :=
  Fulfilled {| Video.dl_ok := true; Video.dl_statusText := lit "OK";
               Video.dl_objectUrl := lit "blob:1" |}.


(** A response with one PNG, a network that answers every request with it,
    and one whose second request of a click fails. *)
Definition pngResponse : Api.Response := {|
  Api.candidates :=
    Some [ {| Api.parts :=
                Some [ {| Api.inlineData :=
                            Some {| Api.data := Some (lit "iVBORw0KGgo=");
                                    Api.mimeType := Some (lit "image/png") |};
                          Api.text := None |} ];
              Api.finishReason := Some (lit "STOP") |} ]
|}.

Definition pngNet (k : nat) (apiKey : jsstring) (r : Api.Request)
    : Settled Api.Response :=
  Fulfilled pngResponse.

Definition secondFails (k : nat) (apiKey : jsstring) (r : Api.Request)
    : Settled Api.Response :=
  if (k =? 1)%nat then Rejected (Error (lit "quota")) else Fulfilled pngResponse.

(** The uploads of a page with two hand photos, one with three, and one with
    a garment only. *)
Definition twoHands : Handler.Uploads := {|
  Handler.referenceImageBase64 := None;
  Handler.garmentImageBase64 := None;
  Handler.productImageBase64 := None;
  Handler.nailImageBase64s := [pngUrl; pngUrl]
|}.

Definition threeHands : Handler.Uploads := {|
  Handler.referenceImageBase64 := None;
  Handler.garmentImageBase64 := None;
  Handler.productImageBase64 := None;
  Handler.nailImageBase64s := [pngUrl; pngUrl; pngUrl]
|}.

Definition garmentOnly : Handler.Uploads := {|
  Handler.referenceImageBase64 := None;
  Handler.garmentImageBase64 := Some pngUrl;
  Handler.productImageBase64 := None;
  Handler.nailImageBase64s := []
|}.

(** A video generation that always fails. *)
Definition noVideo (prompt : jsstring) (imageBase64 : option jsstring)
    (apiKey aspectRatio resolution : jsstring) : Settled jsstring :=
  Rejected (Error (lit "Video generation completed but no URI returned.")).


(* ===================================================================== *)
(** ** Strings *)
(* ===================================================================== *)

Example trim_example : trim (lit "  a b ") = lit "a b".
Proof. reflexivity. Qed.

Example split_example :
  split 10%N (lit "a" ++ [10%N; 32%N] ++ lit "b") = [lit "a"; lit " b"].
Proof. reflexivity. Qed.

Example ofNat_example : ofNat 12 = lit "12" /\ ofNat 0 = lit "0".
Proof. split; reflexivity. Qed.

(* ===================================================================== *)
(** ** The watermark stage *)
(* ===================================================================== *)

Section WatermarkFacts.

Variable B : Browser.

(** The promise of [applyWatermark] is never rejected. *)
Lemma applyWatermark_fulfilled dom base64Image :
  exists out, Pipeline.applyWatermark B dom base64Image = Fulfilled out.
Proof.
  unfold Pipeline.applyWatermark.
  destruct (wm_toggle dom) as [[|]|]; eauto.
  destruct (loadImage B base64Image) as [img|]; eauto.
  destruct (getContext2d B _); simpl; eauto.
  destruct (wm_type_text dom); eauto.
  destruct (truthy_opt _); eauto.
  destruct (loadImage B _); eauto.
Qed.

(** C6: with the watermark toggle missing from the page or unchecked,
    [applyWatermark] resolves with the very string it was given: no
    decoding, no canvas, no re-encoding. *)
Theorem applyWatermark_off_identity dom base64Image :
  wm_toggle dom = None \/ wm_toggle dom = Some false ->
  Pipeline.applyWatermark B dom base64Image = Fulfilled base64Image.
Proof.
  intros [H | H]; unfold Pipeline.applyWatermark; rewrite H; reflexivity.
Qed.

(** C7: in logo kind with an uploaded logo that fails to decode,
    [applyWatermark] resolves with the input string unchanged, whatever the
    primary image and the other controls are; it does not reject. *)
Theorem applyWatermark_logo_fail_open dom base64Image logo :
  wm_type_text dom = false ->
  watermarkLogoBase64 dom = Some logo ->
  truthy logo = true ->
  loadImage B logo = None ->
  Pipeline.applyWatermark B dom base64Image = Fulfilled base64Image.
Proof.
  intros Hkind Hlogo Hset Hdec. unfold Pipeline.applyWatermark.
  destruct (wm_toggle dom) as [[|]|]; try reflexivity.
  destruct (loadImage B base64Image) as [img|]; try reflexivity.
  destruct (getContext2d B _); simpl; try reflexivity.
  rewrite Hkind, Hlogo. simpl. rewrite Hset, Hdec. reflexivity.
Qed.

(** C10: with the watermark on in text kind and an empty text field, a
    primary image that decodes and a 2D context at hand, the canvas that
    [applyWatermark] encodes is the image with the literal text [Watermark]
    filled over it. *)
Theorem applyWatermark_empty_text_fallback dom base64Image img :
  wm_toggle dom = Some true ->
  wm_type_text dom = true ->
  wm_text dom = [] ->
  loadImage B base64Image = Some img ->
  getContext2d B (createCanvas (width img) (height img)) = true ->
  exists ctx x y,
    Pipeline.applyWatermark B dom base64Image =
      Fulfilled
        (toDataURL B
           (draw (FillText ctx (lit "Watermark") x y)
              (draw (DrawImage freshContext img 0 0 None)
                 (createCanvas (width img) (height img))))
           (lit "image/png") None).
Proof.
  intros Hon Hkind Htext Himg Hctx. unfold Pipeline.applyWatermark.
  rewrite Hon, Himg, Hctx, Hkind. simpl.
  unfold drawTextWatermark. rewrite Htext. simpl truthy. cbv iota.
  destruct (textOrigin _ _ _ _ _ _) as [[x y] ctx].
  eauto.
Qed.

(** C9: on a 1000x1000 image, in text kind with the anchor [bottom-right]
    and a text measured 100 wide under the 50 pixel font, the padding is 30
    and the text is filled at (870, 970), that is at
    (width - textWidth - padding, height - padding), on the [bottom]
    baseline. *)
Theorem applyWatermark_bottom_right_text_origin dom base64Image img :
  wm_toggle dom = Some true ->
  wm_type_text dom = true ->
  wm_position dom = lit "bottom-right" ->
  loadImage B base64Image = Some img ->
  width img = 1000 ->
  height img = 1000 ->
  getContext2d B (createCanvas 1000 1000) = true ->
  measureText B
    (lit "bold " ++ Number_toString B 50 ++ lit "px sans-serif")
    (if truthy (wm_text dom) then wm_text dom else lit "Watermark") = 100 ->
  width img * 0.03 = 30 /\
  width img * 0.05 = 50 /\
  exists ctx text,
    Pipeline.applyWatermark B dom base64Image =
      Fulfilled
        (toDataURL B
           (draw (FillText ctx text 870 970)
              (draw (DrawImage freshContext img 0 0 None)
                 (createCanvas 1000 1000)))
           (lit "image/png") None)
    /\ textBaseline ctx = lit "bottom"
    /\ text = (if truthy (wm_text dom) then wm_text dom else lit "Watermark").
Proof.
  intros Hon Hkind Hpos Himg Hw Hh Hctx Hmeasure.
  rewrite Hw. split; [reflexivity|]. split; [reflexivity|].
  unfold Pipeline.applyWatermark.
  rewrite Hon, Himg, Hw, Hh, Hctx, Hkind. cbv beta iota zeta.
  simpl negb. cbv iota.
  unfold drawTextWatermark. rewrite Hw, Hpos.
  change (1000 * 0.05) with 50.
  change (1000 * 0.03) with 30.
  cbn [font set_textBaseline set_font]. rewrite Hmeasure.
  unfold textOrigin. rewrite Hw, Hh.
  rewrite bool_decide_eq_true_2 by reflexivity.
  change (1000 - 100 - 30) with 870.
  change (1000 - 30) with 970.
  eexists _, _. split; [reflexivity|]. split; reflexivity.
Qed.

End WatermarkFacts.

(** The witnesses of the watermark theorems, in [pngBrowser]. *)

Lemma applyWatermark_off_identity_witness :
  Pipeline.applyWatermark pngBrowser wmOff pngUrl = Fulfilled pngUrl.
Proof.
  apply (applyWatermark_off_identity pngBrowser wmOff pngUrl).
  right. reflexivity.
Defined.

Lemma applyWatermark_logo_fail_open_witness :
  Pipeline.applyWatermark pngBrowser wmLogo pngUrl = Fulfilled pngUrl.
Proof.
  apply (applyWatermark_logo_fail_open pngBrowser wmLogo pngUrl
           (lit "data:text/plain;base64,bm90IGFuIGltYWdl"));
    reflexivity.
Defined.

Lemma applyWatermark_empty_text_fallback_witness :
  exists ctx x y,
    Pipeline.applyWatermark pngBrowser wmText pngUrl =
      Fulfilled
        (toDataURL pngBrowser
           (draw (FillText ctx (lit "Watermark") x y)
              (draw (DrawImage freshContext
                       {| src := pngUrl; width := 1000; height := 1000 |}
                       0 0 None)
                 (createCanvas 1000 1000)))
           (lit "image/png") None).
Proof.
  apply (applyWatermark_empty_text_fallback pngBrowser wmText pngUrl
           {| src := pngUrl; width := 1000; height := 1000 |});
    reflexivity.
Defined.

Lemma applyWatermark_bottom_right_text_origin_witness :
  exists ctx text,
    Pipeline.applyWatermark pngBrowser wmText pngUrl =
      Fulfilled
        (toDataURL pngBrowser
           (draw (FillText ctx text 870 970)
              (draw (DrawImage freshContext
                       {| src := pngUrl; width := 1000; height := 1000 |}
                       0 0 None)
                 (createCanvas 1000 1000)))
           (lit "image/png") None)
    /\ textBaseline ctx = lit "bottom"
    /\ text = lit "Watermark".
Proof.
  apply (applyWatermark_bottom_right_text_origin pngBrowser wmText pngUrl
           {| src := pngUrl; width := 1000; height := 1000 |});
    reflexivity.
Defined.

(* ===================================================================== *)
(** ** The bulk runner: what a run comes to *)
(* ===================================================================== *)

Lemma trimEnd_idemp s : trimEnd (trimEnd s) = trimEnd s.
Proof.
  induction s as [|c s IH]; simpl; [reflexivity|].
  destruct (trimEnd s) as [|x r] eqn:E.
  - destruct (isWhiteSpace c) eqn:Hc; simpl; [reflexivity|].
    rewrite Hc. reflexivity.
  - change (trimEnd (c :: x :: r)) with
      (match trimEnd (x :: r) with
       | [] => if isWhiteSpace c then [] else [c]
       | r' => c :: r'
       end).
    rewrite IH. reflexivity.
Qed.

Lemma trimStart_head s :
  trimStart s = [] \/
  exists c t, trimStart s = c :: t /\ isWhiteSpace c = false.
Proof.
  induction s as [|c s IH]; simpl; [left; reflexivity|].
  destruct (isWhiteSpace c) eqn:Hc; [exact IH|].
  right. eauto.
Qed.

Lemma trimEnd_head c t :
  isWhiteSpace c = false -> exists r, trimEnd (c :: t) = c :: r.
Proof.
  intros Hc. simpl. destruct (trimEnd t); rewrite ?Hc; eauto.
Qed.

(** [trim] is idempotent: the prompt of a job, trimmed by the handler and
    once more by the runner, is the handler's. *)
Lemma trim_idemp s : trim (trim s) = trim s.
Proof.
  unfold trim.
  destruct (trimStart_head s) as [-> | (c & t & -> & Hc)]; [reflexivity|].
  destruct (trimEnd_head c t Hc) as [r Hr].
  rewrite Hr. simpl trimStart. rewrite Hc, <- Hr.
  apply trimEnd_idemp.
Qed.

Lemma bulkPrompts_trimmed promptValue :
  trim <$> bulkPrompts promptValue = bulkPrompts promptValue.
Proof.
  unfold bulkPrompts.
  induction (split 10%N promptValue) as [|l ls IH]; [reflexivity|].
  rewrite fmap_cons, filter_cons.
  destruct (decide _); [|exact IH].
  rewrite fmap_cons, trim_idemp. f_equal. exact IH.
Qed.

Lemma list_alter_as_insert {A} (f : A -> A) (l : list A) i x :
  l !! i = Some x -> alter f i l = <[i := f x]> l.
Proof.
  revert i. induction l as [|y l IH]; intros [|i] H; simplify_eq/=;
    f_equal; auto.
Qed.

Lemma omap_concat {A C} (f : A -> option C) (ls : list (list A)) :
  omap f (concat ls) = concat ((fun l : list A => omap f l) <$> ls).
Proof.
  induction ls as [|l ls IH]; simpl; [reflexivity|].
  rewrite omap_app, IH. reflexivity.
Qed.

Lemma imap_imap {A C D} (f : nat -> C -> D) (g : nat -> A -> C) (l : list A) :
  imap f (imap g l) = imap (fun i x => f i (g i x)) l.
Proof.
  revert f g. induction l as [|x l IH]; intros f g; simpl; [reflexivity|].
  f_equal. apply IH.
Qed.

Lemma concat_imap_singleton {A C} (f : nat -> A -> C) (l : list A) :
  concat (imap (fun i x => [f i x]) l) = imap f l.
Proof.
  revert f. induction l as [|x l IH]; intros f; simpl; [reflexivity|].
  f_equal. apply IH.
Qed.

(** Of blocks of which only the one of index [i] is not empty, the
    concatenation is that block. *)
Lemma concat_imap_select {A C} (f : nat -> A -> list C) (l : list A) i x :
  l !! i = Some x ->
  (forall j y, l !! j = Some y -> j <> i -> f j y = []) ->
  concat (imap f l) = f i x.
Proof.
  revert f i. induction l as [|y l IH]; intros f i Hi Hne; [discriminate|].
  simpl. destruct i as [|i]; simpl in Hi.
  - simplify_eq.
    assert (concat (imap (f ∘ S) l) = []) as ->.
    { clear IH. assert (forall j y, l !! j = Some y -> (f ∘ S) j y = []) as H.
      { intros j z Hj. apply (Hne (S j) z); [exact Hj|lia]. }
      revert H. generalize (f ∘ S). clear. induction l as [|z l IH];
        intros g H; simpl; [reflexivity|].
      rewrite (H 0%nat z eq_refl). simpl. apply IH.
      intros j y Hj. apply (H (S j) y Hj). }
    apply app_nil_r.
  - rewrite (Hne 0%nat y eq_refl) by lia. simpl.
    apply (IH (f ∘ S) i Hi).
    intros j z Hj Hji. apply (Hne (S j) z Hj). lia.
Qed.

(** [saveToHistory] never throws: whatever the image and the storage do,
    its promise is fulfilled. *)
Lemma saveToHistory_fulfilled B setItem label base64 stored :
  fst (saveToHistory B setItem label base64 stored) = Fulfilled tt.
Proof.
  unfold saveToHistory.
  destruct (compressImage B base64 _ _); [|reflexivity].
  destruct (setItem _); reflexivity.
Qed.

Section RunnerFacts.

Variable B : Browser.
Variable setItem : list HistoryItem -> SetItemResult.
Variable P : Page.
Variable now : nat -> nat.
Variable generateImage :
  nat -> jsstring -> jsstring -> jsstring -> jsstring -> Settled jsstring.
Variable applyWatermark : nat -> jsstring -> Settled jsstring.
Variables apiKey aspectRatio imageSize negativePrompt : jsstring.

#[local] Abbreviation processItem :=
  (processItem B setItem P generateImage applyWatermark apiKey aspectRatio
     imageSize negativePrompt).
#[local] Abbreviation processLoop :=
  (processLoop B setItem P generateImage applyWatermark apiKey aspectRatio
     imageSize negativePrompt).
#[local] Abbreviation runBulkGeneration :=
  (runBulkGeneration B setItem P now generateImage applyWatermark apiKey
     aspectRatio imageSize negativePrompt).
#[local] Abbreviation finishedItem :=
  (finishedItem generateImage applyWatermark apiKey aspectRatio imageSize
     negativePrompt).
#[local] Abbreviation jobEvents :=
  (jobEvents generateImage applyWatermark apiKey aspectRatio imageSize
     negativePrompt).
#[local] Abbreviation jobWork :=
  (jobWork generateImage applyWatermark apiKey aspectRatio imageSize
     negativePrompt).
#[local] Abbreviation jobOutcome :=
  (jobOutcome generateImage applyWatermark apiKey aspectRatio imageSize
     negativePrompt).
#[local] Abbreviation loopFrom :=
  (loopFrom P generateImage applyWatermark apiKey aspectRatio imageSize
     negativePrompt).

(** One iteration on a row with its status text: the item of job [i] is
    replaced by its finished form, and the events of the job are appended
    to the log. *)
Lemma processItem_ready rows i w item :
  bulkQueue w !! i = Some item ->
  getRow P rows (id item) = RowWithStatusText ->
  (processItem rows i w).1 = Returned
  /\ bulkQueue (processItem rows i w).2
     = <[i := finishedItem i item]> (bulkQueue w)
  /\ trace (processItem rows i w).2
     = trace w ++ jobEvents (length (bulkQueue w)) i (prompt item).
Proof.
  intros Hi Hrow. unfold Bulk.processItem. rewrite Hi, Hrow.
  split; [reflexivity|]. cbn [snd].
  unfold tryItem, Bulk.finishedItem, Bulk.jobEvents, Bulk.jobWork,
    Bulk.jobOutcome, onError.
  destruct (generateImage i _ apiKey imageSize aspectRatio) as [b|e];
    [destruct (applyWatermark i b) as [out|e]|].
  1: pose proof (saveToHistory_fulfilled B setItem
                   (lit "Bulk: " ++ prompt item) out
                   (history (emit (EvSave (lit "Bulk: " ++ prompt item) out)
                      (setImageUrl i out (setStatus i done
                         (emit (EvWatermark i b)
                            (emit (EvGenerate i
                                     (finalPromptOf negativePrompt
                                        (prompt item)))
                               (setStatus i generating w)))))))) as Hs;
     destruct (saveToHistory _ _ _ _ _) as [r h]; simpl in Hs; subst r.
  all: simpl; rewrite !length_alter;
    destruct (S i <? _)%nat; simpl;
    rewrite !list_alter_alter_eq, (list_alter_as_insert _ _ _ _ Hi),
      <- !app_assoc;
    split; reflexivity.
Qed.

Lemma processItem_skipped rows i w item :
  bulkQueue w !! i = Some item ->
  getRow P rows (id item) = NoRow ->
  processItem rows i w = (Returned, w).
Proof.
  intros Hi Hrow. unfold Bulk.processItem. rewrite Hi, Hrow. reflexivity.
Qed.

Lemma processItem_thrown rows i w item :
  bulkQueue w !! i = Some item ->
  getRow P rows (id item) = RowWithoutStatusText ->
  processItem rows i w = (ThrewAtJob i, setStatus i generating w).
Proof.
  intros Hi Hrow. unfold Bulk.processItem. rewrite Hi, Hrow. reflexivity.
Qed.

(** The loop from job [length pre] on, over the jobs [rest] still to run:
    with fuel for each of them it does what [loopFrom] says, and leaves the
    jobs before them alone. *)
Lemma processLoop_spec rows rest : forall pre w fuel,
  bulkQueue w = pre ++ rest ->
  length rest <= fuel ->
  (processLoop fuel rows (length pre) w).1
  = (loopFrom rows (length pre + length rest) (length pre) rest).1.1
  /\ bulkQueue (processLoop fuel rows (length pre) w).2
     = pre ++ (loopFrom rows (length pre + length rest) (length pre)
                 rest).1.2
  /\ trace (processLoop fuel rows (length pre) w).2
     = trace w
       ++ (loopFrom rows (length pre + length rest) (length pre) rest).2.
Proof.
  induction rest as [|it rest IH]; intros pre w fuel Hq Hf.
  - rewrite app_nil_r in Hq. simpl. rewrite !app_nil_r.
    destruct fuel as [|fuel]; simpl; [auto|].
    rewrite Hq, Nat.ltb_irrefl. auto.
  - destruct fuel as [|fuel]; [simpl in Hf; lia|].
    simpl Bulk.processLoop.
    assert ((length pre <? length (bulkQueue w))%nat = true) as ->.
    { apply Nat.ltb_lt. rewrite Hq, length_app. simpl. lia. }
    assert (bulkQueue w !! length pre = Some it) as Hit.
    { rewrite Hq. apply list_lookup_middle. reflexivity. }
    assert (length (bulkQueue w) = (length pre + length (it :: rest))%nat)
      as Hn.
    { rewrite Hq, length_app. reflexivity. }
    cbn [Bulk.loopFrom].
    destruct (getRow P rows (id it)) eqn:Hrow.
    + rewrite (processItem_skipped rows _ w it Hit Hrow).
      specialize (IH (pre ++ [it]) w fuel).
      rewrite length_app in IH. simpl length in IH.
      replace (length pre + 1)%nat with (S (length pre)) in IH by lia.
      replace (S (length pre) + length rest)%nat
        with (length pre + S (length rest))%nat in IH by lia.
      destruct IH as (IHe & IHq & IHt).
      { rewrite Hq, <- app_assoc. reflexivity. }
      { simpl in Hf. lia. }
      cbn [fst snd length]. rewrite IHe, IHq, IHt, <- app_assoc.
      auto.
    + rewrite (processItem_thrown rows _ w it Hit Hrow).
      cbn [fst snd]. split; [reflexivity|]. split; [|reflexivity].
      simpl. rewrite (list_alter_as_insert _ _ _ _ Hit), Hq.
      replace (length pre) with (length pre + 0)%nat at 1 by lia.
      rewrite insert_app_r. reflexivity.
    + destruct (processItem_ready rows (length pre) w it Hit Hrow)
        as (He' & Hq' & Ht').
      destruct (processItem rows (length pre) w) as [e' w'] eqn:Hstep.
      cbn [fst snd] in He', Hq', Ht'. subst e'.
      specialize (IH (pre ++ [finishedItem (length pre) it]) w' fuel).
      rewrite length_app in IH. simpl length in IH.
      replace (length pre + 1)%nat with (S (length pre)) in IH by lia.
      replace (S (length pre) + length rest)%nat
        with (length pre + S (length rest))%nat in IH by lia.
      destruct IH as (IHe & IHq & IHt).
      { rewrite Hq', Hq, <- app_assoc. simpl.
        replace (length pre) with (length pre + 0)%nat at 1 by lia.
        rewrite insert_app_r. reflexivity. }
      { simpl in Hf. lia. }
      cbn [fst snd length]. rewrite IHe, IHq, IHt, Ht', Hn, <- !app_assoc.
      auto.
Qed.

(** What a run comes to, on every page: how it ends, the queue it leaves
    and the events it adds to the log. *)
Lemma runBulkGeneration_spec prompts w :
  (bulkList P = false /\ prompts <> []
   /\ runBulkGeneration prompts w
      = (ThrewRendering, withQueue (newQueue now prompts) w))
  \/ ((runBulkGeneration prompts w).1
      = (loopFrom (renderedRows (newQueue now prompts)) (length prompts) 0
           (newQueue now prompts)).1.1
      /\ bulkQueue (runBulkGeneration prompts w).2
         = (loopFrom (renderedRows (newQueue now prompts)) (length prompts)
              0 (newQueue now prompts)).1.2
      /\ trace (runBulkGeneration prompts w).2
         = trace w
           ++ (loopFrom (renderedRows (newQueue now prompts))
                 (length prompts) 0 (newQueue now prompts)).2
      /\ (bulkList P = true \/ prompts = [])).
Proof.
  unfold Bulk.runBulkGeneration. cbn [bulkQueue withQueue].
  assert (length (newQueue now prompts) = length prompts) as Hlen
    by apply length_imap.
  destruct (negb (bulkList P) && (0 <? length (newQueue now prompts))%nat)
    eqn:Hthrow.
  - left. apply andb_prop in Hthrow as [Hl Hn].
    apply negb_true_iff in Hl. apply Nat.ltb_lt in Hn.
    split; [exact Hl|]. split; [|reflexivity].
    intros ->. simpl in Hn. lia.
  - right.
    destruct (processLoop_spec (renderedRows (newQueue now prompts))
                (newQueue now prompts) []
                (withQueue (newQueue now prompts) w)
                (length (newQueue now prompts)) eq_refl (le_n _))
      as (He & Hq & Ht).
    simpl in He, Hq, Ht. rewrite Hlen in *.
    split; [exact He|]. split; [exact Hq|]. split; [exact Ht|].
    apply andb_false_iff in Hthrow as [Hl | Hn].
    + left. apply negb_false_iff, Hl.
    + right. apply Nat.ltb_ge in Hn.
      destruct prompts; [reflexivity|simpl in Hn; lia].
Qed.

(** The loop on rows that all have their status text: it returns, every job
    is finished, and the log is the events of the jobs, job after job. *)
Lemma loopFrom_ready rows n rest : forall i,
  Forall (fun item => getRow P rows (id item) = RowWithStatusText) rest ->
  loopFrom rows n i rest
  = (Returned, imap (fun k => finishedItem (i + k)) rest,
     concat (imap (fun k it => jobEvents n (i + k) (prompt it)) rest)).
Proof.
  induction rest as [|it rest IH]; intros i Hall; [reflexivity|].
  apply Forall_cons in Hall as [Hit Hall].
  cbn [Bulk.loopFrom]. rewrite Hit, (IH (S i) Hall). cbn [fst snd].
  rewrite !imap_cons, concat_cons, Nat.add_0_r. f_equal; [f_equal|].
  - f_equal. apply imap_ext. intros k x _. simpl. f_equal. lia.
  - do 2 f_equal. apply imap_ext. intros k x _. simpl. f_equal. lia.
Qed.

Lemma rowsReady_spec q :
  rowsReady P q = true ->
  bulkList P = true
  /\ Forall (fun item =>
               getRow P (renderedRows q) (id item) = RowWithStatusText) q.
Proof.
  unfold rowsReady. intros [Hl Hall]%andb_prop. split; [exact Hl|].
  apply Forall_forall. intros item Hin%list_elem_of_In.
  apply (proj1 (forallb_forall _ _) Hall) in Hin.
  apply bool_decide_eq_true_1 in Hin. exact Hin.
Qed.

(** A run on a page with every row ready: it returns, the queue it leaves
    holds one finished job per element of [prompts], in order, and its log
    grows by the events of the jobs, job after job. *)
Lemma runBulkGeneration_ready prompts w :
  rowsReady P (newQueue now prompts) = true ->
  (runBulkGeneration prompts w).1 = Returned
  /\ bulkQueue (runBulkGeneration prompts w).2
     = imap (fun i p =>
               finishedItem i
                 {| id := lit "bulk-" ++ ofNat (now i) ++ lit "-"
                            ++ ofNat i;
                    prompt := trim p; status := pending;
                    imageUrl := None |})
         prompts
  /\ trace (runBulkGeneration prompts w).2
     = trace w
       ++ concat (imap (fun i p => jobEvents (length prompts) i (trim p))
                    prompts).
Proof.
  intros [Hl Hall]%rowsReady_spec.
  destruct (runBulkGeneration_spec prompts w)
    as [(Hno & _) | (He & Hq & Ht & _)]; [congruence|].
  rewrite (loopFrom_ready _ _ _ 0 Hall) in He, Hq, Ht.
  cbn [fst snd] in He, Hq, Ht. rewrite He, Hq, Ht. unfold newQueue.
  rewrite !imap_imap. repeat split.
Qed.

Lemma finishedItem_status i item :
  status (finishedItem i item)
  = match jobOutcome i (prompt item) with
    | Fulfilled _ => done
    | Rejected _ => error
    end.
Proof. unfold Bulk.finishedItem. destruct (jobOutcome _ _); reflexivity. Qed.

Lemma runBulkGeneration_lookup prompts w i p :
  rowsReady P (newQueue now prompts) = true ->
  prompts !! i = Some p ->
  exists item,
    bulkQueue (runBulkGeneration prompts w).2 !! i = Some item
    /\ prompt item = trim p
    /\ status item = match jobOutcome i (trim p) with
                     | Fulfilled _ => done
                     | Rejected _ => error
                     end.
Proof.
  intros Hready Hp.
  destruct (runBulkGeneration_ready prompts w Hready) as (_ & -> & _).
  rewrite list_lookup_imap, Hp. simpl. eexists. split; [reflexivity|].
  rewrite finishedItem_status. unfold Bulk.finishedItem.
  destruct (jobOutcome _ _) eqn:E; simpl in *; rewrite ?E; auto.
Qed.

Lemma statusWrites_jobEvents n i j p :
  statusWrites i (jobEvents n j p)
  = if decide (i = j) then
      [generating;
       match jobOutcome j p with Fulfilled _ => done | Rejected _ => error end]
    else [].
Proof.
  unfold Bulk.jobEvents, Bulk.jobWork, Bulk.jobOutcome, statusWrites.
  destruct (generateImage j _ apiKey imageSize aspectRatio) as [b|e];
    [destruct (applyWatermark j b) as [out|e]|];
    destruct (S j <? n)%nat; simpl; destruct (decide (i = j)); reflexivity.
Qed.

Lemma generateCalls_jobEvents n j p :
  generateCalls (jobEvents n j p) = [(j, finalPromptOf negativePrompt p)].
Proof.
  unfold Bulk.jobEvents, Bulk.jobWork, generateCalls.
  destruct (generateImage j _ apiKey imageSize aspectRatio) as [b|e];
    [destruct (applyWatermark j b) as [out|e]|];
    destruct (S j <? n)%nat; reflexivity.
Qed.

(** The statuses written to job [i] over the blocks of all the jobs:
    [generating], then the terminal status of the job, and nothing after
    it. *)
Lemma statusWrites_run n prompts i p :
  prompts !! i = Some p ->
  statusWrites i
    (concat (imap (fun j q => jobEvents n j (trim q)) prompts))
  = [generating;
     match jobOutcome i (trim p) with
     | Fulfilled _ => done
     | Rejected _ => error
     end].
Proof.
  intros Hp. unfold statusWrites at 1. rewrite omap_concat, fmap_imap.
  rewrite (concat_imap_select _ prompts i p Hp).
  - unfold compose. fold (statusWrites i (jobEvents n i (trim p))).
    rewrite statusWrites_jobEvents, decide_True by reflexivity. reflexivity.
  - intros j q _ Hne. unfold compose.
    fold (statusWrites i (jobEvents n j (trim q))).
    rewrite statusWrites_jobEvents, decide_False by congruence. reflexivity.
Qed.

Lemma generateCalls_run n prompts :
  generateCalls
    (concat (imap (fun j q => jobEvents n j (trim q)) prompts))
  = imap (fun j q => (j, finalPromptOf negativePrompt (trim q))) prompts.
Proof.
  unfold generateCalls at 1. rewrite omap_concat, fmap_imap.
  rewrite <- (concat_imap_singleton
                (fun j q => (j, finalPromptOf negativePrompt (trim q)))).
  f_equal. apply imap_ext.
  intros j q _. unfold compose. apply generateCalls_jobEvents.
Qed.

Lemma generate_event_in_run n prompts j q :
  prompts !! j = Some q ->
  EvGenerate j (finalPromptOf negativePrompt (trim q))
    ∈ concat (imap (fun j q => jobEvents n j (trim q)) prompts).
Proof.
  intros Hq. apply list_elem_of_In, in_concat.
  exists (jobEvents n j (trim q)). split.
  - apply list_elem_of_In, list_elem_of_lookup. exists j.
    rewrite list_lookup_imap, Hq. reflexivity.
  - unfold Bulk.jobEvents, Bulk.jobWork. simpl. right. left. reflexivity.
Qed.

Lemma statusWrites_app i evs evs' :
  statusWrites i (evs ++ evs') = statusWrites i evs ++ statusWrites i evs'.
Proof. apply omap_app. Qed.

(** The loop from job [i] on writes no status to a job before [i]. *)
Lemma loopFrom_writes_before rows n rest : forall i j,
  j < i -> statusWrites j (loopFrom rows n i rest).2 = [].
Proof.
  induction rest as [|it rest IH]; intros i j Hj; [reflexivity|].
  cbn [Bulk.loopFrom]. destruct (getRow P rows (id it)); cbn [snd].
  - apply IH. lia.
  - unfold statusWrites. simpl. rewrite decide_False by lia. reflexivity.
  - rewrite statusWrites_app, statusWrites_jobEvents, decide_False by lia.
    apply IH. lia.
Qed.

(** What the loop from job [i] on makes of the pending job [i + m]: it
    leaves it alone (the row is not found, or the loop has thrown before),
    or it throws on it after the write of [generating], or it takes it
    through [generating] to its terminal status. *)
Lemma loopFrom_lookup rows n rest : forall i m item,
  rest !! m = Some item ->
  exists item',
    (loopFrom rows n i rest).1.2 !! m = Some item'
    /\ ((statusWrites (i + m) (loopFrom rows n i rest).2 = []
         /\ item' = item)
        \/ (statusWrites (i + m) (loopFrom rows n i rest).2 = [generating]
            /\ status item' = generating)
        \/ (statusWrites (i + m) (loopFrom rows n i rest).2
            = [generating; status item']
            /\ terminal (status item') = true)).
Proof.
  induction rest as [|it rest IH]; intros i m item Hm; [discriminate|].
  cbn [Bulk.loopFrom]. destruct m as [|m]; simpl in Hm.
  - injection Hm as ->. rewrite Nat.add_0_r.
    destruct (getRow P rows (id item)); cbn [fst snd]; eexists;
      (split; [reflexivity|]).
    + left. split; [|reflexivity]. apply loopFrom_writes_before. lia.
    + right. left. split; [|reflexivity].
      unfold statusWrites. simpl. rewrite decide_True by reflexivity.
      reflexivity.
    + right. right.
      rewrite statusWrites_app, statusWrites_jobEvents,
        decide_True by reflexivity.
      rewrite loopFrom_writes_before by lia. rewrite finishedItem_status.
      destruct (jobOutcome i (prompt item)); split; reflexivity.
  - replace (i + S m)%nat with (S i + m)%nat by lia.
    destruct (getRow P rows (id it)); cbn [fst snd].
    + apply (IH (S i) m item Hm).
    + exists item. split; [exact Hm|]. left. split; [|reflexivity].
      unfold statusWrites. simpl. rewrite decide_False by lia. reflexivity.
    + rewrite statusWrites_app, statusWrites_jobEvents,
        decide_False by lia.
      apply (IH (S i) m item Hm).
Qed.

(** When, for job [i], the call of [generateImage] throws, or the call of
    [applyWatermark] on its result does, and every row is on the page with
    its status text, the run marks job [i] [error], and still has one job
    per prompt, calls [generateImage] for every job [j] of the batch, the
    ones after [i] included, and leaves every job in a terminal status that
    depends on its own calls only: [done] exactly when they both
    succeed. *)
Lemma failure_isolation_on_ready_rows prompts w i p :
  rowsReady P (newQueue now prompts) = true ->
  prompts !! i = Some p ->
  (exists e,
     generateImage i (finalPromptOf negativePrompt (trim p)) apiKey
       imageSize aspectRatio = Rejected e)
  \/ (exists b e,
        generateImage i (finalPromptOf negativePrompt (trim p)) apiKey
          imageSize aspectRatio = Fulfilled b
        /\ applyWatermark i b = Rejected e) ->
  exists evs,
    (runBulkGeneration prompts w).1 = Returned
    /\ trace (runBulkGeneration prompts w).2 = trace w ++ evs
    /\ length (bulkQueue (runBulkGeneration prompts w).2) = length prompts
    /\ status <$> bulkQueue (runBulkGeneration prompts w).2 !! i
       = Some error
    /\ forall j q,
         prompts !! j = Some q ->
         EvGenerate j (finalPromptOf negativePrompt (trim q)) ∈ evs
         /\ exists item,
              bulkQueue (runBulkGeneration prompts w).2 !! j = Some item
              /\ terminal (status item) = true
              /\ (status item = done
                  <-> exists out, jobOutcome j (trim q) = Fulfilled out).
Proof.
  intros Hready Hp Hfail.
  destruct (runBulkGeneration_ready prompts w Hready) as (He & Hq & Ht).
  eexists. split; [exact He|]. split; [exact Ht|]. split; [|split].
  - rewrite Hq. apply length_imap.
  - destruct (runBulkGeneration_lookup prompts w i p Hready Hp)
      as (item & -> & _ & Hst).
    simpl. rewrite Hst. unfold Bulk.jobOutcome.
    destruct Hfail as [[e ->] | (b & e & -> & ->)]; reflexivity.
  - intros j q Hj. split; [apply generate_event_in_run, Hj|].
    destruct (runBulkGeneration_lookup prompts w j q Hready Hj)
      as (item & Hitem & _ & Hst).
    exists item. split; [exact Hitem|]. rewrite Hst.
    destruct (jobOutcome j (trim q)) as [out|e]; simpl.
    + split; [reflexivity|]. split; eauto.
    + split; [reflexivity|]. split; [discriminate|].
      intros [out Hout]. discriminate.
Qed.

(** C4: over a run, however it ends, job [i] starts [pending] and the
    statuses written to it follow [Pending -> Generating -> {Done |
    Failed}] and nothing else: no write follows a terminal one, and the job
    ends in the last status written to it, or [pending] when there was
    none. On a page with every row ready the writes are exactly two,
    [generating] and then the terminal status the job ends with. *)
Theorem status_moves_forward_only prompts w i p :
  prompts !! i = Some p ->
  exists evs item,
    trace (runBulkGeneration prompts w).2 = trace w ++ evs
    /\ status <$> newQueue now prompts !! i = Some pending
    /\ bulkQueue (runBulkGeneration prompts w).2 !! i = Some item
    /\ forwardOnly pending (statusWrites i evs) = true
    /\ status item = default pending (last (statusWrites i evs))
    /\ (rowsReady P (newQueue now prompts) = true ->
        statusWrites i evs = [generating; status item]
        /\ terminal (status item) = true).
Proof.
  intros Hp.
  assert (newQueue now prompts !! i
          = Some {| id := lit "bulk-" ++ ofNat (now i) ++ lit "-"
                            ++ ofNat i;
                    prompt := trim p; status := pending;
                    imageUrl := None |}) as Hnew.
  { unfold newQueue. rewrite list_lookup_imap, Hp. reflexivity. }
  assert (status <$> newQueue now prompts !! i = Some pending) as Hpending.
  { rewrite Hnew. reflexivity. }
  destruct (runBulkGeneration_spec prompts w)
    as [(Hno & _ & Hrun) | (_ & Hq & Ht & _)].
  - exists [], {| id := lit "bulk-" ++ ofNat (now i) ++ lit "-" ++ ofNat i;
                  prompt := trim p; status := pending; imageUrl := None |}.
    rewrite Hrun. cbn [snd]. split; [symmetry; apply app_nil_r|].
    split; [exact Hpending|]. split; [exact Hnew|].
    split; [reflexivity|]. split; [reflexivity|].
    intros [Hyes _]%rowsReady_spec. congruence.
  - destruct (loopFrom_lookup (renderedRows (newQueue now prompts))
                (length prompts) (newQueue now prompts) 0 i _ Hnew)
      as (item & Hitem & Hcases).
    simpl Nat.add in Hcases.
    exists (loopFrom (renderedRows (newQueue now prompts)) (length prompts)
              0 (newQueue now prompts)).2, item.
    split; [exact Ht|]. split; [exact Hpending|].
    split; [rewrite Hq; exact Hitem|].
    assert (rowsReady P (newQueue now prompts) = true ->
            statusWrites i
              (loopFrom (renderedRows (newQueue now prompts))
                 (length prompts) 0 (newQueue now prompts)).2
            = [generating; status item]
            /\ terminal (status item) = true) as Hready.
    { intros Hready.
      destruct (runBulkGeneration_ready prompts w Hready) as (_ & _ & Ht').
      rewrite Ht in Ht'. apply app_inv_head in Ht'.
      destruct (runBulkGeneration_lookup prompts w i p Hready Hp)
        as (item0 & Hitem0 & _ & Hst).
      rewrite Hq, Hitem in Hitem0. injection Hitem0 as <-.
      rewrite Ht', (statusWrites_run _ _ _ _ Hp), Hst.
      destruct (jobOutcome i (trim p)); split; reflexivity. }
    assert (forwardOnly pending
              (statusWrites i
                 (loopFrom (renderedRows (newQueue now prompts))
                    (length prompts) 0 (newQueue now prompts)).2) = true
            /\ status item
               = default pending
                   (last (statusWrites i
                            (loopFrom (renderedRows (newQueue now prompts))
                               (length prompts) 0
                               (newQueue now prompts)).2))) as [Hfw Hlast].
    { destruct Hcases as [[-> ->] | [[-> Hst] | [-> Hterm]]].
      - split; reflexivity.
      - split; [reflexivity|exact Hst].
      - split; [|reflexivity].
        destruct (status item); try discriminate; reflexivity. }
    split; [exact Hfw|]. split; [exact Hlast|exact Hready].
Qed.

(** C2: in bulk mode, when no line of the text area is left after trimming
    and dropping the blank ones, the click changes nothing: no queue is
    built and nothing is logged, so [generateImage] is not called; and, an
    API key being there, it ends in the status error that asks for a
    prompt. *)
Theorem empty_bulk_input_rejected promptValue negativeValue key imageSize'
    aspectRatio' w :
  bulkPrompts promptValue = [] ->
  snd (generateButton_click B setItem P now generateImage applyWatermark
         promptValue negativeValue (lit "bulk") key imageSize' aspectRatio' w)
  = w
  /\ (truthy_opt key = true ->
      fst (generateButton_click B setItem P now generateImage applyWatermark
             promptValue negativeValue (lit "bulk") key imageSize'
             aspectRatio' w)
      = StatusError
          (lit "Please enter at least one prompt for bulk generation.")).
Proof.
  intros Hempty. unfold generateButton_click.
  destruct (truthy_opt key); cbn [negb]; cbv iota;
    [|split; [reflexivity|discriminate]].
  rewrite bool_decide_eq_true_2 by reflexivity.
  rewrite Hempty. split; reflexivity.
Qed.

End RunnerFacts.

(** In bulk mode with an API key, at least one line left after trimming and
    dropping the blank ones, and every row on the page with its status
    text, the click runs the batch to its end: the queue holds exactly one
    job per kept line, with that line as its prompt and in the order of the
    text area; [generateImage] is called once per job, in that order; and
    the log is the events of job 0, then those of job 1, and so on, each
    job reaching its terminal status before the next one starts. *)
Lemma bulk_jobs_follow_input_on_ready_rows B setItem P now generateImage
    applyWatermark promptValue negativeValue key imageSize' aspectRatio' w :
  truthy key = true ->
  bulkPrompts promptValue <> [] ->
  rowsReady P (newQueue now (bulkPrompts promptValue)) = true ->
  let prompts := bulkPrompts promptValue in
  let neg := trim negativeValue in
  let w' :=
    (Bulk.runBulkGeneration B setItem P now generateImage applyWatermark
       key aspectRatio' imageSize' neg prompts w).2 in
  generateButton_click B setItem P now generateImage applyWatermark
    promptValue negativeValue (lit "bulk") (Some key) imageSize'
    aspectRatio' w = (BulkRun Returned, w')
  /\ prompt <$> bulkQueue w' = prompts
  /\ exists evs,
       trace w' = trace w ++ evs
       /\ evs = concat (imap (fun i p =>
                                Bulk.jobEvents generateImage applyWatermark
                                  key aspectRatio' imageSize' neg
                                  (length prompts) i p) prompts)
       /\ generateCalls evs
          = imap (fun i p => (i, finalPromptOf neg p)) prompts.
Proof.
  intros Hkey Hne Hready prompts neg w'.
  assert (forall i p, prompts !! i = Some p -> trim p = p) as Htrim.
  { intros i p Hp. pose proof (bulkPrompts_trimmed promptValue) as E.
    apply (f_equal (fun l => l !! i)) in E.
    rewrite list_lookup_fmap in E. fold prompts in E. rewrite Hp in E.
    simpl in E. congruence. }
  destruct (runBulkGeneration_ready B setItem P now generateImage
              applyWatermark key aspectRatio' imageSize' neg prompts w
              Hready) as (He & Hq & Ht).
  fold w' in Hq, Ht.
  assert (concat (imap (fun i p =>
                          Bulk.jobEvents generateImage applyWatermark key
                            aspectRatio' imageSize' neg (length prompts) i
                            (trim p)) prompts)
          = concat (imap (fun i p =>
                            Bulk.jobEvents generateImage applyWatermark key
                              aspectRatio' imageSize' neg (length prompts) i
                              p) prompts)) as Hevs.
  { f_equal. apply imap_ext. intros i p Hp. rewrite (Htrim i p Hp).
    reflexivity. }
  split; [|split].
  - unfold generateButton_click. cbn [truthy_opt]. rewrite Hkey.
    cbn [negb]. cbv iota. rewrite bool_decide_eq_true_2 by reflexivity.
    fold prompts. destruct (length prompts =? 0)%nat eqn:Hz.
    + apply Nat.eqb_eq in Hz. exfalso. apply Hne, nil_length_inv, Hz.
    + cbn [default]. cbv zeta. unfold w', neg, prompts in *.
      change (Datatypes.id key) with key. rewrite He.
      reflexivity.
  - rewrite Hq, fmap_imap.
    rewrite (imap_ext _ (fun _ p => p)).
    + clear. induction prompts as [|p ps IH]; simpl; [reflexivity|].
      f_equal. exact IH.
    + intros i p Hp. unfold compose, Bulk.finishedItem.
      destruct (Bulk.jobOutcome _ _ _ _ _ _ _ _); simpl; eauto.
  - eexists. split; [rewrite Ht, Hevs; reflexivity|].
    split; [reflexivity|].
    rewrite <- Hevs, generateCalls_run. apply imap_ext.
    intros i p Hp. rewrite (Htrim i p Hp). reflexivity.
Qed.

(** The example of the specification: of the prompts [a], [b], [c] with the
    call for [b] failing, the jobs end [done], [error], [done]; the three
    calls are made in order and the delay is kept between the jobs. *)
Example abc_statuses :
  status <$> bulkQueue abcRun = [done; error; done]
  /\ generateCalls (trace abcRun)
     = [(0%nat, lit "a"); (1%nat, lit "b"); (2%nat, lit "c")]
  /\ statusWrites 1 (trace abcRun) = [generating; error]
  /\ omap (fun e => match e with EvDelay ms => Some ms | _ => None end)
       (trace abcRun) = [2000%nat; 2000%nat].
Proof. vm_compute. repeat split. Qed.

(** C1: the batch [b], [<!--], [c] with the call for [b] failing. Job 0
    ends [error], as the claim has it. The prompt of job 1 goes into the
    markup of its row as it is and opens a comment, so the row has no
    [.status-text]: the write to it throws outside the [try], the run
    ends there, job 1 is left [generating], job 2 [pending], and
    [generateImage] is called for job 0 only. *)
Theorem markup_prompt_aborts_the_batch :
  (exists e,
     failsOnB 0 (lit "b") (lit "key") (lit "1K") (lit "1:1") = Rejected e)
  /\ getRow htmlPage (renderedRows (bulkQueue markupRun.2))
       (lit "bulk-0-1") = RowWithoutStatusText
  /\ markupRun.1 = ThrewAtJob 1
  /\ status <$> bulkQueue markupRun.2 = [error; generating; pending]
  /\ generateCalls (trace markupRun.2) = [(0%nat, lit "b")].
Proof.
  split; [eexists; reflexivity|]. vm_compute. repeat split.
Qed.

(** C3: a click in bulk mode on the two lines [<!--] and [b]. The queue
    holds the two jobs, in the order of the lines, but the run throws at
    the first one, whose row has no [.status-text]: no job is processed,
    and [generateImage] is not called. *)
Theorem markup_prompt_leaves_jobs_unprocessed :
  let r :=
    generateButton_click pngBrowser roomyStorage htmlPage atZero failsOnB
      (fun _ => Pipeline.applyWatermark pngBrowser wmOff)
      (lit "<!--" ++ [10%N] ++ lit "b") [] (lit "bulk") (Some (lit "key"))
      (lit "1K") (lit "1:1") emptyWorld in
  bulkPrompts (lit "<!--" ++ [10%N] ++ lit "b") = [lit "<!--"; lit "b"]
  /\ r.1 = BulkRun (ThrewAtJob 0)
  /\ prompt <$> bulkQueue r.2 = [lit "<!--"; lit "b"]
  /\ status <$> bulkQueue r.2 = [generating; pending]
  /\ generateCalls (trace r.2) = [].
Proof. vm_compute. repeat split. Qed.

Lemma status_moves_forward_only_witness :
  exists evs item,
    trace markupRun.2 = trace emptyWorld ++ evs
    /\ status <$> newQueue atZero [lit "b"; lit "<!--"; lit "c"] !! 1%nat
       = Some pending
    /\ bulkQueue markupRun.2 !! 1%nat = Some item
    /\ forwardOnly pending (statusWrites 1 evs) = true
    /\ status item = default pending (last (statusWrites 1 evs))
    /\ (rowsReady htmlPage (newQueue atZero [lit "b"; lit "<!--"; lit "c"])
        = true ->
        statusWrites 1 evs = [generating; status item]
        /\ terminal (status item) = true).
Proof.
  apply (status_moves_forward_only pngBrowser roomyStorage htmlPage atZero
           failsOnB (fun _ => Pipeline.applyWatermark pngBrowser wmOff)
           (lit "key") (lit "1:1") (lit "1K") []
           [lit "b"; lit "<!--"; lit "c"] emptyWorld 1 (lit "<!--")).
  reflexivity.
Defined.

Lemma empty_bulk_input_rejected_witness :
  snd (generateButton_click pngBrowser roomyStorage htmlPage atZero failsOnB
         (fun _ => Pipeline.applyWatermark pngBrowser wmOff)
         (lit "  " ++ [10%N; 9%N; 10%N]) [] (lit "bulk") (Some (lit "key"))
         (lit "1K") (lit "1:1") emptyWorld)
  = emptyWorld
  /\ (truthy_opt (Some (lit "key")) = true ->
      fst (generateButton_click pngBrowser roomyStorage htmlPage atZero
             failsOnB (fun _ => Pipeline.applyWatermark pngBrowser wmOff)
             (lit "  " ++ [10%N; 9%N; 10%N]) [] (lit "bulk")
             (Some (lit "key")) (lit "1K") (lit "1:1") emptyWorld)
      = StatusError
          (lit "Please enter at least one prompt for bulk generation.")).
Proof.
  apply (empty_bulk_input_rejected pngBrowser roomyStorage htmlPage atZero
           failsOnB (fun _ => Pipeline.applyWatermark pngBrowser wmOff)
           (lit "  " ++ [10%N; 9%N; 10%N]) [] (Some (lit "key"))
           (lit "1K") (lit "1:1") emptyWorld).
  reflexivity.
Defined.

(* ===================================================================== *)
(** ** Decode failures *)
(* ===================================================================== *)

Lemma runBulkGeneration_lookup_done B setItem P now generateImage
    applyWatermark apiKey aspectRatio imageSize negativePrompt prompts w i p
    out :
  rowsReady P (newQueue now prompts) = true ->
  prompts !! i = Some p ->
  jobOutcome generateImage applyWatermark apiKey aspectRatio imageSize
    negativePrompt i (trim p) = Fulfilled out ->
  exists item,
    bulkQueue (runBulkGeneration B setItem P now generateImage
                 applyWatermark apiKey aspectRatio imageSize negativePrompt
                 prompts w).2 !! i
    = Some item
    /\ status item = done /\ imageUrl item = Some out.
Proof.
  intros Hready Hp Hout.
  destruct (runBulkGeneration_ready B setItem P now generateImage
              applyWatermark apiKey aspectRatio imageSize negativePrompt
              prompts w Hready) as (_ & -> & _).
  rewrite list_lookup_imap, Hp. simpl. eexists. split; [reflexivity|].
  unfold finishedItem. simpl. rewrite Hout. split; reflexivity.
Qed.

Lemma applyWatermark_undecodable B dom base64 :
  loadImage B base64 = None ->
  Pipeline.applyWatermark B dom base64 = Fulfilled base64.
Proof.
  intros H. unfold Pipeline.applyWatermark. rewrite H.
  destruct (wm_toggle dom) as [[|]|]; reflexivity.
Qed.

(** C8, as the code has it: on an input that does not decode,
    [compressImage] rejects, with the event of [onerror]; [applyWatermark]
    does not: it resolves with the input unchanged, whatever the watermark
    controls are, and a job of the bulk runner whose generated image does
    not decode therefore ends [done], with that image, in every run that
    finds the rows of its jobs on the page with their status text. *)
Theorem decode_failure_policy B dom base64 maxWidth quality :
  loadImage B base64 = None ->
  compressImage B base64 maxWidth quality = Rejected ErrorEvent
  /\ Pipeline.applyWatermark B dom base64 = Fulfilled base64
  /\ forall setItem P now generateImage (controls : nat -> WatermarkControls)
        apiKey aspectRatio imageSize negativePrompt prompts w i p,
       rowsReady P (newQueue now prompts) = true ->
       prompts !! i = Some p ->
       generateImage i (finalPromptOf negativePrompt (trim p)) apiKey
         imageSize aspectRatio = Fulfilled base64 ->
       exists item,
         bulkQueue
           (runBulkGeneration B setItem P now generateImage
              (fun j => Pipeline.applyWatermark B (controls j))
              apiKey aspectRatio imageSize negativePrompt prompts w).2 !! i
         = Some item
         /\ status item = done /\ imageUrl item = Some base64.
Proof.
  intros Hdec. split; [|split].
  - unfold compressImage. rewrite Hdec. reflexivity.
  - apply applyWatermark_undecodable, Hdec.
  - intros setItem P now generateImage controls apiKey aspectRatio imageSize
      negativePrompt prompts w i p Hready Hp Hgen.
    apply (runBulkGeneration_lookup_done _ _ _ _ _ _ _ _ _ _ _ _ _ p);
      [exact Hready|exact Hp|].
    unfold jobOutcome. rewrite Hgen.
    apply applyWatermark_undecodable, Hdec.
Qed.

Lemma decode_failure_policy_witness :
  compressImage blindBrowser (lit "data:image/png;base64,AAAA") 800 0.7
  = Rejected ErrorEvent
  /\ Pipeline.applyWatermark blindBrowser wmText
       (lit "data:image/png;base64,AAAA")
     = Fulfilled (lit "data:image/png;base64,AAAA").
Proof.
  destruct (decode_failure_policy blindBrowser wmText
              (lit "data:image/png;base64,AAAA") 800 0.7) as (H1 & H2 & _);
    [reflexivity|].
  split; assumption.
Defined.

(** C8 as stated fails: with the watermark on, the stage is handed a string
    that does not decode, and it neither rejects nor changes it; the job of
    the runner that got this string from [generateImage] ends [done]. *)
Lemma undecodable_primary_image_is_swallowed :
  loadImage blindBrowser (lit "data:image/png;base64,AAAA") = None
  /\ ~ (exists e,
          Pipeline.applyWatermark blindBrowser wmText
            (lit "data:image/png;base64,AAAA") = Rejected e)
  /\ status
       <$> bulkQueue
             (runBulkGeneration blindBrowser roomyStorage htmlPage atZero
                (alwaysReturns (lit "data:image/png;base64,AAAA"))
                (fun _ => Pipeline.applyWatermark blindBrowser wmText)
                (lit "key") (lit "1:1") (lit "1K") [] [lit "a"]
                emptyWorld).2
     = [done].
Proof.
  split; [reflexivity|]. split; [|reflexivity].
  intros [e He]. discriminate He.
Qed.

(* ===================================================================== *)
(** ** The archive: file names *)
(* ===================================================================== *)

Lemma lit_underscore : lit "_" = [95%N].
Proof. reflexivity. Qed.

Lemma lit_dot : lit "." = [46%N].
Proof. reflexivity. Qed.

Lemma forallb_weaken (P Q : code_unit -> bool) (s : jsstring) :
  (forall c, P c = true -> Q c = true) ->
  forallb P s = true -> forallb Q s = true.
Proof.
  intros HPQ. induction s as [|c s IH]; simpl; [reflexivity|].
  intros [Hc Hs]%andb_prop. rewrite (HPQ c Hc), (IH Hs). reflexivity.
Qed.

Lemma digits_isDigit d : forallb isDigit (digits d) = true.
Proof. induction d; simpl; auto. Qed.

Lemma digits_inj d : forall d', digits d = digits d' -> d = d'.
Proof.
  induction d; intros [] H; simpl in H; try discriminate H;
    try reflexivity; injection H as H; f_equal; auto.
Qed.

Lemma ofNat_inj a b : ofNat a = ofNat b -> a = b.
Proof.
  intros H%digits_inj. apply (f_equal N.of_uint) in H.
  rewrite !DecimalN.Unsigned.of_to in H. lia.
Qed.

(** Two strings that agree and are each cut at the first code unit outside
    a class have the same part before the cut. *)
Lemma app_delim_inj (P : code_unit -> bool) x (l1 : jsstring) :
  forall l2 r1 r2,
    forallb P l1 = true -> forallb P l2 = true -> P x = false ->
    l1 ++ x :: r1 = l2 ++ x :: r2 -> l1 = l2.
Proof.
  induction l1 as [|a l1 IH]; intros [|b l2] r1 r2 H1 H2 Hx H; simpl in *.
  - reflexivity.
  - injection H as Hb _. apply andb_prop in H2 as [H2 _]. congruence.
  - injection H as Ha _. apply andb_prop in H1 as [H1 _]. congruence.
  - injection H as Hab H. apply andb_prop in H1 as [_ H1].
    apply andb_prop in H2 as [_ H2]. f_equal; eauto.
Qed.

(** The name of a file tells the index of its job. *)
Lemma filenameOf_inj i j item item' ext ext' :
  filenameOf i item ext = filenameOf j item' ext' -> i = j.
Proof.
  unfold filenameOf. intros H. apply app_inv_head in H.
  rewrite lit_underscore in H. simpl in H.
  apply (app_delim_inj isDigit) in H.
  - apply ofNat_inj in H. lia.
  - apply digits_isDigit.
  - apply digits_isDigit.
  - reflexivity.
Qed.

Lemma replaceNonAlnum_wordChars s :
  forallb isWordChar (replaceNonAlnum s) = true.
Proof.
  induction s as [|c s IH]; simpl; [reflexivity|].
  rewrite IH, andb_true_r. unfold isWordChar.
  destruct (isAlnum c) eqn:E; [rewrite E|]; reflexivity.
Qed.

(** The part of a file name before the dot of the extension is made of
    letters, digits and underscores. *)
Lemma filename_stem_wordChars i s :
  forallb isWordChar
    (lit "image_" ++ ofNat (i + 1) ++ lit "_" ++ replaceNonAlnum s) = true.
Proof.
  rewrite !forallb_app, replaceNonAlnum_wordChars.
  rewrite (forallb_weaken isDigit isWordChar (ofNat (i + 1)));
    [reflexivity| |apply digits_isDigit].
  intros c Hc. unfold isWordChar, isAlnum. rewrite Hc.
  destruct (isLower c), (isUpper c); reflexivity.
Qed.

Lemma stripPrefix_Some p : forall s r, stripPrefix p s = Some r -> s = p ++ r.
Proof.
  induction p as [|a p IH]; intros [|b s] r H; simpl in *; try congruence.
  destruct (a =? b)%N eqn:E; [|discriminate].
  apply N.eqb_eq in E. subst b. simpl. f_equal. auto.
Qed.

Lemma spanWhile_spec f s : forall a b,
  spanWhile f s = (a, b) -> s = a ++ b /\ forallb f a = true.
Proof.
  induction s as [|c s IH]; intros a b H; simpl in H.
  - injection H as <- <-. split; reflexivity.
  - destruct (f c) eqn:E.
    + destruct (spanWhile f s) as [a' b']. injection H as <- <-.
      destruct (IH a' b' eq_refl) as [-> Ha]. simpl. rewrite E, Ha.
      split; reflexivity.
    + injection H as <- <-. split; reflexivity.
Qed.

Lemma split_app_sep sep (a : jsstring) : forall b,
  forallb (fun c => negb (c =? sep)%N) a = true ->
  split sep (a ++ sep :: b) = a :: split sep b.
Proof.
  induction a as [|c a IH]; intros b Ha; simpl in *.
  - rewrite N.eqb_refl. reflexivity.
  - apply andb_prop in Ha as [Hc Ha]. apply negb_true_iff in Hc.
    rewrite Hc, (IH b Ha). reflexivity.
Qed.

Lemma split_no_sep sep (a : jsstring) :
  forallb (fun c => negb (c =? sep)%N) a = true -> split sep a = [a].
Proof.
  induction a as [|c a IH]; intros Ha; simpl in *; [reflexivity|].
  apply andb_prop in Ha as [Hc Ha]. apply negb_true_iff in Hc.
  rewrite Hc, (IH Ha). reflexivity.
Qed.

(** What a match of the data URL pattern tells: the URL is
    [data:image/<sub>;base64,<payload>] with [sub] in [[a-z]+] and a
    payload that is not empty, and the extension taken from it is [sub]. *)
Lemma matchDataUrl_Some url mime payload :
  matchDataUrl url = Some (mime, payload) ->
  exists sub,
    url = lit "data:image/" ++ sub ++ lit ";base64," ++ payload
    /\ mime = lit "image/" ++ sub
    /\ extOf mime = sub
    /\ forallb isLower sub = true
    /\ sub <> [] /\ payload <> [].
Proof.
  unfold matchDataUrl. intros H.
  destruct (stripPrefix (lit "data:image/") url) as [r|] eqn:E1;
    [|discriminate].
  apply stripPrefix_Some in E1.
  destruct (spanWhile isLower r) as [sub r'] eqn:E2.
  apply spanWhile_spec in E2 as [-> Hsub].
  destruct sub as [|c sub]; [discriminate|]. simpl truthy in H. cbv iota in H.
  destruct (stripPrefix (lit ";base64,") r') as [pl|] eqn:E3; [|discriminate].
  apply stripPrefix_Some in E3.
  destruct pl as [|d pl]; [discriminate|].
  destruct (truthy (d :: pl) && _); [|discriminate].
  injection H as <- <-. exists (c :: sub). subst.
  repeat split; try discriminate; [|exact Hsub].
  unfold extOf.
  change (split 47%N _)
    with (split 47%N (lit "image" ++ 47%N :: c :: sub)).
  rewrite split_app_sep by reflexivity.
  rewrite split_no_sep; [reflexivity|].
  revert Hsub. apply forallb_weaken. intros x Hx. unfold isLower in Hx.
  apply andb_prop in Hx as [Hx _]. apply N.leb_le in Hx.
  apply negb_true_iff, N.eqb_neq. lia.
Qed.

(* ===================================================================== *)
(** ** The archive: its files *)
(* ===================================================================== *)

Lemma entryOf_Some index item name payload :
  entryOf index item = Some (name, payload) ->
  status item = done
  /\ exists url mime,
       imageUrl item = Some url
       /\ matchDataUrl url = Some (mime, payload)
       /\ name = filenameOf index item (extOf mime).
Proof.
  unfold entryOf. intros H.
  destruct (bool_decide (status item = done)) eqn:Hd; [|discriminate].
  apply bool_decide_eq_true_1 in Hd.
  destruct (imageUrl item) as [url|]; [|discriminate]. simpl in H.
  destruct (truthy url); [|discriminate]. simpl in H.
  destruct (matchDataUrl url) as [[mime pl]|] eqn:E; [|discriminate].
  injection H as <- <-. eauto 10.
Qed.

Lemma entryOf_exportable index item :
  is_Some (entryOf index item) <-> exportable item = true.
Proof.
  unfold entryOf, exportable.
  destruct (bool_decide (status item = done)); simpl;
    [|split; [intros [? ?]|]; discriminate].
  destruct (truthy_opt (imageUrl item)); simpl;
    [|split; [intros [? ?]|]; discriminate].
  destruct (matchDataUrl _) as [[mime pl]|].
  - rewrite bool_decide_eq_true_2 by eauto. split; eauto.
  - rewrite bool_decide_eq_false_2 by (intros [? ?]; discriminate).
    split; [intros [? ?]|]; discriminate.
Qed.

Lemma forEachItem_spec items : forall index m c,
  forEachItem index items (m, c)
  = (foldl (fun m e => <[e.1 := e.2]> m) m (entriesFrom index items),
     (c + length (entriesFrom index items))%nat).
Proof.
  induction items as [|item rest IH]; intros index m c; simpl.
  - rewrite Nat.add_0_r. reflexivity.
  - destruct (entryOf index item) as [[name payload]|]; simpl; rewrite IH;
      f_equal; lia.
Qed.

Lemma entriesFrom_elem items : forall index e,
  e ∈ entriesFrom index items ->
  exists i item, items !! i = Some item /\ entryOf (index + i) item = Some e.
Proof.
  induction items as [|item rest IH]; intros index e H; simpl in H.
  - apply elem_of_nil in H. contradiction.
  - assert (e ∈ entriesFrom (S index) rest ->
            exists i it, (item :: rest) !! i = Some it
                         /\ entryOf (index + i) it = Some e) as Hrest.
    { intros (i & it & Hi & He)%IH. exists (S i), it. split; [exact Hi|].
      rewrite <- He. f_equal. lia. }
    destruct (entryOf index item) as [e0|] eqn:E; [|auto].
    apply elem_of_cons in H as [-> | H]; [|auto].
    exists 0%nat, item. rewrite Nat.add_0_r. auto.
Qed.

Lemma entriesFrom_complete items : forall index i item e,
  items !! i = Some item ->
  entryOf (index + i) item = Some e ->
  e ∈ entriesFrom index items.
Proof.
  induction items as [|it rest IH]; intros index [|i] item e Hi He;
    simpl in *; try discriminate.
  - injection Hi as ->. rewrite Nat.add_0_r in He. rewrite He.
    apply list_elem_of_here.
  - assert (e ∈ entriesFrom (S index) rest) as H.
    { apply (IH (S index) i item e Hi). rewrite <- He. f_equal. lia. }
    destruct (entryOf index it); [apply list_elem_of_further|]; exact H.
Qed.

Lemma entriesFrom_length items : forall index,
  length (entriesFrom index items) = length (List.filter exportable items).
Proof.
  induction items as [|item rest IH]; intros index; simpl; [reflexivity|].
  pose proof (entryOf_exportable index item) as Hx.
  destruct (entryOf index item) as [e|]; destruct (exportable item).
  - simpl. f_equal. apply IH.
  - destruct Hx as [Hx _]. discriminate Hx. eauto.
  - destruct Hx as [_ [? Hx]]; [reflexivity|discriminate].
  - apply IH.
Qed.

(** No two files of a batch have the same name. *)
Lemma entriesFrom_NoDup items : forall index,
  NoDup (entriesFrom index items).*1.
Proof.
  induction items as [|item rest IH]; intros index; simpl; [constructor|].
  destruct (entryOf index item) as [[name payload]|] eqn:E; [|apply IH].
  simpl. constructor; [|apply IH].
  intros ([name' payload'] & Hn & Hin)%list_elem_of_fmap. simpl in Hn.
  subst name'.
  apply entriesFrom_elem in Hin as (i & it & _ & He).
  apply entryOf_Some in E as (_ & ? & ? & _ & _ & ->).
  apply entryOf_Some in He as (_ & ? & ? & _ & _ & Hname).
  apply filenameOf_inj in Hname. lia.
Qed.

Section FolderFacts.

Implicit Types (m : gmap jsstring jsstring) (es : list (jsstring * jsstring)).

#[local] Abbreviation addFile :=
  (fun (m : gmap jsstring jsstring) (e : jsstring * jsstring) =>
     <[e.1 := e.2]> m).

Lemma addFiles_lookup_other es : forall m k,
  k ∉ es.*1 -> foldl addFile m es !! k = m !! k.
Proof.
  induction es as [|[k0 v0] es IH]; intros m k Hk; simpl; [reflexivity|].
  rewrite fmap_cons in Hk. apply not_elem_of_cons in Hk as [Hne Hk].
  rewrite (IH _ _ Hk). apply lookup_insert_ne. simpl in *. congruence.
Qed.

Lemma addFiles_lookup es : forall m k v,
  NoDup es.*1 -> (k, v) ∈ es -> foldl addFile m es !! k = Some v.
Proof.
  induction es as [|[k0 v0] es IH]; intros m k v Hnd Hin.
  - apply elem_of_nil in Hin. contradiction.
  - rewrite fmap_cons in Hnd. apply NoDup_cons in Hnd as [Hk0 Hnd].
    simpl. apply elem_of_cons in Hin as [Heq | Hin].
    + injection Heq as -> ->. rewrite (addFiles_lookup_other _ _ _ Hk0).
      apply lookup_insert_eq.
    + apply (IH _ _ _ Hnd Hin).
Qed.

Lemma addFiles_lookup_inv es : forall m k v,
  foldl addFile m es !! k = Some v -> m !! k = Some v \/ (k, v) ∈ es.
Proof.
  induction es as [|[k0 v0] es IH]; intros m k v H; simpl in H; [auto|].
  apply IH in H as [H | H].
  - apply lookup_insert_Some in H as [[-> ->] | [_ H]]; [right|left; exact H].
    apply list_elem_of_here.
  - right. apply list_elem_of_further, H.
Qed.

Lemma addFiles_size es : forall m,
  NoDup es.*1 ->
  (forall k, k ∈ es.*1 -> m !! k = None) ->
  size (foldl addFile m es) = (size m + length es)%nat.
Proof.
  induction es as [|[k0 v0] es IH]; intros m Hnd Hfresh; simpl; [lia|].
  rewrite fmap_cons in Hnd, Hfresh. apply NoDup_cons in Hnd as [Hk0 Hnd].
  rewrite IH.
  - rewrite map_size_insert_None; [lia|]. apply Hfresh, list_elem_of_here.
  - exact Hnd.
  - intros k Hk. rewrite lookup_insert_ne.
    + apply Hfresh, list_elem_of_further, Hk.
    + simpl. intros <-. contradiction.
Qed.

End FolderFacts.

Lemma entryOf_complete index item url mime payload :
  status item = done ->
  imageUrl item = Some url ->
  matchDataUrl url = Some (mime, payload) ->
  entryOf index item = Some (filenameOf index item (extOf mime), payload).
Proof.
  intros Hd Hu Hm. unfold entryOf. rewrite Hu, bool_decide_eq_true_2 by auto.
  simpl. destruct url as [|c url]; [discriminate Hm|]. simpl truthy.
  cbv iota. rewrite Hm. reflexivity.
Qed.

Lemma filenameOf_stem index item ext :
  filenameOf index item ext
  = (lit "image_" ++ ofNat (index + 1) ++ lit "_"
       ++ replaceNonAlnum (substring0 15 (prompt item))) ++ 46%N :: ext.
Proof.
  unfold filenameOf. rewrite lit_dot, <- !app_assoc. reflexivity.
Qed.

Lemma no_done_no_exportable queue :
  (forall item, item ∈ queue -> status item <> done) ->
  List.filter exportable queue = [].
Proof.
  induction queue as [|item rest IH]; intros H; simpl; [reflexivity|].
  unfold exportable at 1.
  rewrite bool_decide_eq_false_2 by (apply H, list_elem_of_here). simpl.
  apply IH. intros it Hit. apply H, list_elem_of_further, Hit.
Qed.

(** C5, as the code has it, with JSZip loaded. A job is exported when it is
    [done] and its image is a data URL [data:image/<ext>;base64,<payload>]
    with [ext] in [[a-z]+] and a payload that is not empty and holds no
    line terminator. Without such a job, in particular with no job [done],
    the user is told that there is nothing to download. With one, the
    folder holds exactly one file per exported job (so one per [done] job
    when they are all exported), and the archive of these files is what is
    downloaded when JSZip builds it; when it does not, the call rejects.
    The folder holds the payload of job [i] under the name
    [image_<i+1>_<portion>.<ext>]; what precedes the dot is made of
    characters of [[A-Za-z0-9_]], the extension of lowercase letters; no
    two jobs share a name; and the portion is the first 15 code units of the
    prompt, each one outside [[A-Za-z0-9]] replaced by an underscore. *)
Theorem downloadBulkZip_archive generateAsync now queue :
  ((forall item, item ∈ queue -> status item <> done) ->
   downloadBulkZip true generateAsync now queue
   = Alert (lit "No successful images to download."))
  /\ (List.filter exportable queue = [] ->
      downloadBulkZip true generateAsync now queue
      = Alert (lit "No successful images to download."))
  /\ (List.filter exportable queue <> [] ->
      exists files,
        downloadBulkZip true generateAsync now queue
        = (if generateAsync files then
             Download (lit "gemini-bulk-" ++ ofNat now ++ lit ".zip") files
           else ZipRejected)
        /\ size files = length (List.filter exportable queue)
        /\ ((forall item,
               item ∈ queue -> status item = done ->
               exportable item = true) ->
            size files
            = length (List.filter
                        (fun item => bool_decide (status item = done)) queue))
        /\ (forall i item url mime payload,
              queue !! i = Some item ->
              status item = done ->
              imageUrl item = Some url ->
              matchDataUrl url = Some (mime, payload) ->
              files !! filenameOf i item (extOf mime) = Some payload)
        /\ (forall name payload,
              files !! name = Some payload ->
              exists i item ext,
                queue !! i = Some item
                /\ status item = done
                /\ name = filenameOf i item ext
                /\ name
                   = (lit "image_" ++ ofNat (i + 1) ++ lit "_"
                        ++ replaceNonAlnum (substring0 15 (prompt item)))
                     ++ 46%N :: ext
                /\ forallb isWordChar
                     (lit "image_" ++ ofNat (i + 1) ++ lit "_"
                        ++ replaceNonAlnum (substring0 15 (prompt item)))
                   = true
                /\ forallb isLower ext = true
                /\ ext <> []))
  /\ (forall i j item item' ext ext',
        filenameOf i item ext = filenameOf j item' ext' -> i = j)
  /\ (forall s,
        length (replaceNonAlnum (substring0 15 s)) = min 15 (length s)
        /\ forall k c,
             substring0 15 s !! k = Some c ->
             replaceNonAlnum (substring0 15 s) !! k
             = Some (if isAlnum c then c else 95%N)).
Proof.
  assert (forall q,
            downloadBulkZip true generateAsync now q
            = if (0 <? length (List.filter exportable q))%nat then
                if generateAsync
                     (foldl (fun m e => <[e.1 := e.2]> m) ∅
                        (entriesFrom 0 q))
                then
                  Download (lit "gemini-bulk-" ++ ofNat now ++ lit ".zip")
                    (foldl (fun m e => <[e.1 := e.2]> m) ∅
                       (entriesFrom 0 q))
                else ZipRejected
              else Alert (lit "No successful images to download.")) as Hrun.
  { intros q. unfold downloadBulkZip. cbn [negb]. cbv iota.
    rewrite forEachItem_spec, entriesFrom_length. reflexivity. }
  assert (List.filter exportable queue = [] ->
          downloadBulkZip true generateAsync now queue
          = Alert (lit "No successful images to download.")) as Hnone.
  { intros H. rewrite Hrun, H. reflexivity. }
  split; [|split; [exact Hnone|split; [|split]]].
  - intros H. apply Hnone, no_done_no_exportable, H.
  - intros Hsome. eexists. rewrite Hrun.
    destruct (List.filter exportable queue) as [|x xs] eqn:Hf;
      [contradiction|].
    split; [reflexivity|].
    assert (size (foldl (fun (m : gmap jsstring jsstring) e =>
                           <[e.1 := e.2]> m) ∅ (entriesFrom 0 queue))
            = length (x :: xs)) as Hsize.
    { rewrite addFiles_size.
      - rewrite map_size_empty, entriesFrom_length, Hf. reflexivity.
      - apply entriesFrom_NoDup.
      - intros k _. apply lookup_empty. }
    split; [exact Hsize|]. split; [|split].
    + intros Hall. rewrite Hsize, <- Hf. f_equal.
      apply List.filter_ext_in. intros item Hin%list_elem_of_In.
      destruct (bool_decide (status item = done)) eqn:Hd.
      * apply bool_decide_eq_true_1 in Hd. apply Hall; assumption.
      * unfold exportable. rewrite Hd. reflexivity.
    + intros i item url mime payload Hi Hd Hu Hm.
      apply addFiles_lookup; [apply entriesFrom_NoDup|].
      apply (entriesFrom_complete queue 0 i item); [exact Hi|].
      apply (entryOf_complete _ _ url); assumption.
    + intros name payload Hl.
      apply addFiles_lookup_inv in Hl as [Hl | Hl];
        [rewrite lookup_empty in Hl; discriminate|].
      apply entriesFrom_elem in Hl as (i & item & Hi & He). simpl in He.
      apply entryOf_Some in He as (Hd & url & mime & Hu & Hm & ->).
      apply matchDataUrl_Some in Hm
          as (sub & _ & _ & -> & Hsub & Hne & _).
      exists i, item, sub. repeat split; try assumption.
      * apply filenameOf_stem.
      * apply filename_stem_wordChars.
  - intros i j item item' ext ext'. apply filenameOf_inj.
  - intros s. unfold replaceNonAlnum, substring0. split.
    + rewrite length_map, length_take. reflexivity.
    + intros k c Hk.
      pose proof (list_lookup_fmap
                    (fun c => if isAlnum c then c else 95%N) (take 15 s) k)
        as E.
      unfold jsstring in *. rewrite Hk in E. exact E.
Qed.

(** C5 as stated fails on the characters of a name: the one file of the
    archive of a batch with a single [done] job is [image_1_a_cat_.png],
    with a dot. And a [done] job is not always exported: the one whose
    image is an SVG data URL is not, and the user is told that there is
    nothing to download. Without JSZip the alert is another one. *)
Lemma archive_filename_has_a_dot :
  downloadBulkZip true strictZip 0 [catJob]
  = Download (lit "gemini-bulk-0.zip")
      {[ lit "image_1_a_cat_.png" := lit "AAAA" ]}
  /\ forallb isWordChar (lit "image_1_a_cat_.png") = false
  /\ status svgJob = done
  /\ downloadBulkZip true strictZip 0 [svgJob]
     = Alert (lit "No successful images to download.")
  /\ downloadBulkZip false strictZip 0 []
     = Alert (lit "JSZip library not loaded.").
Proof. vm_compute. repeat split. Qed.

Lemma downloadBulkZip_archive_witness :
  exists files,
    downloadBulkZip true strictZip 0 [catJob]
    = (if strictZip files then
         Download (lit "gemini-bulk-" ++ ofNat 0 ++ lit ".zip") files
       else ZipRejected)
    /\ size files = 1%nat.
Proof.
  destruct (downloadBulkZip_archive strictZip 0 [catJob]) as (_ & _ & H & _).
  destruct H as (files & Hrun & Hsize & _); [discriminate|].
  exists files. split; [exact Hrun|exact Hsize].
Defined.

(** A payload that the pattern takes and JSZip does not: the job is
    exported, [generateAsync] rejects, and the call ends with neither a
    download nor an alert. *)
Example malformed_payload_rejects :
  exportable shortJob = true
  /\ downloadBulkZip true strictZip 0 [shortJob] = ZipRejected.
Proof. vm_compute. split; reflexivity. Qed.

(* ===================================================================== *)
(** ** The bulk runner: more of what a run keeps *)
(* ===================================================================== *)

Lemma NoDup_imap_inj {A C} (f : nat -> A -> C) (l : list A) :
  (forall i j x y, l !! i = Some x -> l !! j = Some y ->
                   f i x = f j y -> i = j) ->
  NoDup (imap f l).
Proof.
  intros Hinj. apply NoDup_alt. intros i j c Hi Hj.
  rewrite list_lookup_imap in Hi, Hj.
  destruct (l !! i) as [x|] eqn:Ei; [|discriminate].
  destruct (l !! j) as [y|] eqn:Ej; [|discriminate].
  simpl in Hi, Hj. apply (Hinj i j x y Ei Ej). congruence.
Qed.

Section RunLog.

Variable B : Browser.
Variable setItem : list HistoryItem -> SetItemResult.
Variable P : Page.
Variable now : nat -> nat.
Variable generateImage :
  nat -> jsstring -> jsstring -> jsstring -> jsstring -> Settled jsstring.
Variable applyWatermark : nat -> jsstring -> Settled jsstring.
Variables apiKey aspectRatio imageSize negativePrompt : jsstring.

#[local] Abbreviation run prompts w :=
  (runBulkGeneration B setItem P now generateImage applyWatermark apiKey
     aspectRatio imageSize negativePrompt prompts w).2.
#[local] Abbreviation eventsOf :=
  (jobEvents generateImage applyWatermark apiKey aspectRatio imageSize
     negativePrompt).
#[local] Abbreviation workOf :=
  (jobWork generateImage applyWatermark apiKey aspectRatio imageSize
     negativePrompt).
#[local] Abbreviation outcomeOf :=
  (jobOutcome generateImage applyWatermark apiKey aspectRatio imageSize
     negativePrompt).
#[local] Abbreviation finished :=
  (finishedItem generateImage applyWatermark apiKey aspectRatio imageSize
     negativePrompt).
#[local] Abbreviation loop :=
  (loopFrom P generateImage applyWatermark apiKey aspectRatio imageSize
     negativePrompt).

(** What a run leaves and logs, on every page: the queue as it was built
    and nothing logged when it throws while rendering, what the loop makes
    of the queue otherwise. *)
Lemma run_cases prompts w :
  (bulkQueue (run prompts w) = newQueue now prompts
   /\ trace (run prompts w) = trace w ++ [])
  \/ (bulkQueue (run prompts w)
      = (loop (renderedRows (newQueue now prompts)) (length prompts) 0
           (newQueue now prompts)).1.2
      /\ trace (run prompts w)
         = trace w
           ++ (loop (renderedRows (newQueue now prompts)) (length prompts)
                 0 (newQueue now prompts)).2).
Proof.
  destruct (runBulkGeneration_spec B setItem P now generateImage
              applyWatermark apiKey aspectRatio imageSize negativePrompt
              prompts w) as [(_ & _ & ->) | (_ & Hq & Ht & _)].
  - left. split; [reflexivity|]. symmetry. apply app_nil_r.
  - right. split; assumption.
Qed.

Lemma newQueue_fresh prompts :
  Forall (fun item => status item = pending /\ imageUrl item = None)
    (newQueue now prompts).
Proof.
  apply Forall_forall. intros item Hin%list_elem_of_In.
  apply list_elem_of_In, list_elem_of_lookup in Hin as [i Hi].
  unfold newQueue in Hi. rewrite list_lookup_imap in Hi.
  destruct (prompts !! i); [|discriminate]. injection Hi as <-.
  split; reflexivity.
Qed.

Lemma loop_ids rows n rest : forall i,
  id <$> (loop rows n i rest).1.2 = id <$> rest.
Proof.
  induction rest as [|it rest IH]; intros i; [reflexivity|].
  cbn [Bulk.loopFrom]. destruct (getRow P rows (id it)); cbn [fst snd].
  - rewrite !fmap_cons, IH. reflexivity.
  - reflexivity.
  - rewrite !fmap_cons, IH. f_equal. unfold Bulk.finishedItem.
    destruct (outcomeOf i (prompt it)); reflexivity.
Qed.

(** X1: The ids given to the jobs of a batch, [bulk-<Date.now()>-<i>] with
    the clock read once per job, are pairwise distinct, whatever the clock
    gives, and a run does not change them, however it ends. *)
Theorem bulk_ids_distinct prompts w :
  NoDup (id <$> bulkQueue (run prompts w))
  /\ id <$> bulkQueue (run prompts w)
     = imap (fun i _ => lit "bulk-" ++ ofNat (now i) ++ lit "-" ++ ofNat i)
         prompts.
Proof.
  assert (id <$> bulkQueue (run prompts w)
          = imap (fun i _ =>
                    lit "bulk-" ++ ofNat (now i) ++ lit "-" ++ ofNat i)
              prompts) as ->.
  { assert (id <$> newQueue now prompts
            = imap (fun i _ =>
                      lit "bulk-" ++ ofNat (now i) ++ lit "-" ++ ofNat i)
                prompts) as Hnew.
    { unfold newQueue. rewrite fmap_imap. reflexivity. }
    destruct (run_cases prompts w) as [[-> _] | [-> _]];
      [exact Hnew|]. rewrite loop_ids. exact Hnew. }
  split; [|reflexivity].
  apply NoDup_imap_inj. intros i j x y _ _ H.
  apply app_inv_head in H.
  change (lit "-" ++ ofNat i) with (45%N :: ofNat i) in H.
  change (lit "-" ++ ofNat j) with (45%N :: ofNat j) in H.
  pose proof H as Hclock.
  apply (app_delim_inj isDigit) in Hclock;
    [|apply digits_isDigit|apply digits_isDigit|reflexivity].
  rewrite Hclock in H. apply app_inv_head in H. injection H as H.
  apply ofNat_inj, H.
Qed.

Lemma loop_images rows n rest : forall i,
  Forall (fun item => status item = pending /\ imageUrl item = None) rest ->
  Forall (fun item =>
            (status item = done <-> is_Some (imageUrl item))
            /\ (status item = error -> imageUrl item = None))
    (loop rows n i rest).1.2.
Proof.
  assert (forall l,
            Forall (fun item => status item = pending
                                /\ imageUrl item = None) l ->
            Forall (fun item =>
                      (status item = done <-> is_Some (imageUrl item))
                      /\ (status item = error -> imageUrl item = None)) l)
    as Hfresh.
  { intros l Hl. apply (Forall_impl _ _ _ Hl). intros item [Hs Hi].
    rewrite Hs, Hi.
    split; [split; [discriminate|intros [? ?]; discriminate]|reflexivity]. }
  induction rest as [|it rest IH]; intros i Hall; [constructor|].
  pose proof (Hfresh _ Hall) as Hgood.
  apply Forall_cons in Hall as [[Hs Hi] Hall].
  apply Forall_cons in Hgood as [Hit Hgood].
  cbn [Bulk.loopFrom]. destruct (getRow P rows (id it)); cbn [fst snd].
  - constructor; [exact Hit|]. apply IH, Hall.
  - constructor; [|exact Hgood]. simpl. rewrite Hi.
    split; [split; [discriminate|intros [? ?]; discriminate]|reflexivity].
  - constructor; [|apply IH, Hall]. unfold Bulk.finishedItem.
    destruct (outcomeOf i (prompt it)); simpl.
    + split; [split; eauto|discriminate].
    + rewrite Hi.
      split; [split; [discriminate|intros [? ?]; discriminate]|reflexivity].
Qed.

(** X2: After a run, however it ends, a job has an image exactly when it is
    [done], and a job that ended [error] has none. When every row was on
    the page with its status text, the jobs without an image are exactly
    the ones that ended [error]. *)
Theorem done_iff_image prompts w i item :
  bulkQueue (run prompts w) !! i = Some item ->
  (status item = done <-> is_Some (imageUrl item))
  /\ (status item = error -> imageUrl item = None)
  /\ (rowsReady P (newQueue now prompts) = true ->
      (status item = error <-> imageUrl item = None)).
Proof.
  intros Hitem.
  assert ((status item = done <-> is_Some (imageUrl item))
          /\ (status item = error -> imageUrl item = None)) as [Hdone Herr].
  { destruct (run_cases prompts w) as [[Hq _] | [Hq _]];
      rewrite Hq in Hitem.
    - pose proof (newQueue_fresh prompts) as Hfresh.
      rewrite Forall_lookup in Hfresh.
      destruct (Hfresh i item Hitem) as [Hs Hi]. rewrite Hs, Hi.
      split; [split; [discriminate|intros [? ?]; discriminate]|reflexivity].
    - pose proof (loop_images (renderedRows (newQueue now prompts))
                    (length prompts) (newQueue now prompts) 0
                    (newQueue_fresh prompts)) as Hgood.
      rewrite Forall_lookup in Hgood. exact (Hgood i item Hitem). }
  split; [exact Hdone|]. split; [exact Herr|].
  intros Hready. split; [exact Herr|].
  destruct (runBulkGeneration_ready B setItem P now generateImage
              applyWatermark apiKey aspectRatio imageSize negativePrompt
              prompts w Hready) as (_ & Hq & _).
  rewrite Hq, list_lookup_imap in Hitem.
  destruct (prompts !! i) as [p|]; [|discriminate]. simpl in Hitem.
  injection Hitem as <-. unfold Bulk.finishedItem.
  destruct (outcomeOf _ _); simpl; [discriminate|reflexivity].
Qed.

Lemma delaysOf_jobWork i p : delaysOf (workOf i p) = [].
Proof.
  unfold Bulk.jobWork, delaysOf.
  destruct (generateImage i _ apiKey imageSize aspectRatio) as [b|e];
    [destruct (applyWatermark i b) as [out|e]|]; reflexivity.
Qed.

Lemma delaysOf_jobEvents n i p :
  delaysOf (eventsOf n i p) = if (S i <? n)%nat then [2000%nat] else [].
Proof.
  unfold Bulk.jobEvents, delaysOf. rewrite omap_app.
  fold (delaysOf (workOf i p)). rewrite delaysOf_jobWork.
  destruct (S i <? n)%nat; reflexivity.
Qed.

Lemma savesOf_jobEvents n i p :
  savesOf (eventsOf n i p)
  = match outcomeOf i p with
    | Fulfilled out => [(lit "Bulk: " ++ p, out)]
    | Rejected _ => []
    end.
Proof.
  unfold Bulk.jobEvents, Bulk.jobWork, Bulk.jobOutcome, savesOf.
  destruct (generateImage i _ apiKey imageSize aspectRatio) as [b|e];
    [destruct (applyWatermark i b) as [out|e]|];
    destruct (S i <? n)%nat; reflexivity.
Qed.

Lemma concat_delays (A : Type) (d : nat) (l : list A) : forall o,
  concat (imap (fun k _ =>
                  if (S (o + k) <? o + length l)%nat then [d] else []) l)
  = replicate (length l - 1) d.
Proof.
  induction l as [|x l IH]; intros o; [reflexivity|].
  rewrite imap_cons, concat_cons.
  rewrite (imap_ext _ (fun k _ =>
             if (S (S o + k) <? S o + length l)%nat then [d] else [])).
  - rewrite IH. cbn [length]. rewrite Nat.add_0_r.
    destruct l as [|y l]; simpl.
    + replace (S o <? o + 1)%nat with false; [reflexivity|].
      symmetry. apply Nat.ltb_ge. lia.
    + replace (S o <? o + S (S (length l)))%nat with true.
      * rewrite Nat.sub_0_r. reflexivity.
      * symmetry. apply Nat.ltb_lt. lia.
  - intros k y _. unfold compose. cbn [length].
    replace (S (o + S k)) with (S (S o + k)) by lia.
    replace (o + S (length l))%nat with (S o + length l)%nat by lia.
    reflexivity.
Qed.

(** The loop waits at most once per job it has still to run but the last,
    2000 ms each time. *)
Lemma loop_delays rows n rest : forall i,
  (i + length rest)%nat = n ->
  exists k,
    k <= length rest - 1
    /\ delaysOf (loop rows n i rest).2 = replicate k 2000%nat.
Proof.
  induction rest as [|it rest IH]; intros i Hn; [exists 0%nat; auto|].
  destruct (IH (S i)) as (k & Hk & Hd); [simpl in Hn; lia|].
  cbn [Bulk.loopFrom]. destruct (getRow P rows (id it)); cbn [snd length].
  - exists k. split; [lia|exact Hd].
  - exists 0%nat. split; [lia|reflexivity].
  - unfold delaysOf at 1. rewrite omap_app.
    fold (delaysOf (eventsOf n i (prompt it))).
    fold (delaysOf (loop rows n (S i) rest).2).
    rewrite delaysOf_jobEvents, Hd.
    destruct (S i <? n)%nat eqn:Hlast.
    + apply Nat.ltb_lt in Hlast. exists (S k). simpl in Hn.
      split; [lia|reflexivity].
    + exists k. split; [lia|reflexivity].
Qed.

(** X3: The rate limiting. On every page a run waits 2000 ms at a time, and
    at most once per job but the last. When every row is on the page with
    its status text, the log is the work of job 0, a wait, the work of
    job 1, a wait, and so on up to the work of the last job, which no wait
    follows, and no job waits during its work: [n - 1] waits for [n] jobs,
    whether the jobs succeed or fail. *)
Theorem one_delay_between_jobs prompts w :
  exists evs,
    trace (run prompts w) = trace w ++ evs
    /\ (exists k,
          k <= length prompts - 1 /\ delaysOf evs = replicate k 2000%nat)
    /\ (forall i p, delaysOf (workOf i p) = [])
    /\ (rowsReady P (newQueue now prompts) = true ->
        evs = concat (imap (fun i p =>
                              workOf i (trim p)
                              ++ (if (S i <? length prompts)%nat
                                  then [EvDelay 2000] else []))
                        prompts)
        /\ delaysOf evs = replicate (length prompts - 1) 2000%nat).
Proof.
  assert (forall evs,
            evs = concat (imap (fun i p => eventsOf (length prompts) i
                                             (trim p)) prompts) ->
            delaysOf evs = replicate (length prompts - 1) 2000%nat)
    as Hcount.
  { intros evs ->. unfold delaysOf at 1. rewrite omap_concat, fmap_imap.
    rewrite <- (concat_delays _ 2000%nat prompts 0). f_equal.
    apply imap_ext. intros i p _. unfold compose.
    apply delaysOf_jobEvents. }
  destruct (run_cases prompts w) as [[_ Ht] | [_ Ht]].
  - exists []. split; [exact Ht|]. split; [exists 0%nat; split; [lia|auto]|].
    split; [apply delaysOf_jobWork|].
    intros Hready.
    destruct (runBulkGeneration_ready B setItem P now generateImage
                applyWatermark apiKey aspectRatio imageSize negativePrompt
                prompts w Hready) as (_ & _ & Ht').
    simpl in Ht, Ht'. rewrite Ht in Ht'. apply app_inv_head in Ht'.
    split; [exact Ht'|apply Hcount, Ht'].
  - eexists. split; [exact Ht|]. split; [|split].
    + destruct (loop_delays (renderedRows (newQueue now prompts))
                  (length prompts) (newQueue now prompts) 0) as (k & Hk & Hd).
      { unfold newQueue. rewrite length_imap. reflexivity. }
      exists k. unfold newQueue in Hk. rewrite length_imap in Hk.
      split; [exact Hk|exact Hd].
    + apply delaysOf_jobWork.
    + intros Hready.
      destruct (runBulkGeneration_ready B setItem P now generateImage
                  applyWatermark apiKey aspectRatio imageSize
                  negativePrompt prompts w Hready) as (_ & _ & Ht').
      simpl in Ht, Ht'. rewrite Ht in Ht'. apply app_inv_head in Ht'.
      split; [exact Ht'|apply Hcount, Ht'].
Qed.

Lemma omap_imap_concat {A C D} (h : nat -> A -> C) (g : C -> option D)
    (l : list A) :
  omap g (imap h l)
  = concat (imap (fun i x => option_list (g (h i x))) l).
Proof.
  revert h. induction l as [|x l IH]; intros h; [reflexivity|].
  rewrite !imap_cons, concat_cons. cbn [omap list_omap].
  destruct (g (h 0%nat x)); simpl; rewrite IH; reflexivity.
Qed.

Lemma saveOfItem_fresh l :
  Forall (fun item => status item = pending /\ imageUrl item = None) l ->
  omap saveOfItem l = [].
Proof.
  induction 1 as [|item l [Hs Hi] _ IH]; [reflexivity|].
  cbn [omap list_omap]. unfold saveOfItem at 1. rewrite Hs. exact IH.
Qed.

Lemma loop_saves rows n rest : forall i,
  Forall (fun item => status item = pending /\ imageUrl item = None) rest ->
  savesOf (loop rows n i rest).2 = omap saveOfItem (loop rows n i rest).1.2.
Proof.
  induction rest as [|it rest IH]; intros i Hall; [reflexivity|].
  pose proof (saveOfItem_fresh _ Hall) as Hnone.
  apply Forall_cons in Hall as [[Hs Hi] Hall].
  cbn [Bulk.loopFrom]. destruct (getRow P rows (id it)); cbn [fst snd].
  - cbn [omap list_omap]. unfold saveOfItem at 1. rewrite Hs.
    apply IH, Hall.
  - cbn [omap list_omap] in *. unfold saveOfItem at 1 in Hnone.
    rewrite Hs in Hnone. rewrite Hnone. reflexivity.
  - unfold savesOf at 1. rewrite omap_app.
    fold (savesOf (eventsOf n i (prompt it))).
    fold (savesOf (loop rows n (S i) rest).2).
    rewrite savesOf_jobEvents, (IH (S i) Hall).
    cbn [omap list_omap]. unfold saveOfItem at 2, Bulk.finishedItem.
    destruct (outcomeOf i (prompt it)); reflexivity.
Qed.

(** X4: The history sink: over a run [saveToHistory] is called once per job
    that ends [done], in the order of the jobs, with the label
    [Bulk: <prompt>] and the image kept in the job, and never for a job
    that ends [error]. *)
Theorem history_saves_are_the_done_jobs prompts w :
  exists evs,
    trace (run prompts w) = trace w ++ evs
    /\ savesOf evs = omap saveOfItem (bulkQueue (run prompts w)).
Proof.
  destruct (run_cases prompts w) as [[Hq Ht] | [Hq Ht]];
    (eexists; split; [exact Ht|]); rewrite Hq.
  - symmetry. apply saveOfItem_fresh, newQueue_fresh.
  - apply loop_saves, newQueue_fresh.
Qed.

(** What [saveToHistory] keeps true of the stored history, a run keeps
    true. *)
Lemma processItem_history (Q : list HistoryItem -> Prop) rows i w :
  (forall label base64 h,
     Q h -> Q (snd (saveToHistory B setItem label base64 h))) ->
  Q (history w) ->
  Q (history (processItem B setItem P generateImage applyWatermark apiKey
                aspectRatio imageSize negativePrompt rows i w).2).
Proof.
  intros Hsave HQ. unfold processItem.
  destruct (bulkQueue w !! i) as [item|]; [|exact HQ].
  destruct (getRow P rows (id item)); [exact HQ..|]. cbn [snd].
  unfold tryItem, onError.
  destruct (generateImage i _ apiKey imageSize aspectRatio) as [b|e];
    [destruct (applyWatermark i b) as [out|e]|].
  - pose proof (Hsave (lit "Bulk: " ++ prompt item) out (history w) HQ)
      as Hh.
    simpl. destruct (saveToHistory _ _ _ _ _) as [r h]. simpl in Hh.
    destruct r; simpl; destruct (S i <? _)%nat; exact Hh.
  - simpl. destruct (S i <? _)%nat; exact HQ.
  - simpl. destruct (S i <? _)%nat; exact HQ.
Qed.

Lemma processLoop_history (Q : list HistoryItem -> Prop) rows fuel :
  forall i w,
  (forall label base64 h,
     Q h -> Q (snd (saveToHistory B setItem label base64 h))) ->
  Q (history w) ->
  Q (history (processLoop B setItem P generateImage applyWatermark apiKey
                aspectRatio imageSize negativePrompt fuel rows i w).2).
Proof.
  induction fuel as [|fuel IH]; intros i w Hsave HQ; simpl; [exact HQ|].
  destruct (i <? _)%nat; [|exact HQ].
  pose proof (processItem_history Q rows i w Hsave HQ) as Hstep.
  destruct (processItem _ _ _ _ _ _ _ _ _ _ _ _) as [[| |j] w'];
    cbn [snd] in *; [|exact Hstep..].
  apply IH; assumption.
Qed.

End RunLog.

#[local] Close Scope float_scope.

(** X5: With the watermark stage of the page as post-processing, whatever
    the controls are when a job is watermarked, and every row on the page
    with its status text, only [generateImage] can fail a job: a job ends
    [error] exactly when its call of [generateImage] throws, and otherwise
    keeps what [applyWatermark] made of the generated image. *)
Theorem only_generation_fails_a_job B setItem P now generateImage
    (controls : nat -> WatermarkControls) apiKey aspectRatio imageSize
    negativePrompt prompts w i p :
  rowsReady P (newQueue now prompts) = true ->
  prompts !! i = Some p ->
  exists item,
    bulkQueue
      (runBulkGeneration B setItem P now generateImage
         (fun j => Pipeline.applyWatermark B (controls j))
         apiKey aspectRatio imageSize negativePrompt prompts w).2 !! i
    = Some item
    /\ (status item = error
        <-> exists e,
              generateImage i (finalPromptOf negativePrompt (trim p)) apiKey
                imageSize aspectRatio = Rejected e)
    /\ (forall b,
          generateImage i (finalPromptOf negativePrompt (trim p)) apiKey
            imageSize aspectRatio = Fulfilled b ->
          status item = done
          /\ Fulfilled (default [] (imageUrl item))
             = Pipeline.applyWatermark B (controls i) b).
Proof.
  intros Hready Hp.
  destruct (generateImage i (finalPromptOf negativePrompt (trim p)) apiKey
              imageSize aspectRatio) as [b|e] eqn:Hgen.
  - destruct (applyWatermark_fulfilled B (controls i) b) as [out Hout].
    destruct (runBulkGeneration_lookup_done B setItem P now generateImage
                (fun j => Pipeline.applyWatermark B (controls j)) apiKey
                aspectRatio imageSize negativePrompt prompts w i p out
                Hready Hp)
      as (item & Hitem & Hst & Himg).
    { unfold jobOutcome. rewrite Hgen. exact Hout. }
    exists item. split; [exact Hitem|]. split.
    + rewrite Hst. split; [discriminate|]. intros [e He]. discriminate.
    + intros b' Hb'. injection Hb' as <-. rewrite Hst, Himg, Hout. auto.
  - destruct (runBulkGeneration_lookup B setItem P now generateImage
                (fun j => Pipeline.applyWatermark B (controls j)) apiKey
                aspectRatio imageSize negativePrompt prompts w i p Hready Hp)
      as (item & Hitem & _ & Hst).
    unfold jobOutcome in Hst. rewrite Hgen in Hst.
    exists item. split; [exact Hitem|]. split.
    + rewrite Hst. split; eauto.
    + intros b Hb. discriminate.
Qed.

Lemma only_generation_fails_a_job_witness :
  exists item,
    bulkQueue abcRun !! 1%nat = Some item
    /\ (status item = error
        <-> exists e,
              failsOnB 1 (finalPromptOf [] (trim (lit "b"))) (lit "key")
                (lit "1K") (lit "1:1") = Rejected e).
Proof.
  destruct (only_generation_fails_a_job pngBrowser roomyStorage htmlPage
              atZero failsOnB (fun _ => wmOff) (lit "key") (lit "1:1")
              (lit "1K") [] [lit "a"; lit "b"; lit "c"] emptyWorld 1
              (lit "b")) as (item & Hitem & Herr & _);
    [vm_compute; reflexivity|reflexivity|].
  exists item. split; [exact Hitem|exact Herr].
Defined.

(* ===================================================================== *)
(** ** The history *)
(* ===================================================================== *)

Lemma removelast_take {A} (l : list A) : removelast l = take (length l - 1) l.
Proof.
  induction l as [|x l IH]; [reflexivity|].
  destruct l as [|y l]; [reflexivity|].
  change (removelast (x :: y :: l)) with (x :: removelast (y :: l)).
  rewrite IH. simpl. rewrite Nat.sub_0_r. reflexivity.
Qed.

(** The quota loop, on the prefixes of the list it started from: from
    [take m l] it tries [take (m - 1) l], then [take (m - 2) l], and so on
    down to one item. *)
Lemma evictOldest_prefix setItem (l stored : list HistoryItem) n : forall m,
  m <= length l -> m <= n ->
  (evictOldest setItem n (take m l) stored = stored
   /\ forall k, 1 <= k < m -> setItem (take k l) <> Stored)
  \/ exists k,
       1 <= k < m
       /\ evictOldest setItem n (take m l) stored = take k l
       /\ setItem (take k l) = Stored
       /\ forall j, k < j < m -> setItem (take j l) <> Stored.
Proof.
  induction n as [|n IH]; intros m Hm Hn.
  - left. split; [reflexivity|]. intros k Hk. lia.
  - simpl. rewrite length_take, Nat.min_l by exact Hm.
    destruct (1 <? m)%nat eqn:E.
    + apply Nat.ltb_lt in E.
      rewrite removelast_take, length_take, Nat.min_l by exact Hm.
      rewrite take_take, Nat.min_l by lia.
      destruct (setItem (take (m - 1) l)) eqn:Hs.
      * right. exists (m - 1). split; [lia|]. split; [reflexivity|].
        split; [exact Hs|]. intros j Hj. lia.
      * destruct (IH (m - 1)) as [[Hr Hnone] | (k & Hk & Hr & Hok & Hmax)];
          try lia.
        -- left. split; [exact Hr|]. intros k Hk.
           destruct (decide (k = m - 1)) as [->|]; [congruence|].
           apply Hnone. lia.
        -- right. exists k. split; [lia|]. split; [exact Hr|].
           split; [exact Hok|]. intros j Hj.
           destruct (decide (j = m - 1)) as [->|]; [congruence|].
           apply Hmax. lia.
      * destruct (IH (m - 1)) as [[Hr Hnone] | (k & Hk & Hr & Hok & Hmax)];
          try lia.
        -- left. split; [exact Hr|]. intros k Hk.
           destruct (decide (k = m - 1)) as [->|]; [congruence|].
           apply Hnone. lia.
        -- right. exists k. split; [lia|]. split; [exact Hr|].
           split; [exact Hok|]. intros j Hj.
           destruct (decide (j = m - 1)) as [->|]; [congruence|].
           apply Hmax. lia.
    + apply Nat.ltb_ge in E. left. split; [reflexivity|]. intros k Hk. lia.
Qed.

Lemma evictOldest_from_all setItem newHistory stored n :
  length newHistory <= n ->
  (evictOldest setItem n newHistory stored = stored
   /\ forall k, 1 <= k < length newHistory ->
                setItem (take k newHistory) <> Stored)
  \/ exists k,
       1 <= k < length newHistory
       /\ evictOldest setItem n newHistory stored = take k newHistory
       /\ setItem (take k newHistory) = Stored
       /\ forall j, k < j < length newHistory ->
                    setItem (take j newHistory) <> Stored.
Proof.
  intros Hn.
  pose proof (evictOldest_prefix setItem newHistory stored n
                (length newHistory) (le_n _) Hn) as H.
  rewrite firstn_all in H. exact H.
Qed.

(** X6: The quota loop of [saveToHistory] drops as few of the oldest items as
    the storage asks for: it ends on the longest proper prefix of the new
    history, of at least one item, that the storage takes, and leaves what
    was stored alone when there is none. With [length newHistory] rounds it
    has run to its end: more rounds change nothing. *)
Theorem evictOldest_keeps_longest_prefix setItem newHistory stored n :
  length newHistory <= n ->
  (evictOldest setItem n newHistory stored = stored
   /\ forall k, 1 <= k < length newHistory ->
                setItem (take k newHistory) <> Stored)
  \/ exists k,
       1 <= k < length newHistory
       /\ evictOldest setItem n newHistory stored = take k newHistory
       /\ setItem (take k newHistory) = Stored
       /\ forall j, k < j < length newHistory ->
                    setItem (take j newHistory) <> Stored.
Proof.
  exact (evictOldest_from_all setItem newHistory stored n).
Qed.

Lemma saveToHistory_stored B setItem label base64 stored :
  snd (saveToHistory B setItem label base64 stored) = stored
  \/ exists compressed k,
       compressImage B base64 800%float 0.7%float = Fulfilled compressed
       /\ 1 <= k <= MAX_HISTORY_ITEMS
       /\ snd (saveToHistory B setItem label base64 stored)
          = take k ({| h_prompt := label; h_imageUrl := compressed |}
                      :: stored)
       /\ setItem (snd (saveToHistory B setItem label base64 stored))
          = Stored.
Proof.
  unfold saveToHistory.
  destruct (compressImage B base64 800%float 0.7%float) as [compressed|e];
    [|left; reflexivity].
  set (newItem := {| h_prompt := label; h_imageUrl := compressed |}).
  set (newHistory := take MAX_HISTORY_ITEMS (newItem :: stored)).
  assert (1 <= length newHistory <= MAX_HISTORY_ITEMS) as Hlen.
  { unfold newHistory. rewrite length_take. cbn [length].
    unfold MAX_HISTORY_ITEMS. lia. }
  destruct (setItem newHistory) eqn:Hs; cbn [snd].
  - right. exists compressed, (length newHistory).
    split; [reflexivity|]. split; [exact Hlen|].
    split; [|exact Hs]. unfold newHistory. rewrite length_take.
    destruct (Nat.min_spec MAX_HISTORY_ITEMS (length (newItem :: stored)))
      as [[_ ->] | [Hge ->]].
    + reflexivity.
    + fold newItem. rewrite !take_ge by lia. reflexivity.
  - destruct (evictOldest_from_all setItem newHistory stored
                (length newHistory) (le_n _))
      as [[-> _] | (k & Hk & -> & Hok & _)]; [left; reflexivity|].
    right. exists compressed, k. split; [reflexivity|].
    split; [lia|]. split; [|exact Hok].
    unfold newHistory. rewrite take_take. f_equal. lia.
  - left. reflexivity.
Qed.

(** X7: What [saveToHistory] leaves in the storage: either what was there, or
    the new item followed by the most recent of the old ones, at most
    [MAX_HISTORY_ITEMS] in all, in a state that the storage has accepted.
    The new image is stored compressed, never as it came. *)
Theorem saveToHistory_stores_newest_first B setItem label base64 stored :
  snd (saveToHistory B setItem label base64 stored) = stored
  \/ exists compressed k,
       compressImage B base64 800%float 0.7%float = Fulfilled compressed
       /\ 1 <= k <= MAX_HISTORY_ITEMS
       /\ snd (saveToHistory B setItem label base64 stored)
          = take k ({| h_prompt := label; h_imageUrl := compressed |}
                      :: stored)
       /\ setItem (snd (saveToHistory B setItem label base64 stored))
          = Stored.
Proof.
  exact (saveToHistory_stored B setItem label base64 stored).
Qed.

Lemma saveToHistory_bound B setItem label base64 stored :
  length stored <= MAX_HISTORY_ITEMS ->
  length (snd (saveToHistory B setItem label base64 stored))
  <= MAX_HISTORY_ITEMS.
Proof.
  intros H.
  destruct (saveToHistory_stored B setItem label base64 stored)
    as [-> | (c & k & _ & Hk & -> & _)]; [exact H|].
  rewrite length_take. lia.
Qed.

(** X8: A bulk run never lets the stored history grow beyond
    [MAX_HISTORY_ITEMS]. *)
Theorem bulk_run_bounds_history B setItem P now generateImage applyWatermark
    apiKey aspectRatio imageSize negativePrompt prompts w :
  length (history w) <= MAX_HISTORY_ITEMS ->
  length (history
            (runBulkGeneration B setItem P now generateImage applyWatermark
               apiKey aspectRatio imageSize negativePrompt prompts w).2)
  <= MAX_HISTORY_ITEMS.
Proof.
  intros H. unfold runBulkGeneration.
  destruct (negb (bulkList P) && _); [exact H|].
  apply (processLoop_history B setItem P generateImage applyWatermark apiKey
           aspectRatio imageSize negativePrompt
           (fun h => length h <= MAX_HISTORY_ITEMS)).
  - intros label base64 h Hh. apply saveToHistory_bound, Hh.
  - exact H.
Qed.

(* ===================================================================== *)
(** ** The watermark stage: what it returns *)
(* ===================================================================== *)

Lemma textOrigin_globalAlpha position img tw th pad ctx :
  globalAlpha (textOrigin position img tw th pad ctx).2 = globalAlpha ctx.
Proof.
  unfold textOrigin. repeat (destruct (bool_decide _)); reflexivity.
Qed.

(** X9: [applyWatermark] resolves either with the very string it was given, or
    with the PNG encoding of a canvas of the size of the decoded image, on
    which the image was drawn first, at the origin, unscaled and under the
    state of a fresh context (so at full opacity), followed by at most one
    watermark drawn under the opacity of the controls (when that is a value
    of [0, 1]; the default 1 otherwise). *)
Theorem applyWatermark_output_shape B dom base64Image :
  Pipeline.applyWatermark B dom base64Image = Fulfilled base64Image
  \/ exists img canvas marks,
       loadImage B base64Image = Some img
       /\ Pipeline.applyWatermark B dom base64Image
          = Fulfilled (toDataURL B canvas (lit "image/png") None)
       /\ canvas_width canvas = width img
       /\ canvas_height canvas = height img
       /\ drawn canvas = DrawImage freshContext img 0%float 0%float None
                         :: marks
       /\ length marks <= 1
       /\ Forall (fun op =>
                    globalAlpha (contextOf op)
                    = globalAlpha
                        (assign_globalAlpha (wm_opacity dom) freshContext))
            marks.
Proof.
  unfold Pipeline.applyWatermark.
  destruct (wm_toggle dom) as [[|]|]; [|left; reflexivity..].
  destruct (loadImage B base64Image) as [img|]; [|left; reflexivity].
  destruct (getContext2d B _); [|left; reflexivity]. cbn [negb]. cbv iota.
  cbv zeta.
  destruct (wm_type_text dom).
  - right. unfold drawTextWatermark.
    pose proof (textOrigin_globalAlpha (wm_position dom) img
                  (measureText B
                     (font (set_textBaseline (lit "bottom")
                        (set_font
                           (lit "bold "
                              ++ Number_toString B (width img * 0.05)%float
                              ++ lit "px sans-serif")
                           (assign_globalAlpha (wm_opacity dom)
                              freshContext))))
                     (if truthy (wm_text dom) then wm_text dom
                      else lit "Watermark"))
                  (width img * 0.05)%float (width img * 0.03)%float
                  (set_textBaseline (lit "bottom")
                     (set_font
                        (lit "bold "
                           ++ Number_toString B (width img * 0.05)%float
                           ++ lit "px sans-serif")
                        (assign_globalAlpha (wm_opacity dom) freshContext))))
      as Halpha.
    cbv zeta.
    destruct (textOrigin _ _ _ _ _ _) as [[x y] ctx]. simpl in Halpha.
    eexists img, _, _. split; [reflexivity|]. split; [reflexivity|].
    split; [reflexivity|]. split; [reflexivity|].
    split; [reflexivity|]. split; [simpl; lia|].
    constructor; [|constructor]. exact Halpha.
  - destruct (truthy_opt (watermarkLogoBase64 dom)).
    + destruct (loadImage B (default [] (watermarkLogoBase64 dom)))
        as [logo|]; [|left; reflexivity].
      right. unfold drawLogoWatermark.
      destruct (logoOrigin _ _ _ _ _) as [x y].
      eexists img, _, _. split; [reflexivity|]. split; [reflexivity|].
      split; [reflexivity|]. split; [reflexivity|].
      split; [reflexivity|]. split; [simpl; lia|].
      constructor; [|constructor]. reflexivity.
    + right. eexists img, _, []. split; [reflexivity|].
      split; [reflexivity|]. split; [reflexivity|]. split; [reflexivity|].
      split; [reflexivity|]. split; [simpl; lia|]. constructor.
Qed.

(** X10: In logo kind with no logo uploaded, an image that decodes comes
    back as the PNG encoding of a canvas that holds the image and nothing
    else: no watermark is drawn, and the image is encoded again. *)
Theorem applyWatermark_logo_kind_without_logo B dom base64Image img :
  wm_toggle dom = Some true ->
  wm_type_text dom = false ->
  truthy_opt (watermarkLogoBase64 dom) = false ->
  loadImage B base64Image = Some img ->
  getContext2d B (createCanvas (width img) (height img)) = true ->
  Pipeline.applyWatermark B dom base64Image
  = Fulfilled
      (toDataURL B
         (draw (DrawImage freshContext img 0%float 0%float None)
            (createCanvas (width img) (height img)))
         (lit "image/png") None).
Proof.
  intros Hon Hkind Hlogo Himg Hctx. unfold Pipeline.applyWatermark.
  rewrite Hon, Himg, Hctx, Hkind, Hlogo. reflexivity.
Qed.

Lemma applyWatermark_logo_kind_without_logo_witness :
  Pipeline.applyWatermark pngBrowser wmLogoMissing pngUrl
  = Fulfilled (lit "data:image/png;base64,AAAA").
Proof.
  rewrite (applyWatermark_logo_kind_without_logo pngBrowser wmLogoMissing
             pngUrl
             {| src := pngUrl; width := 1000%float; height := 1000%float |});
    reflexivity.
Defined.

(* ===================================================================== *)
(** ** The prompts of a bulk run *)
(* ===================================================================== *)

Lemma split_parts_without_sep sep s : forall l,
  l ∈ split sep s -> sep ∉ l.
Proof.
  induction s as [|c s IH]; intros l Hl; simpl in Hl.
  - apply list_elem_of_singleton in Hl as ->. apply not_elem_of_nil.
  - destruct (c =? sep)%N eqn:E.
    + apply elem_of_cons in Hl as [-> | Hl]; [apply not_elem_of_nil|].
      apply IH, Hl.
    + apply N.eqb_neq in E.
      destruct (split sep s) as [|l0 ls] eqn:Es.
      * apply list_elem_of_singleton in Hl as ->.
        apply not_elem_of_cons. split; [congruence|apply not_elem_of_nil].
      * apply elem_of_cons in Hl as [-> | Hl].
        -- apply not_elem_of_cons. split; [congruence|].
           apply IH, list_elem_of_here.
        -- apply IH, list_elem_of_further, Hl.
Qed.

Lemma trimStart_elem c s : c ∈ trimStart s -> c ∈ s.
Proof.
  induction s as [|x s IH]; simpl; [auto|].
  destruct (isWhiteSpace x); [|auto].
  intros H. apply list_elem_of_further, IH, H.
Qed.

Lemma trimEnd_elem c s : c ∈ trimEnd s -> c ∈ s.
Proof.
  induction s as [|x s IH]; simpl; [auto|].
  destruct (trimEnd s) as [|y r].
  - destruct (isWhiteSpace x); intros H.
    + apply elem_of_nil in H. contradiction.
    + apply list_elem_of_singleton in H as ->. apply list_elem_of_here.
  - intros [-> | H]%elem_of_cons; [apply list_elem_of_here|].
    apply list_elem_of_further, IH, H.
Qed.

Lemma trimEnd_last s :
  trimEnd s = []
  \/ exists c, last (trimEnd s) = Some c /\ isWhiteSpace c = false.
Proof.
  induction s as [|x s IH]; simpl; [left; reflexivity|].
  destruct (trimEnd s) as [|y r].
  - destruct (isWhiteSpace x) eqn:E; [left; reflexivity|].
    right. exists x. split; [reflexivity|exact E].
  - right. destruct IH as [IH | (c & Hc & Hws)]; [discriminate|].
    exists c. split; [|exact Hws]. rewrite <- Hc. reflexivity.
Qed.

(** X11: Every prompt the click handler keeps for a bulk run is non-empty, is
    its own trimmed form, starts and ends with a code unit that is not white
    space, and holds no line feed. *)
Theorem bulkPrompts_are_clean promptValue p :
  p ∈ bulkPrompts promptValue ->
  p <> []
  /\ trim p = p
  /\ (10%N ∉ p)
  /\ (exists c, head p = Some c /\ isWhiteSpace c = false)
  /\ (exists c, last p = Some c /\ isWhiteSpace c = false).
Proof.
  unfold bulkPrompts. intros [Hlen Hin]%list_elem_of_filter.
  apply list_elem_of_fmap in Hin as (line & -> & Hline).
  assert (trim line <> []) as Hne.
  { intros E. rewrite E in Hlen. simpl in Hlen. lia. }
  split; [exact Hne|]. split; [apply trim_idemp|]. split; [|split].
  - intros H. apply (split_parts_without_sep 10%N promptValue line Hline).
    apply trimStart_elem, trimEnd_elem, H.
  - unfold trim in *.
    destruct (trimStart_head line) as [E | (c & t & E & Hc)].
    + rewrite E in Hne. contradiction.
    + rewrite E. destruct (trimEnd_head c t Hc) as [r ->].
      exists c. split; [reflexivity|exact Hc].
  - unfold trim in *.
    destruct (trimEnd_last (trimStart line)) as [E | H];
      [contradiction|exact H].
Qed.

Lemma bulkPrompts_are_clean_witness :
  lit "b" <> [] /\ trim (lit "b") = lit "b" /\ (10%N ∉ lit "b").
Proof.
  destruct (bulkPrompts_are_clean
              (lit " a " ++ [10%N; 10%N] ++ lit "b" ++ [13%N; 10%N]
                 ++ lit "c")
              (lit "b")) as (H1 & H2 & H3 & _).
  - vm_compute. apply list_elem_of_further, list_elem_of_here.
  - auto.
Defined.

Lemma trimStart_blank s :
  forallb isWhiteSpace s = true -> trimStart s = [].
Proof.
  induction s as [|c s IH]; simpl; [reflexivity|].
  intros [Hc Hs]%andb_prop. rewrite Hc. auto.
Qed.

Lemma split_parts_elem sep s : forall l c,
  l ∈ split sep s -> c ∈ l -> c ∈ s.
Proof.
  induction s as [|x s IH]; intros l c Hl Hc; simpl in Hl.
  - apply list_elem_of_singleton in Hl as ->. exact Hc.
  - destruct (x =? sep)%N.
    + apply elem_of_cons in Hl as [-> | Hl].
      * apply elem_of_nil in Hc. contradiction.
      * apply list_elem_of_further, (IH l c Hl Hc).
    + destruct (split sep s) as [|l0 ls] eqn:Es.
      * apply list_elem_of_singleton in Hl as ->.
        apply list_elem_of_singleton in Hc as ->. apply list_elem_of_here.
      * apply elem_of_cons in Hl as [-> | Hl].
        -- apply elem_of_cons in Hc as [-> | Hc];
             [apply list_elem_of_here|].
           apply list_elem_of_further, (IH l0 c); [|exact Hc].
           apply list_elem_of_here.
        -- apply list_elem_of_further, (IH l c); [|exact Hc].
           apply list_elem_of_further, Hl.
Qed.

(** X12: A text area that holds nothing but white space and line breaks gives
    no prompt, so a click in bulk mode on it leaves everything as it is. *)
Theorem blank_text_area_has_no_prompt B setItem P now generateImage
    applyWatermark promptValue negativeValue key imageSize aspectRatio w :
  forallb isWhiteSpace promptValue = true ->
  bulkPrompts promptValue = []
  /\ snd (generateButton_click B setItem P now generateImage applyWatermark
            promptValue negativeValue (lit "bulk") key imageSize
            aspectRatio w) = w.
Proof.
  intros Hblank.
  assert (bulkPrompts promptValue = []) as Hnone.
  { unfold bulkPrompts.
    assert (forall l, l ∈ split 10%N promptValue -> trim l = []) as Hl.
    { intros l Hin. unfold trim. rewrite trimStart_blank; [reflexivity|].
      apply forallb_forall. intros c Hc%list_elem_of_In.
      apply (proj1 (forallb_forall _ _) Hblank), list_elem_of_In.
      apply (split_parts_elem 10%N promptValue l c Hin Hc). }
    induction (split 10%N promptValue) as [|l ls IH]; [reflexivity|].
    rewrite fmap_cons, filter_cons, (Hl l) by apply list_elem_of_here.
    destruct (decide _) as [Hd|_]; [simpl in Hd; lia|].
    apply IH. intros l' Hin. apply Hl, list_elem_of_further, Hin. }
  split; [exact Hnone|].
  unfold generateButton_click.
  destruct (truthy_opt key); cbn [negb]; cbv iota; [|reflexivity].
  rewrite bool_decide_eq_true_2 by reflexivity.
  rewrite Hnone. reflexivity.
Qed.

Lemma blank_text_area_has_no_prompt_witness :
  bulkPrompts (lit "  " ++ [10%N; 9%N; 10%N]) = [].
Proof.
  apply (blank_text_area_has_no_prompt pngBrowser roomyStorage htmlPage
           atZero failsOnB
           (fun _ => Pipeline.applyWatermark pngBrowser wmOff)
           (lit "  " ++ [10%N; 9%N; 10%N]) [] (Some (lit "key"))
           (lit "1K") (lit "1:1") emptyWorld).
  reflexivity.
Defined.

(* ===================================================================== *)
(** ** Reading a response of the API *)
(* ===================================================================== *)

Section ResponseFacts.

Import Api.

Lemma firstImage_skips before : forall part after d,
  Forall (fun p => forall d', inlineData p = Some d' ->
                              truthy_opt (data d') = false) before ->
  inlineData part = Some d ->
  truthy_opt (data d) = true ->
  firstImage (before ++ part :: after) = Some (dataUrlOf d).
Proof.
  induction before as [|p before IH]; intros part after d Hb Hd Ht; simpl.
  - rewrite Hd, Ht. reflexivity.
  - apply Forall_cons in Hb as [Hp Hb].
    destruct (inlineData p) as [d'|] eqn:E.
    + rewrite (Hp d' eq_refl). apply IH; assumption.
    + apply IH; assumption.
Qed.

(** X13: An image in the first candidate wins: the first part that has inline
    data gives the result, [data:<mime>;base64,<data>] with [image/png] for
    a missing MIME type, whatever text parts come with it, whatever the
    finish reason is, and whatever the other candidates are. *)
Theorem first_image_part_wins noImage candidate others before part after d :
  parts candidate = Some (before ++ part :: after) ->
  Forall (fun p => forall d', inlineData p = Some d' ->
                              truthy_opt (data d') = false) before ->
  inlineData part = Some d ->
  truthy_opt (data d) = true ->
  imageFromResponse noImage {| candidates := Some (candidate :: others) |}
  = Fulfilled (dataUrlOf d).
Proof.
  intros Hparts Hb Hd Ht. unfold imageFromResponse. simpl.
  rewrite Hparts, (firstImage_skips before part after d Hb Hd Ht).
  reflexivity.
Qed.

Lemma firstText_truthy ps t : firstText ps = Some t -> t <> [].
Proof.
  induction ps as [|p ps IH]; simpl; [discriminate|].
  destruct (text p) as [t'|]; simpl; [|exact IH].
  destruct t' as [|c t']; simpl; [exact IH|].
  intros H. injection H as <-. discriminate.
Qed.

Lemma handleGenerationError_message candidate e :
  handleGenerationError candidate = Some e ->
  exists m, e = Error m /\ m <> [].
Proof.
  unfold handleGenerationError.
  destruct (truthy_opt (finishReason candidate) && _); [|discriminate].
  intros H. injection H as <-. eexists. split; [reflexivity|].
  repeat (destruct (bool_decide _)); discriminate.
Qed.

(** X14: A response that gives no image is an error with a message to show: an
    [Error] object whose message is not empty. And the result, when there
    is one, is never an empty string. *)
Theorem response_errors_carry_a_message noImage response :
  noImage <> [] ->
  (forall e,
     imageFromResponse noImage response = Rejected e ->
     exists m, e = Error m /\ m <> [])
  /\ (forall url,
        imageFromResponse noImage response = Fulfilled url ->
        exists rest, url = lit "data:" ++ rest).
Proof.
  intros Hmsg. unfold imageFromResponse.
  destruct (firstCandidate response) as [candidate|].
  - assert (forall e,
              match handleGenerationError candidate with
              | Some e0 => Rejected e0
              | None => Rejected (Error noImage)
              end = (Rejected e : Settled jsstring) ->
              exists m, e = Error m /\ m <> []) as Hafter.
    { intros e. destruct (handleGenerationError candidate) as [e0|] eqn:E;
        intros H; injection H as <-.
      - apply (handleGenerationError_message candidate e0 E).
      - eauto. }
    destruct (parts candidate) as [ps|].
    + destruct (firstImage ps) as [url|] eqn:Eimg.
      * split; [discriminate|]. intros u H. injection H as <-.
        clear Hafter. induction ps as [|p ps IH]; simpl in Eimg;
          [discriminate|].
        destruct (inlineData p) as [d|]; [|auto].
        destruct (truthy_opt (data d)); [|auto].
        injection Eimg as <-. unfold dataUrlOf. eauto.
      * destruct (firstText ps) as [t|] eqn:Et.
        -- split; [|discriminate]. intros e H. injection H as <-.
           exists t. split; [reflexivity|].
           apply (firstText_truthy ps t Et).
        -- split; [exact Hafter|].
           intros url H. destruct (handleGenerationError candidate);
             discriminate.
    + split; [exact Hafter|].
      intros url H. destruct (handleGenerationError candidate);
        discriminate.
  - split; [|discriminate]. intros e H. injection H as <-. eauto.
Qed.

Lemma response_errors_carry_a_message_witness :
  exists m,
    Error
      (lit "Generation blocked due to safety settings. Try modifying the prompt to be less specific about real people.")
    = Error m
    /\ m <> [].
Proof.
  destruct (response_errors_carry_a_message
              (lit "The model did not return an image.") blockedResponse)
    as [Hrejected _]; [discriminate|].
  apply Hrejected. reflexivity.
Defined.

Lemma first_image_part_wins_witness :
  imageFromResponse (lit "The model did not return an image.") mixedResponse
  = Fulfilled (lit "data:image/png;base64,iVBORw0KGgo=").
Proof.
  apply (first_image_part_wins (lit "The model did not return an image.")
           {| parts := Some [refusalPart; pngPart];
              finishReason := Some (lit "SAFETY") |}
           [] [refusalPart] pngPart []
           {| data := Some (lit "iVBORw0KGgo="); mimeType := None |}).
  - reflexivity.
  - constructor; [|constructor]. intros d' H. discriminate.
  - reflexivity.
  - reflexivity.
Defined.

End ResponseFacts.

(* ===================================================================== *)
(** ** Data URLs: from a response and back into a request *)
(* ===================================================================== *)

Lemma stripPrefix_app p : forall r, stripPrefix p (p ++ r) = Some r.
Proof.
  induction p as [|a p IH]; intros r; simpl; [reflexivity|].
  rewrite N.eqb_refl. apply IH.
Qed.

Lemma spanWhile_app f a : forall c b,
  forallb f a = true -> f c = false ->
  spanWhile f (a ++ c :: b) = (a, c :: b).
Proof.
  induction a as [|x a IH]; intros c b Ha Hc; simpl.
  - rewrite Hc. reflexivity.
  - simpl in Ha. apply andb_prop in Ha as [Hx Ha].
    rewrite Hx, (IH c b Ha Hc). reflexivity.
Qed.

Lemma matchDataUrl_exactly url mime payload :
  matchDataUrl url = Some (mime, payload)
  <-> exists sub,
        url = lit "data:image/" ++ sub ++ lit ";base64," ++ payload
        /\ mime = lit "image/" ++ sub
        /\ sub <> []
        /\ forallb isLower sub = true
        /\ payload <> []
        /\ forallb (fun c => negb (isLineTerminator c)) payload = true.
Proof.
  split.
  - intros H. pose proof H as H'.
    apply matchDataUrl_Some in H as (sub & Hurl & Hmime & _ & Hsub & Hne & Hp).
    exists sub. repeat split; try assumption.
    subst url. unfold matchDataUrl in H'.
    rewrite stripPrefix_app in H'.
    change (lit ";base64," ++ payload)
      with (59%N :: lit "base64," ++ payload) in H'.
    rewrite (spanWhile_app isLower sub 59%N _ Hsub eq_refl) in H'.
    destruct sub as [|c sub]; [contradiction|]. simpl truthy in H'.
    cbv iota in H'.
    change (59%N :: lit "base64," ++ payload)
      with (lit ";base64," ++ payload) in H'.
    rewrite stripPrefix_app in H'.
    destruct (truthy payload); [|discriminate]. simpl in H'.
    destruct (forallb _ payload); [reflexivity|discriminate].
  - intros (sub & -> & -> & Hne & Hsub & Hpne & Hp).
    unfold matchDataUrl. rewrite stripPrefix_app.
    change (lit ";base64," ++ payload)
      with (59%N :: lit "base64," ++ payload).
    rewrite (spanWhile_app isLower sub 59%N _ Hsub eq_refl).
    destruct sub as [|c sub]; [contradiction|]. simpl truthy. cbv iota.
    change (59%N :: lit "base64," ++ payload)
      with (lit ";base64," ++ payload).
    rewrite stripPrefix_app, Hp.
    destruct payload; [contradiction|]. reflexivity.
Qed.

(** X15: The matcher of [/^data:(image\/[a-z]+);base64,(.+)$/] accepts exactly
    the strings [data:image/<sub>;base64,<payload>] with [sub] a non-empty
    run of lowercase letters and [payload] a non-empty string without line
    terminator, and then gives [image/<sub>] and [payload]. *)
Theorem matchDataUrl_iff url mime payload :
  matchDataUrl url = Some (mime, payload)
  <-> exists sub,
        url = lit "data:image/" ++ sub ++ lit ";base64," ++ payload
        /\ mime = lit "image/" ++ sub
        /\ sub <> []
        /\ forallb isLower sub = true
        /\ payload <> []
        /\ forallb (fun c => negb (isLineTerminator c)) payload = true.
Proof.
  exact (matchDataUrl_exactly url mime payload).
Qed.

Section RoundTrip.

Import Api.

Variable generateContent : jsstring -> Request -> Settled Response.

(** X16: An image as the API returns it can go back to the API: when the
    inline data of a part has no line terminator and its MIME type is missing,
    empty or [image/<lowercase letters>], [editImage] accepts the data URL
    made of it and sends back exactly that data, under that MIME type
    ([image/png] when there was none), followed by the instruction. *)
Theorem generated_image_can_be_edited d payload prompt apiKey :
  data d = Some payload ->
  payload <> [] ->
  forallb (fun c => negb (isLineTerminator c)) payload = true ->
  (truthy_opt (mimeType d) = false
   \/ exists sub, mimeType d = Some (lit "image/" ++ sub)
                  /\ sub <> [] /\ forallb isLower sub = true) ->
  let mime :=
    if truthy_opt (mimeType d) then default [] (mimeType d)
    else lit "image/png" in
  matchDataUrl (dataUrlOf d) = Some (mime, payload)
  /\ editImage generateContent (dataUrlOf d) prompt apiKey
     = request generateContent (lit "The model did not return an image.")
         apiKey
         {| model := lit "gemini-2.5-flash-image";
            contents := [ReqInline (Some payload) (Some mime);
                         ReqText prompt];
            safetySettings := permissiveSafetySettings;
            imageConfig := None |}.
Proof.
  intros Hd Hne Hp Hmime mime.
  assert (matchDataUrl (dataUrlOf d) = Some (mime, payload)) as Hmatch.
  { apply matchDataUrl_exactly. unfold dataUrlOf. fold mime. rewrite Hd.
    destruct Hmime as [Hnone | (sub & Hsome & Hsub & Hlow)].
    - exists (lit "png"). unfold mime. rewrite Hnone.
      repeat split; try assumption; discriminate.
    - exists sub. unfold mime. rewrite Hsome. simpl.
      repeat split; try assumption. }
  split; [exact Hmatch|]. unfold editImage. rewrite Hmatch. reflexivity.
Qed.

End RoundTrip.

Lemma generated_image_can_be_edited_witness :
  matchDataUrl (lit "data:image/png;base64,iVBORw0KGgo=")
  = Some (lit "image/png", lit "iVBORw0KGgo=").
Proof.
  apply (generated_image_can_be_edited
           (fun _ _ => Rejected ErrorEvent)
           {| Api.data := Some (lit "iVBORw0KGgo="); Api.mimeType := None |}
           (lit "iVBORw0KGgo=") (lit "add a hat") (lit "key")).
  - reflexivity.
  - discriminate.
  - reflexivity.
  - left. reflexivity.
Defined.

(* ===================================================================== *)
(** ** Video generation *)
(* ===================================================================== *)

Section VideoFacts.

Import Video.

Variable generateVideos : jsstring -> VideoRequest -> Settled Operation.
Variable getVideosOperation : jsstring -> Operation -> Settled Operation.
Variable fetch : jsstring -> Settled Download.

#[local] Abbreviation poll := (pollLoop getVideosOperation).
#[local] Abbreviation after := (polled getVideosOperation).
#[local] Abbreviation video :=
  (generateVideo generateVideos getVideosOperation fetch).

(** X17: The polling loop stops at the first operation that is done: when the
    polls succeed and the operation is done after [n] of them and not
    before, the loop returns that operation after exactly [n] waits of
    5000 ms, for every bound of at least [n] rounds. *)
Theorem polling_stops_at_first_done n : forall apiKey operation final log fuel,
  after n apiKey operation = Some final ->
  op_done final = true ->
  (forall k o, k < n -> after k apiKey operation = Some o ->
               op_done o = false) ->
  n <= fuel ->
  exists evs,
    poll fuel apiKey operation log = Some (Fulfilled final, log ++ evs)
    /\ waitsOf evs = replicate n 5000.
Proof.
  induction n as [|n IH]; intros apiKey operation final log fuel Hn Hdone
    Hbefore Hfuel.
  - simpl in Hn. injection Hn as ->. exists [].
    rewrite app_nil_r. split; [|reflexivity].
    destruct fuel; simpl; rewrite Hdone; reflexivity.
  - destruct fuel as [|fuel]; [lia|].
    assert (op_done operation = false) as Hrun.
    { apply (Hbefore 0 operation); [lia|reflexivity]. }
    simpl. rewrite Hrun. simpl in Hn.
    destruct (getVideosOperation apiKey operation) as [next|e] eqn:Hnext;
      [|discriminate].
    destruct (IH apiKey next final (log ++ [VWait 5000; VPoll operation])
                fuel Hn Hdone) as (evs & Hrun' & Hw).
    + intros k o Hk Ho. apply (Hbefore (S k) o); [lia|].
      simpl. rewrite Hnext. exact Ho.
    + lia.
    + exists ([VWait 5000; VPoll operation] ++ evs).
      rewrite Hrun', <- app_assoc. split; [reflexivity|].
      change (5000 :: waitsOf evs = 5000 :: replicate n 5000).
      rewrite Hw. reflexivity.
Qed.

(** X18: What [generateVideo] makes of its arguments before anything is sent:
    every aspect ratio other than [9:16] counts as [16:9]; an empty image
    string counts as no image; and an image that is not a base64 data URL
    of an image is refused with [Invalid image data.], with no request, no
    status message and no wait. *)
Theorem video_arguments_are_normalised fuel prompt apiKey resolution :
  (forall aspectRatio imageBase64,
     aspectRatio <> lit "9:16" ->
     video fuel prompt imageBase64 apiKey aspectRatio resolution
     = video fuel prompt imageBase64 apiKey (lit "16:9") resolution)
  /\ (forall aspectRatio,
        video fuel prompt (Some []) apiKey aspectRatio resolution
        = video fuel prompt None apiKey aspectRatio resolution)
  /\ (forall aspectRatio imageBase64,
        imageBase64 <> [] ->
        Archive.matchDataUrl imageBase64 = None ->
        video fuel prompt (Some imageBase64) apiKey aspectRatio resolution
        = Some (Rejected (Error (lit "Invalid image data.")), [])).
Proof.
  split; [|split].
  - intros aspectRatio imageBase64 Hne. unfold generateVideo.
    rewrite (bool_decide_eq_false_2 _ Hne).
    rewrite (bool_decide_eq_false_2 (lit "16:9" = lit "9:16"))
      by discriminate.
    reflexivity.
  - intros aspectRatio. reflexivity.
  - intros aspectRatio imageBase64 Hne Hno. unfold generateVideo.
    destruct imageBase64 as [|c img]; [contradiction|].
    simpl truthy_opt. cbv iota. simpl default. rewrite Hno. reflexivity.
Qed.

Lemma pollLoop_fulfilled fuel : forall apiKey operation log final log',
  poll fuel apiKey operation log = Some (Fulfilled final, log') ->
  exists n evs,
    after n apiKey operation = Some final
    /\ op_done final = true
    /\ (forall k o, k < n -> after k apiKey operation = Some o ->
                    op_done o = false)
    /\ log' = log ++ evs
    /\ waitsOf evs = replicate n 5000.
Proof.
  induction fuel as [|fuel IH]; intros apiKey operation log final log';
    simpl; destruct (op_done operation) eqn:Hdone.
  - intros [= <- <-]. exists 0, []. split; [reflexivity|].
    split; [exact Hdone|]. split; [intros k o Hk; lia|].
    split; [symmetry; apply app_nil_r|reflexivity].
  - discriminate.
  - intros [= <- <-]. exists 0, []. split; [reflexivity|].
    split; [exact Hdone|]. split; [intros k o Hk; lia|].
    split; [symmetry; apply app_nil_r|reflexivity].
  - destruct (getVideosOperation apiKey operation) as [next|e] eqn:Hnext;
      [|discriminate].
    intros H. apply IH in H as (n & evs & Hn & Hfinal & Hbefore & -> & Hw).
    exists (S n), ([VWait 5000; VPoll operation] ++ evs).
    split; [simpl; rewrite Hnext; exact Hn|]. split; [exact Hfinal|].
    split; [|split].
    + intros [|k] o Hk Ho; simpl in Ho.
      * injection Ho as <-. exact Hdone.
      * rewrite Hnext in Ho. apply (Hbefore k o); [lia|exact Ho].
    + rewrite <- app_assoc. reflexivity.
    + change (5000 :: waitsOf evs = 5000 :: replicate n 5000).
      rewrite Hw. reflexivity.
Qed.

(** X19: Where a video URL comes from. When [generateVideo] returns one, a
    request with the prompt was accepted by [generateVideos]; the operation
    it gave back was polled until it first reported [done], [n] times and
    after one wait of 5000 ms each time; the URL is the object URL of a
    download that answered [ok], fetched from the URI of that last
    operation with [&key=] and the API key appended; and the status
    message was shown before the first wait. *)
Theorem video_url_comes_from_a_finished_download fuel prompt imageBase64
    apiKey aspectRatio resolution videoUrl log :
  video fuel prompt imageBase64 apiKey aspectRatio resolution
  = Some (Fulfilled videoUrl, log) ->
  exists request started n operation uri downloadResponse evs,
    generateVideos apiKey request = Fulfilled started
    /\ v_prompt request = prompt
    /\ after n apiKey started = Some operation
    /\ op_done operation = true
    /\ (forall k o, k < n -> after k apiKey started = Some o ->
                    op_done o = false)
    /\ op_uri operation = Some uri
    /\ uri <> []
    /\ fetch (uri ++ lit "&key=" ++ apiKey) = Fulfilled downloadResponse
    /\ dl_ok downloadResponse = true
    /\ videoUrl = dl_objectUrl downloadResponse
    /\ log
       = VStatus (lit "Rendering video frames... (this may take a minute)")
         :: evs
    /\ waitsOf evs = replicate n 5000.
Proof.
  unfold generateVideo. cbv zeta.
  destruct (if truthy_opt imageBase64 then _ else _) as [started|e]
    eqn:Hstart; [|discriminate].
  assert (exists request,
            generateVideos apiKey request = Fulfilled started
            /\ v_prompt request = prompt) as (request & Hreq & Hprompt).
  { revert Hstart. destruct (truthy_opt imageBase64).
    - destruct (matchDataUrl _) as [[mimeType imageBytes]|];
        [|discriminate].
      intros H. eexists. split; [exact H|reflexivity].
    - intros H. eexists. split; [exact H|reflexivity]. }
  destruct (poll fuel apiKey started _) as [[[final|e] log']|] eqn:Hpoll;
    [|discriminate..].
  apply pollLoop_fulfilled in Hpoll
    as (n & evs & Hn & Hdone & Hbefore & -> & Hw).
  destruct (op_uri final) as [[|c uri]|] eqn:Huri; simpl truthy_opt;
    cbv iota; [discriminate| |discriminate].
  simpl default.
  destruct (fetch _) as [downloadResponse|e] eqn:Hfetch; [|discriminate].
  destruct (dl_ok downloadResponse) eqn:Hok; [|discriminate].
  intros [= <- <-].
  exists request, started, n, final, (c :: uri), downloadResponse, evs.
  split; [exact Hreq|]. split; [exact Hprompt|]. split; [exact Hn|].
  split; [exact Hdone|]. split; [exact Hbefore|]. split; [exact Huri|].
  split; [discriminate|]. split; [exact Hfetch|]. split; [exact Hok|].
  split; [reflexivity|]. split; [reflexivity|exact Hw].
Qed.

End VideoFacts.

Lemma polling_stops_at_first_done_witness :
  exists evs,
    Video.pollLoop slowPoll 5 (lit "key") (countdown 2) []
    = Some (Fulfilled (countdown 0), [] ++ evs)
    /\ Video.waitsOf evs = replicate 2 5000.
Proof.
  apply (polling_stops_at_first_done slowPoll 2 (lit "key") (countdown 2)
           (countdown 0) [] 5).
  - reflexivity.
  - reflexivity.
  - intros k o Hk Ho. destruct k as [|[|k]]; [| |lia];
      vm_compute in Ho; injection Ho as <-; reflexivity.
  - lia.
Defined.

(* ===================================================================== *)
(** ** The generate button outside bulk mode *)
(* ===================================================================== *)

Section ClickFacts.

Import Handler.

Variable B : Browser.
Variable setItem : list HistoryItem -> SetItemResult.
Variable net : nat -> jsstring -> Api.Request -> Settled Api.Response.
Variable controls : nat -> WatermarkControls.
Variable generateVideo :
  jsstring -> option jsstring -> jsstring -> jsstring -> jsstring ->
  Settled jsstring.

Variables prompt negativePrompt : jsstring.
Variable u : Uploads.
Variables apiKey imageSize aspectRatio videoRes : jsstring.

(** The request of the nail art loop for the [k]-th hand photo. *)
#[local] Abbreviation nailRequest := (fun (k : nat) (x : jsstring) =>
  Api.generateMultimodalImage (net k) (nailPrompt prompt negativePrompt)
    [imagePartOf x] apiKey aspectRatio).

#[local] Abbreviation watermarkAt := (fun (k : nat) (r : jsstring) =>
  Pipeline.applyWatermark B (controls k) r).

#[local] Abbreviation loop :=
  (nailLoop B setItem net controls prompt negativePrompt u apiKey
     aspectRatio).

#[local] Abbreviation saves := (nailSaves B setItem).

Lemma nailLoop_prefix pre : forall gs rest i lastGeneratedImage stored,
  imap (fun k x => nailRequest (i + k) x) pre = Fulfilled <$> gs ->
  i + length pre < length (nailImageBase64s u) ->
  exists ws,
    imap (fun k r => watermarkAt (i + k) r) gs = Fulfilled <$> ws
    /\ loop i (pre ++ rest) lastGeneratedImage stored
       = loop (i + length pre) rest
           (default lastGeneratedImage (last ws))
           (saves (length (nailImageBase64s u)) i ws stored).
Proof.
  induction pre as [|x pre IH]; intros gs rest i lastGeneratedImage stored
    Hgs Hlt.
  - destruct gs; [|discriminate]. exists []. split; [reflexivity|].
    simpl. rewrite Nat.add_0_r. reflexivity.
  - destruct gs as [|g gs]; [discriminate|].
    simpl in Hgs. injection Hgs as Hg Hgs.
    rewrite Nat.add_0_r in Hg.
    destruct (applyWatermark_fulfilled B (controls i) g) as (w & Hw).
    destruct (IH gs rest (S i) w
                (snd (saveToHistory B setItem
                        (lit "Nail Art Bulk " ++ ofNat (i + 1) ++ lit "/"
                           ++ ofNat (length (nailImageBase64s u)))
                        w stored)))
      as (ws & Hws & Hloop).
    + etrans; [|exact Hgs]. apply imap_ext. intros k y _. simpl.
      rewrite Nat.add_succ_r. reflexivity.
    + simpl in Hlt. lia.
    + exists (w :: ws). split.
      * simpl. rewrite Nat.add_0_r, Hw. f_equal.
        etrans; [|exact Hws]. apply imap_ext. intros k y _. simpl.
        rewrite Nat.add_succ_r. reflexivity.
      * cbn [app nailLoop length nailSaves]. rewrite Hg, Hw.
        assert ((S i <? length (nailImageBase64s u))%nat = true) as ->.
        { apply Nat.ltb_lt. simpl in Hlt. lia. }
        set (label := lit "Nail Art Bulk " ++ ofNat (i + 1) ++ lit "/"
                        ++ ofNat (length (nailImageBase64s u))) in *.
        pose proof (saveToHistory_fulfilled B setItem label w stored)
          as Hsave.
        destruct (saveToHistory B setItem label w stored) as [r stored'].
        cbn [fst snd] in *. subst r. rewrite Hloop.
        rewrite Nat.add_succ_r, last_cons.
        destruct (last ws); reflexivity.
Qed.

(** X20: A click in nail art mode whose requests all succeed. Every generated
    image is watermarked inside the loop, with the controls as they are at
    that moment; all but the last are saved to the history as
    [Nail Art Bulk i/n]; the last one is watermarked a second time by the
    standard flow, and that twice watermarked image is what is shown and
    saved as [Nail Art]. *)
Theorem nail_click_watermarks_last_image_twice gs g stored :
  imap nailRequest (nailImageBase64s u) = Fulfilled <$> (gs ++ [g]) ->
  exists ws w w',
    imap watermarkAt (gs ++ [g]) = Fulfilled <$> (ws ++ [w])
    /\ watermarkAt (S (length gs)) w = Fulfilled w'
    /\ imageBranch B setItem net controls prompt negativePrompt (lit "nail")
         u apiKey imageSize aspectRatio stored
       = (ShownImage w',
          snd (saveToHistory B setItem (lit "Nail Art") w'
                 (saves (S (length gs)) 0 ws stored))).
Proof.
  intros Hall.
  assert (length (nailImageBase64s u) = S (length gs)) as Hlen.
  { apply (f_equal length) in Hall.
    rewrite length_imap, length_fmap, length_app in Hall. simpl in Hall.
    lia. }
  remember (nailImageBase64s u) as images eqn:Himages.
  destruct images as [|x pre _] using rev_ind; [discriminate|].
  symmetry in Himages.
  rewrite length_app in Hlen. simpl in Hlen.
  rewrite imap_app, fmap_app in Hall.
  apply app_inj_2 in Hall as [Hpre Hlast]; [|reflexivity].
  simpl in Hlast. injection Hlast as Hlast.
  rewrite Nat.add_0_r in Hlast.
  assert (length pre = length gs) as Hpg by lia.
  destruct (nailLoop_prefix pre gs [x] 0 [] stored Hpre) as (ws & Hws & Hloop).
  { rewrite Himages, length_app. simpl. lia. }
  destruct (applyWatermark_fulfilled B (controls (length gs)) g) as (w & Hw).
  destruct (applyWatermark_fulfilled B (controls (S (length gs))) w)
    as (w' & Hw').
  exists ws, w, w'. split; [|split].
  - rewrite imap_app, fmap_app. simpl in Hws. rewrite Hws. simpl.
    rewrite Nat.add_0_r, Hw. reflexivity.
  - exact Hw'.
  - unfold imageBranch, generateForMode, standardWatermarkCall.
    rewrite (bool_decide_eq_false_2 (lit "nail" = lit "clothing"))
      by discriminate.
    rewrite (bool_decide_eq_false_2 (lit "nail" = lit "product"))
      by discriminate.
    rewrite (bool_decide_eq_true_2 (lit "nail" = lit "nail")) by reflexivity.
    cbn [andb].
    assert ((0 <? length (nailImageBase64s u))%nat = true) as ->.
    { apply Nat.ltb_lt. rewrite Himages, length_app. simpl. lia. }
    rewrite Himages at 1. rewrite Hloop.
    simpl Nat.add. cbn [nailLoop]. rewrite Hpg in *.
    rewrite Hlast, Hw.
    assert ((S (length gs) <? length (nailImageBase64s u))%nat = false)
      as ->.
    { apply Nat.ltb_ge. rewrite Himages, length_app. simpl. lia. }
    assert (length (nailImageBase64s u) = S (length gs)) as ->.
    { rewrite Himages, length_app. simpl. lia. }
    rewrite Hw'.
    pose proof (saveToHistory_fulfilled B setItem (lit "Nail Art") w'
                  (saves (S (length gs)) 0 ws stored)) as Hsave.
    unfold historyPrompt.
    rewrite (bool_decide_eq_true_2 (lit "nail" = lit "nail")) by reflexivity.
    destruct (saveToHistory B setItem (lit "Nail Art") w' _) as [r stored'].
    simpl in Hsave. subst r. reflexivity.
Qed.

(** X21: Nail art mode has no failure isolation: the first request that
    fails ends the click. Its message is handed to [showStatusError] by the
    [catch] block and blanked by the [finally] block at once, so the page
    is left without an image and without a message. The photos before it
    have been generated, watermarked and saved to the history, all of
    them; the photos after it are not requested, whatever the network
    would have answered. *)
Theorem nail_click_stops_at_first_failure pre x rest gs e stored :
  nailImageBase64s u = pre ++ x :: rest ->
  imap nailRequest pre = Fulfilled <$> gs ->
  nailRequest (length pre) x = Rejected e ->
  exists ws,
    imap watermarkAt gs = Fulfilled <$> ws
    /\ imageBranch B setItem net controls prompt negativePrompt (lit "nail")
         u apiKey imageSize aspectRatio stored
       = (BlankedError (messageOf e),
          saves (length (nailImageBase64s u)) 0 ws stored).
Proof.
  intros Himages Hpre Hfail.
  destruct (nailLoop_prefix pre gs (x :: rest) 0 [] stored Hpre)
    as (ws & Hws & Hloop).
  { rewrite Himages, length_app. simpl. lia. }
  exists ws. split; [exact Hws|].
  unfold imageBranch, generateForMode.
  rewrite (bool_decide_eq_false_2 (lit "nail" = lit "clothing"))
    by discriminate.
  rewrite (bool_decide_eq_false_2 (lit "nail" = lit "product"))
    by discriminate.
  rewrite (bool_decide_eq_true_2 (lit "nail" = lit "nail")) by reflexivity.
  cbn [andb].
  assert ((0 <? length (nailImageBase64s u))%nat = true) as ->.
  { apply Nat.ltb_lt. rewrite Himages, length_app. simpl. lia. }
  rewrite Himages at 1. rewrite Hloop.
  simpl Nat.add. cbn [nailLoop]. rewrite Hfail. reflexivity.
Qed.

(** X22: Clothing mode without a person photo: the garment upload, which the
    validation demands, is not sent. The request is the text-to-image one,
    with the prompt alone, and its image is saved as [Virtual Try-On]. *)
Theorem clothing_without_person_photo_is_text_to_image stored :
  truthy_opt (referenceImageBase64 u) = false ->
  generateForMode B setItem net controls prompt negativePrompt
    (lit "clothing") u apiKey imageSize aspectRatio stored
  = (Api.generateImage (net 0) (finalPrompt prompt negativePrompt) apiKey
       imageSize aspectRatio,
     stored)
  /\ forall base64Image,
       Api.generateImage (net 0) (finalPrompt prompt negativePrompt) apiKey
         imageSize aspectRatio = Fulfilled base64Image ->
       exists w,
         watermarkAt 0 base64Image = Fulfilled w
         /\ imageBranch B setItem net controls prompt negativePrompt
              (lit "clothing") u apiKey imageSize aspectRatio stored
            = (ShownImage w,
               snd (saveToHistory B setItem (lit "Virtual Try-On") w
                      stored)).
Proof.
  intros Href.
  assert (generateForMode B setItem net controls prompt negativePrompt
            (lit "clothing") u apiKey imageSize aspectRatio stored
          = (Api.generateImage (net 0) (finalPrompt prompt negativePrompt)
               apiKey imageSize aspectRatio, stored)) as Hgen.
  { unfold generateForMode. rewrite Href, andb_false_r.
    rewrite (bool_decide_eq_false_2 (lit "clothing" = lit "product"))
      by discriminate.
    rewrite (bool_decide_eq_false_2 (lit "clothing" = lit "nail"))
      by discriminate.
    reflexivity. }
  split; [exact Hgen|].
  intros base64Image Himg.
  destruct (applyWatermark_fulfilled B (controls 0) base64Image)
    as (w & Hw).
  exists w. split; [exact Hw|].
  unfold imageBranch, standardWatermarkCall, historyPrompt.
  rewrite Hgen, Himg.
  rewrite (bool_decide_eq_false_2 (lit "clothing" = lit "nail"))
    by discriminate.
  rewrite (bool_decide_eq_false_2 (lit "clothing" = lit "product"))
    by discriminate.
  rewrite (bool_decide_eq_true_2 (lit "clothing" = lit "clothing"))
    by reflexivity.
  cbn [andb]. rewrite Hw.
  pose proof (saveToHistory_fulfilled B setItem (lit "Virtual Try-On") w
                stored) as Hsave.
  destruct (saveToHistory B setItem (lit "Virtual Try-On") w stored)
    as [r stored'].
  cbn [fst snd] in *. subst r. reflexivity.
Qed.

Lemma generateForMode_keeps_history currentMode stored :
  currentMode <> lit "nail" \/ length (nailImageBase64s u) <= 1 ->
  snd (generateForMode B setItem net controls prompt negativePrompt
         currentMode u apiKey imageSize aspectRatio stored) = stored.
Proof.
  intros Hmode. unfold generateForMode.
  destruct (bool_decide (currentMode = lit "clothing")
            && truthy_opt (garmentImageBase64 u)
            && truthy_opt (referenceImageBase64 u)); [reflexivity|].
  destruct (bool_decide (currentMode = lit "product")
            && truthy_opt (productImageBase64 u)).
  { destruct (truthy_opt (referenceImageBase64 u)); reflexivity. }
  destruct (bool_decide (currentMode = lit "nail")) eqn:Hnail; cbn [andb].
  - apply bool_decide_eq_true_1 in Hnail.
    destruct Hmode as [Hmode|Hlen]; [contradiction|].
    destruct (nailImageBase64s u) as [|x [|y images]] eqn:Himages.
    + simpl. destruct (truthy_opt (referenceImageBase64 u)); reflexivity.
    + cbn [length Nat.ltb Nat.leb nailLoop].
      destruct (Api.generateMultimodalImage _ _ _ _ _); [|reflexivity].
      destruct (Pipeline.applyWatermark _ _ _); [|reflexivity].
      rewrite Himages. reflexivity.
    + simpl in Hlen. lia.
  - destruct (truthy_opt (referenceImageBase64 u)); reflexivity.
Qed.

(** X23: Outside a nail art run over several photos, a click changes the
    stored history by one save at most, of exactly the image it shows, under
    the label of the mode; a click that ends with an error, in the validation,
    in the request or in the video branch, and a click that shows a video
    leave the history as it was. *)
Theorem click_saves_exactly_what_it_shows currentMode mediaType stored
    shown stored' :
  currentMode <> lit "nail" \/ length (nailImageBase64s u) <= 1 ->
  otherModes_click B setItem net controls generateVideo prompt
    negativePrompt currentMode u apiKey imageSize aspectRatio videoRes
    mediaType stored = (shown, stored') ->
  match shown with
  | ShownImage base64Image =>
      stored'
      = snd (saveToHistory B setItem (historyPrompt prompt currentMode)
               base64Image stored)
  | ShownVideo _ | ShownError _ | BlankedError _ => stored' = stored
  end.
Proof.
  intros Hmode. unfold otherModes_click.
  destruct (validationError prompt u currentMode).
  { intros [= <- <-]. reflexivity. }
  destruct (bool_decide (mediaType = lit "video")).
  - unfold videoBranch.
    destruct (if bool_decide (currentMode = lit "video-shop") then _ else _);
      intros [= <- <-]; reflexivity.
  - unfold imageBranch.
    pose proof (generateForMode_keeps_history currentMode stored Hmode)
      as Hkeep.
    destruct (generateForMode _ _ _ _ _ _ _ _ _ _ _ _)
      as [[base64Image|e] stored0]; cbn [snd] in Hkeep; subst stored0.
    + destruct (applyWatermark_fulfilled B
                  (controls (standardWatermarkCall currentMode u))
                  base64Image) as (w & ->).
      pose proof (saveToHistory_fulfilled B setItem
                    (historyPrompt prompt currentMode) w stored) as Hsave.
      destruct (saveToHistory B setItem _ w stored) as [r stored1] eqn:Hs.
      cbn [fst snd] in *. subst r. intros [= <- <-]. rewrite Hs.
      reflexivity.
    + intros [= <- <-]. reflexivity.
Qed.

(** X24: What a click has to offer to get past the validation: something
    entered or uploaded, and the upload of its mode: a garment in clothing
    mode, a product in product and video shop mode, a hand photo in nail
    art mode. Nothing else is asked, and no mode asks for a prompt. *)
Theorem validation_passes_iff currentMode :
  validationError prompt u currentMode = None
  <-> (truthy prompt = true
       \/ truthy_opt (referenceImageBase64 u) = true
       \/ truthy_opt (garmentImageBase64 u) = true
       \/ truthy_opt (productImageBase64 u) = true
       \/ nailImageBase64s u <> [])
      /\ (currentMode = lit "clothing" ->
          truthy_opt (garmentImageBase64 u) = true)
      /\ (currentMode = lit "product" \/ currentMode = lit "video-shop" ->
          truthy_opt (productImageBase64 u) = true)
      /\ (currentMode = lit "nail" -> nailImageBase64s u <> []).
Proof.
  unfold validationError.
  destruct (negb (truthy prompt)
            && negb (truthy_opt (referenceImageBase64 u))
            && negb (truthy_opt (garmentImageBase64 u))
            && negb (truthy_opt (productImageBase64 u))
            && (length (nailImageBase64s u) =? 0)%nat) eqn:Hnothing.
  { split; [discriminate|]. intros (Hany & _). exfalso.
    repeat (apply andb_prop in Hnothing as [Hnothing ?]).
    destruct (nailImageBase64s u); [|discriminate].
    destruct (truthy prompt), (truthy_opt (referenceImageBase64 u)),
      (truthy_opt (garmentImageBase64 u)),
      (truthy_opt (productImageBase64 u)); try discriminate.
    intuition congruence. }
  destruct (bool_decide (currentMode = lit "clothing")
            && negb (truthy_opt (garmentImageBase64 u))) eqn:Hgarment.
  { split; [discriminate|]. intros (_ & Hclothing & _). exfalso.
    apply andb_prop in Hgarment as [Hmode Hno].
    apply bool_decide_eq_true_1 in Hmode. rewrite (Hclothing Hmode) in Hno.
    discriminate. }
  destruct ((bool_decide (currentMode = lit "product")
             || bool_decide (currentMode = lit "video-shop"))
            && negb (truthy_opt (productImageBase64 u))) eqn:Hproduct.
  { split; [discriminate|]. intros (_ & _ & Hshop & _). exfalso.
    apply andb_prop in Hproduct as [Hmode Hno].
    apply orb_prop in Hmode.
    rewrite Hshop in Hno; [discriminate|].
    destruct Hmode as [Hmode|Hmode]; apply bool_decide_eq_true_1 in Hmode;
      auto. }
  destruct (bool_decide (currentMode = lit "nail")
            && (length (nailImageBase64s u) =? 0)%nat) eqn:Hhand.
  { split; [discriminate|]. intros (_ & _ & _ & Hnail). exfalso.
    apply andb_prop in Hhand as [Hmode Hno].
    apply bool_decide_eq_true_1 in Hmode.
    destruct (nailImageBase64s u); [|discriminate].
    exact (Hnail Hmode eq_refl). }
  split; [intros _|reflexivity].
  split; [|split; [|split]].
  - destruct (truthy prompt), (truthy_opt (referenceImageBase64 u)),
      (truthy_opt (garmentImageBase64 u)),
      (truthy_opt (productImageBase64 u)); auto.
    destruct (nailImageBase64s u); [discriminate|].
    do 4 right. discriminate.
  - intros Hmode.
    rewrite (bool_decide_eq_true_2 _ Hmode) in Hgarment.
    destruct (truthy_opt (garmentImageBase64 u)); [reflexivity|discriminate].
  - intros Hmode.
    destruct (truthy_opt (productImageBase64 u)); [reflexivity|].
    rewrite andb_true_r in Hproduct. apply orb_false_elim in Hproduct.
    destruct Hproduct as [Hp Hv].
    apply bool_decide_eq_false_1 in Hp, Hv. tauto.
  - intros Hmode Hempty.
    rewrite (bool_decide_eq_true_2 _ Hmode), Hempty in Hhand.
    discriminate.
Qed.

End ClickFacts.

(* ===================================================================== *)
(** ** The compression before a save *)
(* ===================================================================== *)

Lemma SFcompare_refl_not_lt f : SpecFloat.SFcompare f f <> Some Lt.
Proof.
  destruct f as [s|s| |s m e]; simpl; try (destruct s; discriminate);
    try discriminate.
  destruct s; rewrite Z.compare_refl, Pos.compare_refl; discriminate.
Qed.

(** A number is never smaller than itself, not a number included. *)
Lemma ltb_irrefl (x : float) : (x <? x)%float = false.
Proof.
  rewrite FloatAxioms.ltb_spec. unfold SpecFloat.SFltb.
  pose proof (SFcompare_refl_not_lt (FloatOps.Prim2SF x)) as H.
  destruct (SpecFloat.SFcompare _ _) as [[]|]; congruence.
Qed.

(** X25: What [compressImage] resolves with is the JPEG encoding, at the
    given quality, of a canvas that holds the decoded image and nothing
    else, scaled to the canvas, and the canvas is never wider than
    [maxWidth] in the sense of the comparison of the code; an image that is
    not wider than [maxWidth] keeps its size. *)
Theorem compressImage_bounds_width B base64Str maxWidth quality out :
  compressImage B base64Str maxWidth quality = Fulfilled out ->
  exists img canvas,
    loadImage B base64Str = Some img
    /\ out = toDataURL B canvas (lit "image/jpeg") (Some quality)
    /\ (maxWidth <? canvas_width canvas)%float = false
    /\ drawn canvas
       = [DrawImage freshContext img 0%float 0%float
            (Some (canvas_width canvas, canvas_height canvas))]
    /\ ((maxWidth <? width img)%float = false ->
        canvas_width canvas = width img
        /\ canvas_height canvas = height img).
Proof.
  unfold compressImage.
  destruct (loadImage B base64Str) as [img|]; [|discriminate].
  destruct (maxWidth <? width img)%float eqn:Hwide; cbv zeta beta iota.
  - destruct (getContext2d B _); [|discriminate]. cbn [negb]. cbv iota.
    intros H. injection H as <-. eexists img, _. split; [reflexivity|].
    split; [reflexivity|]. split; [apply ltb_irrefl|].
    split; [reflexivity|]. simpl. congruence.
  - destruct (getContext2d B _); [|discriminate]. cbn [negb]. cbv iota.
    intros H. injection H as <-. eexists img, _. split; [reflexivity|].
    split; [reflexivity|]. split; [exact Hwide|].
    split; [reflexivity|]. intros _. split; reflexivity.
Qed.

Lemma compressImage_bounds_width_witness :
  exists img canvas,
    loadImage pngBrowser pngUrl = Some img
    /\ lit "data:image/jpeg;base64,AAAA"
       = toDataURL pngBrowser canvas (lit "image/jpeg") (Some 0.7%float)
    /\ (800 <? canvas_width canvas)%float = false
    /\ drawn canvas
       = [DrawImage freshContext img 0%float 0%float
            (Some (canvas_width canvas, canvas_height canvas))]
    /\ ((800 <? width img)%float = false ->
        canvas_width canvas = width img
        /\ canvas_height canvas = height img).
Proof.
  apply (compressImage_bounds_width pngBrowser pngUrl 800%float 0.7%float).
  vm_compute. reflexivity.
Defined.

(* ===================================================================== *)
(** ** Taking an upload apart *)
(* ===================================================================== *)

Lemma imagePartOf_data_url mime payload :
  forallb (fun c => negb (c =? 44)%N && negb (c =? 59)%N
                    && negb (c =? 58)%N) mime = true ->
  forallb (fun c => negb (c =? 44)%N) payload = true ->
  Handler.imagePartOf (lit "data:" ++ mime ++ lit ";base64," ++ payload)
  = (Some payload, Some mime).
Proof.
  intros Hmime Hpayload. unfold Handler.imagePartOf.
  assert (forallb (fun c => negb (c =? 44)%N) mime = true) as Hcomma.
  { revert Hmime. apply forallb_weaken.
    intros c Hc. apply andb_prop in Hc as [Hc _].
    apply andb_prop in Hc as [Hc _]. exact Hc. }
  assert (forallb (fun c => negb (c =? 59)%N) mime = true) as Hsemi.
  { revert Hmime. apply forallb_weaken.
    intros c Hc. apply andb_prop in Hc as [Hc _].
    apply andb_prop in Hc as [_ Hc]. exact Hc. }
  assert (forallb (fun c => negb (c =? 58)%N) mime = true) as Hcolon.
  { revert Hmime. apply forallb_weaken.
    intros c Hc. apply andb_prop in Hc as [_ Hc]. exact Hc. }
  f_equal.
  - replace (lit "data:" ++ mime ++ lit ";base64," ++ payload)
      with ((lit "data:" ++ mime ++ lit ";base64") ++ 44%N :: payload)
      by (rewrite <- !app_assoc; reflexivity).
    rewrite split_app_sep, (split_no_sep 44%N payload Hpayload);
      [reflexivity|].
    rewrite !forallb_app. apply andb_true_intro. split; [reflexivity|].
    apply andb_true_intro. split; [exact Hcomma|reflexivity].
  - replace (lit "data:" ++ mime ++ lit ";base64," ++ payload)
      with ((lit "data:" ++ mime) ++ 59%N :: lit "base64," ++ payload)
      by (rewrite <- app_assoc; reflexivity).
    rewrite split_app_sep.
    + cbn [lookup list_lookup].
      change (lit "data:" ++ mime) with (lit "data" ++ 58%N :: mime).
      rewrite split_app_sep by reflexivity.
      rewrite (split_no_sep 58%N mime Hcolon). reflexivity.
    + rewrite forallb_app. apply andb_true_intro.
      split; [reflexivity|exact Hsemi].
Qed.

(** X26: The upload parser of the click handler, which cuts at the first
    comma, semicolon and colon, reads a data URL [data:<mime>;base64,<payload>]
    back into its two parts whenever the MIME type holds none of these three
    characters and the payload no comma. *)
Theorem imagePartOf_reads_data_url mime payload :
  forallb (fun c => negb (c =? 44)%N && negb (c =? 59)%N
                    && negb (c =? 58)%N) mime = true ->
  forallb (fun c => negb (c =? 44)%N) payload = true ->
  Handler.imagePartOf (lit "data:" ++ mime ++ lit ";base64," ++ payload)
  = (Some payload, Some mime).
Proof.
  exact (imagePartOf_data_url mime payload).
Qed.

Lemma imagePartOf_reads_data_url_witness :
  Handler.imagePartOf
    (lit "data:" ++ lit "image/svg+xml" ++ lit ";base64," ++ lit "PHN2Zz4=")
  = (Some (lit "PHN2Zz4="), Some (lit "image/svg+xml")).
Proof.
  apply (imagePartOf_reads_data_url (lit "image/svg+xml") (lit "PHN2Zz4="));
    reflexivity.
Defined.

(** X27: The two ways the code takes a data URL apart agree: on every URL
    that the pattern of [editImage] accepts, with a payload that holds no
    comma, the upload parser of the click handler gives the payload and the
    MIME type that the pattern captures. *)
Theorem imagePartOf_agrees_with_matchDataUrl url mime payload :
  matchDataUrl url = Some (mime, payload) ->
  forallb (fun c => negb (c =? 44)%N) payload = true ->
  Handler.imagePartOf url = (Some payload, Some mime).
Proof.
  intros Hmatch Hpayload.
  apply matchDataUrl_Some in Hmatch
    as (sub & -> & -> & _ & Hsub & _ & _).
  change (lit "data:image/" ++ sub ++ lit ";base64," ++ payload)
    with (lit "data:" ++ (lit "image/" ++ sub) ++ lit ";base64," ++ payload).
  apply imagePartOf_data_url; [|exact Hpayload].
  rewrite forallb_app. apply andb_true_intro. split; [reflexivity|].
  apply (forallb_weaken isLower); [|exact Hsub].
  intros c Hc. unfold isLower in Hc. apply andb_prop in Hc as [Hlo Hhi].
  apply N.leb_le in Hlo, Hhi.
  rewrite !andb_true_iff, !negb_true_iff, !N.eqb_neq. lia.
Qed.

Lemma imagePartOf_agrees_with_matchDataUrl_witness :
  Handler.imagePartOf pngUrl
  = (Some (lit "iVBORw0KGgo="), Some (lit "image/png")).
Proof.
  apply (imagePartOf_agrees_with_matchDataUrl pngUrl (lit "image/png")
           (lit "iVBORw0KGgo=")); reflexivity.
Defined.

(* ===================================================================== *)
(** ** The properties above on the concrete pages *)
(* ===================================================================== *)

Lemma done_iff_image_witness :
  let item := {| id := lit "bulk-0-1"; prompt := lit "<!--";
                 status := generating; imageUrl := None |} in
  (status item = done <-> is_Some (imageUrl item))
  /\ (status item = error -> imageUrl item = None)
  /\ (rowsReady htmlPage (newQueue atZero [lit "b"; lit "<!--"; lit "c"])
      = true ->
      (status item = error <-> imageUrl item = None)).
Proof.
  intros item.
  apply (done_iff_image pngBrowser roomyStorage htmlPage atZero failsOnB
           (fun _ => Pipeline.applyWatermark pngBrowser wmOff)
           (lit "key") (lit "1:1") (lit "1K") []
           [lit "b"; lit "<!--"; lit "c"] emptyWorld 1 item).
  vm_compute. reflexivity.
Defined.

Lemma evictOldest_keeps_longest_prefix_witness :
  (evictOldest tightStorage 5 fiveItems [] = []
   /\ forall k, 1 <= k < length fiveItems ->
                tightStorage (take k fiveItems) <> Stored)
  \/ exists k,
       1 <= k < length fiveItems
       /\ evictOldest tightStorage 5 fiveItems [] = take k fiveItems
       /\ tightStorage (take k fiveItems) = Stored
       /\ forall j, k < j < length fiveItems ->
                    tightStorage (take j fiveItems) <> Stored.
Proof.
  apply (evictOldest_keeps_longest_prefix tightStorage fiveItems [] 5).
  vm_compute. lia.
Defined.

Lemma bulk_run_bounds_history_witness :
  length (history abcRun) <= MAX_HISTORY_ITEMS.
Proof.
  apply (bulk_run_bounds_history pngBrowser roomyStorage htmlPage atZero
           failsOnB (fun _ => Pipeline.applyWatermark pngBrowser wmOff)
           (lit "key") (lit "1:1") (lit "1K") []
           [lit "a"; lit "b"; lit "c"] emptyWorld).
  vm_compute. lia.
Defined.

Lemma video_url_comes_from_a_finished_download_witness :
  exists request started n operation uri downloadResponse evs,
    slowVideos (lit "key") request = Fulfilled started
    /\ Video.v_prompt request = lit "a cat"
    /\ Video.polled slowPoll n (lit "key") started = Some operation
    /\ Video.op_done operation = true
    /\ (forall k o, k < n ->
                    Video.polled slowPoll k (lit "key") started = Some o ->
                    Video.op_done o = false)
    /\ Video.op_uri operation = Some uri
    /\ uri <> []
    /\ goodFetch (uri ++ lit "&key=" ++ lit "key")
       = Fulfilled downloadResponse
    /\ Video.dl_ok downloadResponse = true
    /\ lit "blob:1" = Video.dl_objectUrl downloadResponse
    /\ [Video.VStatus
          (lit "Rendering video frames... (this may take a minute)");
        Video.VWait 5000; Video.VPoll (countdown 2);
        Video.VWait 5000; Video.VPoll (countdown 1)]
       = Video.VStatus
           (lit "Rendering video frames... (this may take a minute)")
         :: evs
    /\ Video.waitsOf evs = replicate n 5000.
Proof.
  apply (video_url_comes_from_a_finished_download slowVideos slowPoll
           goodFetch 5 (lit "a cat") None (lit "key") (lit "1:1")
           (lit "1080p")).
  vm_compute. reflexivity.
Defined.

Lemma nail_click_watermarks_last_image_twice_witness :
  exists ws w w',
    imap (fun k r => Pipeline.applyWatermark pngBrowser wmText r)
      ([pngUrl] ++ [pngUrl])
    = Fulfilled <$> (ws ++ [w])
    /\ Pipeline.applyWatermark pngBrowser wmText w = Fulfilled w'
    /\ Handler.imageBranch pngBrowser roomyStorage pngNet (fun _ => wmText)
         (lit "red") [] (lit "nail") twoHands (lit "key") (lit "1K")
         (lit "1:1") []
       = (Handler.ShownImage w',
          snd (saveToHistory pngBrowser roomyStorage (lit "Nail Art") w'
                 (Handler.nailSaves pngBrowser roomyStorage 2 0 ws []))).
Proof.
  apply (nail_click_watermarks_last_image_twice pngBrowser roomyStorage
           pngNet (fun _ => wmText) (lit "red") [] twoHands (lit "key")
           (lit "1K") (lit "1:1") [pngUrl] pngUrl []).
  vm_compute. reflexivity.
Defined.

Lemma nail_click_stops_at_first_failure_witness :
  exists ws,
    imap (fun k r => Pipeline.applyWatermark pngBrowser wmText r) [pngUrl]
    = Fulfilled <$> ws
    /\ Handler.imageBranch pngBrowser roomyStorage secondFails
         (fun _ => wmText) (lit "red") [] (lit "nail") threeHands
         (lit "key") (lit "1K") (lit "1:1") []
       = (Handler.BlankedError (Some (lit "quota")),
          Handler.nailSaves pngBrowser roomyStorage 3 0 ws []).
Proof.
  apply (nail_click_stops_at_first_failure pngBrowser roomyStorage
           secondFails (fun _ => wmText) (lit "red") [] threeHands
           (lit "key") (lit "1K") (lit "1:1") [pngUrl] pngUrl [pngUrl]
           [pngUrl] (Error (lit "quota")) []).
  - reflexivity.
  - vm_compute. reflexivity.
  - vm_compute. reflexivity.
Defined.

Lemma clothing_without_person_photo_is_text_to_image_witness :
  Handler.generateForMode pngBrowser roomyStorage pngNet (fun _ => wmOff)
    (lit "red coat") [] (lit "clothing") garmentOnly (lit "key") (lit "1K")
    (lit "1:1") []
  = (Api.generateImage (pngNet 0) (lit "red coat") (lit "key") (lit "1K")
       (lit "1:1"),
     []).
Proof.
  destruct (clothing_without_person_photo_is_text_to_image pngBrowser
              roomyStorage pngNet (fun _ => wmOff) (lit "red coat") []
              garmentOnly (lit "key") (lit "1K") (lit "1:1") [])
    as [H _]; [reflexivity|].
  exact H.
Defined.

Lemma click_saves_exactly_what_it_shows_witness :
  [ {| h_prompt := lit "cat";
       h_imageUrl := lit "data:image/jpeg;base64,AAAA" |} ]
  = snd (saveToHistory pngBrowser roomyStorage
           (Handler.historyPrompt (lit "cat") (lit "standard")) pngUrl []).
Proof.
  apply (click_saves_exactly_what_it_shows pngBrowser roomyStorage pngNet
           (fun _ => wmOff) noVideo (lit "cat") [] garmentOnly (lit "key")
           (lit "1K") (lit "1:1") (lit "1080p") (lit "standard")
           (lit "image") [] (Handler.ShownImage pngUrl)).
  - left. discriminate.
  - vm_compute. reflexivity.
Defined.
